(* ===== verification/_CoqProject ===== *)
-Q . S2P
Prelude.v
Types.v
Format.v
SkipPolicy.v
Mapper.v
Media.v
Review.v
Metrics.v
Report.v
Analysis.v
ReviewView.v
Upload.v
App.v
Process.v
ProcessView.v
ProcessRevisions.v
AppView.v
