(* ===== verification/Prelude.v ===== *)
(** * ClarityCut: a verification development

    ClarityCut (TypeScript/React) lets a user upload a video, receive a list
    of detected "cut" intervals (fillers, cliches, silences, repetitions,
    stutters), accept or reject each one while watching a player that skips
    accepted cuts, and finally see the edit's metrics, a report and a
    preview of the result.  This library models the program's logic in
    Rocq, file by file, and proves what makes it correct, and where it is
    not.

    ** The program and how its parts interact

    [App] ([src/unnamed/part_000], i.e. [App.tsx]) owns the phase
    (upload -> analyzing -> review -> processing), the file, the
    configuration, the saved phrase lists and the cuts.  In phase upload it
    renders [UploadPhase] (props: config, setConfig, savedLists and
    callbacks); its "Analyze" callback [handleStartAnalysis] awaits
    [analyzeVideoMock] ([services/geminiService.ts]) and filters the
    generated cuts by the configuration.  In phase review it renders
    [ReviewPhase] with the cuts and [setCuts]; the review screen runs a
    per-frame loop that skips accepted cuts of an HTML video element, and
    handles scrubbing, hovering, segment previews and the transport
    buttons.  In phase processing it renders [ProcessPhase] with
    [calculateMetrics()]; that screen simulates a render, asks
    [generateEditingReport] for a text and plays a final preview that
    skips accepted cuts with its own tolerance.  [ProcessPhase.tsx] holds
    three revisions of that component one after the other; the App's props
    match the last one, and the earlier two differ in the progress
    increment and in what they show.

    ** Files, modules and what they model

    - [Prelude.v] (this file): the scope [cc_scope] with the JS comparisons
      [<=?] and [<?] on [Q], decidability instances on [Q], [clamp]
      ([Math.max(lo, Math.min(hi, x))]), the [find] and [filter] lemmas the
      evaluators share, [Math.floor] lemmas, the random-draw predicate
      [draws_ok], the hint database [cc] and the tactics [qsolve] and
      [decide_concrete].
    - [Types.v]: every type of [src/types.ts] (inductives for the unions,
      records for the interfaces), the well-formedness [cut_wf] of a cut
      (spec section 3) and [toggleCutStatus].
    - [Format.v], [Module Format]: the JS number operations the screens
      print with.  A JS number is [Fin q], [NaN] or an infinity; division,
      the remainder [%], integer [toString], [padStart], [toFixed] and
      [parseFloat] follow the ECMAScript algorithms on the exact value;
      [formatTime] and [formatTimeExact] of [ReviewPhase] are built on
      them.  A small reader of clock strings ([parse_time]) states what
      the formatters print.
    - [SkipPolicy.v], [Module Skip]: the four [cuts.find] searches of
      [ReviewPhase] ([currentCut], [upcomingCut], [previewCutAt],
      [cutAtTime]), the jump of [checkTime] iterated over frames
      ([skip_chain], with a fuel), and the spec's latest-end rule
      ([latestCut]) for comparison.  [Section Chain] proves, for any rule
      that jumps past a containing accepted cut, that the chain lands on
      the least uncovered time after the play-head.
    - [Mapper.v], [Module Mapper]: pointer offset to time
      ([handleScrubMove], the hover handler) and time to the [left:%] of
      the styles; a division by a zero duration is [None] (NaN in JS).
    - [Media.v]: the HTML video element the screens drive, as an interface
      ([Class MediaElement]: paused, currentTime, duration, play, pause,
      seek, and the playback clock) with the laws the screens rely on
      ([Class MediaLaws]) and the HTML standard's element ([Video]) as an
      instance.  This code is the browser's, not under [src/].
    - [Review.v], [Module Review]: [ReviewPhase] as a state machine.  Its
      hooks, refs and the [cuts] prop are the record [ReviewState]; every
      handler ([checkTime], [previewCut], [skip], [handleScrubStart/Move/
      End], [togglePlay], the timeline hover, the video events) is a total
      function on it, generic in the media element; [step] and [reachable]
      are the step relation over user actions, frames, clock ticks and
      media events, and [run] its executable form.
    - [Metrics.v], [Module Metrics]: [calculateMetrics] (App), the [stats]
      memo (ReviewPhase) and the counts and percentage of the offline
      report (geminiService).
    - [Report.v], [Module Report]: [generateEditingReport]: [getAI], the
      prompt, the offline text, [response.text || ...] and the catch
      branch; the Gemini service is a parameter from the model name and
      the prompt to an answer or an exception.
    - [Analysis.v], [Module Analysis]: [analyzeVideoMock].  [Math.random()]
      is an explicit stream [rnd : nat -> Q] read through a small state
      monad ([Rand], notation [x <- m ;; f] in [rand_scope]), one [random]
      per call in the source's order; [toFixed(2)] is [to_fixed2]; the
      stable [Array.prototype.sort] is an insertion sort.
    - [ReviewView.v], [Module ReviewView]: what the review screen shows
      as functions of [ReviewState]: the synthetic waveform (a [Section]
      over [Math.sin]), the colour helpers, the legend, the header, the
      overlays, the tooltip, the time display and the cut list.
    - [Upload.v], [Module Upload]: [UploadPhase]'s handlers over its own
      state and its parent's, the parent seen through the interface
      [Class UploadProps] with the laws [UploadPropsLaws]; [upload_step]
      dispatches every user action.
    - [App.v], [Module App]: [AppState], [handleStartAnalysis] split at its
      [await] (the request, then [analysisDone] with the mock's cuts), the
      filter [keep_cut], the list handlers, the [UploadProps] instance, and
      [app_step]/[app_reachable], the step relation of the whole App.
    - [Process.v], [Module Process]: the last revision of [ProcessPhase]:
      progress ([progressEffect], [run_progress]), [getStageInfo], the
      report flags, the final preview's [checkTime] with [activeCut] and
      [preview_chain], [handlePlayPreview], [handleDownload], and the
      screen's step function.  The increment the progress timeout adds is
      a section variable [rule] ([timer_step_by], [run_progress_by]), the
      only part of the machine that differs between the revisions.
    - [ProcessRevisions.v], [Module ProcessRevisions]: the two earlier
      revisions concatenated in [ProcessPhase.tsx] (lines 1-151 and
      151-417).  Revision 1 is [Module Rev1], a machine on its four hooks
      with its render; revision 2 is [Process]'s machine with the
      increment [max(1, floor(r * 10))] ([rev2_step]) and its render
      ([view2]); [forget] and [lift] map revision 2 onto revision 1.
    - [ProcessView.v], [Module ProcessView]: what the processing screen
      shows: the stage's label and detail, the percentage, the metric
      cards printed with [toFixed(1)], the report card and the download
      label.
    - [AppView.v], [Module AppView]: the App's render: the navigation
      badge and the screen each phase selects, with the props it passes.

    ** What is proved

    - Skipping on the review screen: [currentCut] is the first accepted cut
      containing the play-head in [start, end), stated on the status and
      the interval test themselves ([currentCut_spec],
      [in_accepted_cut_boundary]); [n] frames of [checkTime] refine [n]
      steps of [skip_chain] ([frames_refine]); the loop stops in no
      accepted cut after one frame per accepted cut ([frames_converge],
      [skip_chain_converges]); the code's first-match rule and the spec's
      latest-end rule land on the same time ([skip_chain_equiv]).
    - The playback state machine: scrub precedence, preview suppression of
      the skip policy, termination of a preview, resume after a scrub, and
      an invariant of every reachable state ([reachable_inv]).
    - Mapper: bounds of a scrub time and the render/scrub round trip.
    - Metrics: the spec's example, and the effect on the metrics of
      accepting a cut on the review screen ([accept_updates_metrics]).
    - Analysis: the mock's cuts are a stable sorted permutation of the
      generated ones, with distinct ids, well formed and within the video
      when it lasts at least 5 s.
    - Formatting: [formatTimeExact] and [formatTime] print readings that
      read back as the time truncated to the millisecond (the second);
      while scrubbing, the tooltip prints the play-head exactly;
      hovering draws the ghost play-head under the pointer
      ([hover_ghost_under_pointer]).
    - Report: the report is never an empty text, whatever the service
      does; the waveform's bars lie in [0.1, 1]; the timeline's colours
      agree with its legend.
    - Upload and App: phrase removal, and invariants of every reachable
      App state (valid file, at most 10 trimmed phrases per list, distinct
      and filtered cuts on the review screen, [completed] never reached).
      The builtins the code calls ([toFixed], [parseFloat], [trim]) are
      modelled as definitions, with no theorem of their own: the
      properties are about the code that calls them.
    - Processing: the render progress reaches 100 within [100 - p]
      timeouts for any draws, the stages are shown in order without
      skipping one, the screen's invariant, and termination of the final
      preview's skipping; the review header and the processing cards
      show the same figures; in every reachable App state on the
      processing screen the download does nothing.
    - Earlier revisions: revision 2 simulates revision 1; on the same
      hooks both show the same progress, cards and report, under a
      different banner sentence and different buttons ([rev1_refines]), so revision 1 keeps the invariant of the
      screen ([rev1_reachable_inv]); their render ends within [100 - p]
      timeouts and gains at most 9 per timeout, against 4 in the last
      revision ([rev_progress_rate], [earlier_revisions_faster]).

    Each property of the manifest is a theorem preceded by a comment with
    its claim id; each theorem with hypotheses has a witness lemma (ending
    in [Defined]) that applies it to concrete values, usually the concrete
    [Video] element and small cut lists.

    ** Findings the theorems establish

    A preview bounded by the media's end is never cleared, after which
    accepted cuts are played through ([Review.preview_stuck_at_end]); the
    code's tie-break is first-match, not the spec's latest end
    ([Skip.first_match_tiebreak]); overlapping cuts are counted twice in
    the time saved ([Metrics.overlap_double_counted]); the offline report
    counts rejected cuts ([Report.report_text_counts_rejected]), names
    every kind of cut but silences ([Report.fallback_omits_silences]) and
    prints [NaN%] or [Infinity%] for a duration of 0
    ([Report.fallback_zero_duration]); the mock gives negative starts on
    videos under 5 s ([Analysis.analyzeVideoMock_short_video]), which the
    cut list prints as [-1:-1:000]
    ([ReviewView.short_video_rows_negative]); a silence of exactly the
    threshold is kept although the comment says "greater"
    ([App.silence_at_threshold_kept]); the phase [completed] is dead
    ([App.phase_never_completed]); the App does not pass [file] or
    [fileUrl] to the processing screen, whose download then does nothing
    although the App holds the file ([AppView.app_download_inert]); the
    final preview's 0.1 s tolerance and 0.05 s overshoot differ from the
    review screen ([Process.final_preview_vs_review]); on a 6 s video a
    run of the App reaches a processing screen that prints a new duration
    of [-0.1m] and 10 s saved ([AppView.short_video_negative_duration]).

    ** Bounds and fuel

    Times are exact rationals: JS doubles round, and a property stated with
    [==] on [Q] holds of the real-number semantics, not bit for bit of IEEE
    arithmetic.  Integers that the code keeps as integers (progress,
    indices, [Math.floor] results) are [Z] or [nat]; no value reaches 2^53.
    The skip chains take a fuel; the fuel [accepted_count cuts] is enough
    because every jump strictly lowers the number of accepted cuts ending
    after the play-head ([Skip.pending], [Process.pending_active]), which
    never exceeds [accepted_count].  The progress iteration needs at most
    [100 - p] timeouts because every increment is at least 1.

    ** Not modelled

    The Gemini service itself (a parameter of [Report]), the 2.5 s delay of
    the mock, the DOM (object URLs, [scrollIntoView], link clicks), and the
    layout, icons and animation classes of the JSX.  The icon fallback
    [Check] of the first revision of [ProcessPhase.tsx] (lines 148-151) is
    an SVG with no behaviour.  [String.prototype.trim] and the
    white space [parseFloat] skips are modelled on ASCII white space only;
    numbers are exact rationals, so the binary rounding of doubles (such as
    [(1.005).toFixed(2)] printing [1.00]) is outside the model.
*)

From stdpp Require Export base list strings decidable sets.
From Stdlib Require Export QArith Qminmax Qabs Qround Lqa.

Declare Scope cc_scope.
Delimit Scope cc_scope with cc.
Open Scope Q_scope.

(** ** Decidability of the order on [Q] *)

#[export] Instance Qle_rel_dec : RelDecision Qle.
Proof.
  intros x y. destruct (Qlt_le_dec y x) as [H|H].
  - right. intros H'. apply (Qlt_not_le y x H H').
  - left. exact H.
Defined.

#[export] Instance Qlt_rel_dec : RelDecision Qlt.
Proof.
  intros x y. destruct (Qlt_le_dec x y) as [H|H].
  - left. exact H.
  - right. intros H'. apply (Qlt_not_le x y H' H).
Defined.

#[export] Instance Qeq_rel_dec : RelDecision Qeq := Qeq_dec.

(** Syntactic equality of rationals, for records holding times. *)
#[export] Instance Q_eq_dec : EqDecision Q.
Proof. solve_decision. Defined.

(** The JS comparisons [a <= b], [a < b] as booleans. *)
Notation "x <=? y" := (bool_decide (Qle x y)) (at level 70, no associativity) : cc_scope.
Notation "x <? y" := (bool_decide (Qlt x y)) (at level 70, no associativity) : cc_scope.
Open Scope cc_scope.

(** [Math.max(lo, Math.min(hi, x))], the clamp the code writes out. *)
Definition clamp (lo hi x : Q) : Q := Qmax lo (Qmin hi x).

(** ** Lemmas on [Q] the components share *)

Lemma clamp_bounds lo hi x : lo <= hi -> lo <= clamp lo hi x <= hi.
Proof.
  unfold clamp. intros H. split.
  - apply Q.le_max_l.
  - apply Q.max_lub; [exact H | apply Q.le_min_l].
Qed.

Lemma clamp_id lo hi x : lo <= x <= hi -> clamp lo hi x == x.
Proof.
  unfold clamp. intros [H1 H2].
  rewrite (Q.min_r hi x H2). apply Q.max_r. exact H1.
Qed.

Lemma clamp_mono lo hi x y : x <= y -> clamp lo hi x <= clamp lo hi y.
Proof.
  unfold clamp. intros H. apply Q.max_le_compat_l, Q.min_le_compat_l, H.
Qed.

(** ** The first match of [find] *)

Section Find.
Context {A : Type} (f : A -> bool).

(** [find] returns an element of the list satisfying [f], and every
    element before it fails [f]: [Array.prototype.find]'s contract. *)
Lemma find_first (l : list A) (x : A) :
  find f l = Some x ->
  exists pre post, l = pre ++ x :: post /\ f x = true /\
                   Forall (fun y => f y = false) pre.
Proof.
  induction l as [|a l IH]; simpl; [discriminate|].
  destruct (f a) eqn:Ha.
  - intros [= <-]. exists [], l. auto.
  - intros Hf. destruct (IH Hf) as (pre & post & -> & Hx & Hpre).
    exists (a :: pre), post. simpl. auto.
Qed.

Lemma find_none_iff (l : list A) :
  find f l = None <-> Forall (fun y => f y = false) l.
Proof.
  induction l as [|a l IH]; simpl; [split; auto|].
  destruct (f a) eqn:Ha; split.
  - discriminate.
  - intros H. inversion H; congruence.
  - intros H. constructor; [exact Ha | apply IH, H].
  - intros H. inversion H; apply IH; assumption.
Qed.

Lemma find_some_in (l : list A) (x : A) :
  find f l = Some x -> x ∈ l /\ f x = true.
Proof.
  intros H. apply find_some in H as [Hin Hx].
  split; [apply list_elem_of_In, Hin | exact Hx].
Qed.

Lemma find_app_none (l1 l2 : list A) :
  find f l1 = None -> find f (l1 ++ l2) = find f l2.
Proof. induction l1 as [|a l1 IH]; simpl; [done|]. destruct (f a); [discriminate | exact IH]. Qed.
End Find.

(** Two predicates that agree on a list find the same element. *)
Lemma find_ext_in {A} (f g : A -> bool) (l : list A) :
  (forall x, x ∈ l -> f x = g x) -> find f l = find g l.
Proof.
  induction l as [|a l IH]; intros H; simpl; [done|].
  rewrite (H a) by set_solver. destruct (g a); [done|].
  apply IH. intros x Hx. apply H. set_solver.
Qed.

(** [Array.prototype.filter] keeps a property of every element. *)
Lemma Forall_list_filter {A} (P : A -> Prop) (f : A -> bool) (l : list A) :
  Forall P l -> Forall P (List.filter f l).
Proof.
  induction 1 as [|x l Hx _ IH]; cbn; [constructor|].
  destruct (f x); [constructor|]; done.
Qed.

(** [Array.prototype.filter] keeps what passes the test, and keeps
    pairwise distinct keys distinct. *)
Lemma Forall_list_filter_true {A} (f : A -> bool) (l : list A) :
  Forall (fun x => f x = true) (List.filter f l).
Proof. induction l as [|x l IH]; cbn; [constructor|]. destruct (f x) eqn:E; [by constructor | done]. Qed.

Lemma NoDup_map_filter {A B} (g : A -> B) (f : A -> bool) (l : list A) :
  NoDup (map g l) -> NoDup (map g (List.filter f l)).
Proof.
  induction l as [|x l IH]; cbn; [done|]. intros H. apply NoDup_cons in H as [Hn H].
  destruct (f x); cbn; [|by apply IH]. constructor; [|by apply IH].
  intros Hin. apply Hn. apply list_elem_of_In in Hin. apply list_elem_of_In.
  apply in_map_iff in Hin as (y & Hy & Hin). apply filter_In in Hin as [Hin _].
  apply in_map_iff. eauto.
Qed.

(** The numbers [Math.random()] returns, as a stream: each in [0, 1). *)
Definition draws_ok (rnd : nat -> Q) : Prop := forall k, 0 <= rnd k < 1.

(** ** [Math.floor] on rationals *)

Lemma Qfloor_bounds (y : Q) : inject_Z (Qfloor y) <= y < inject_Z (Qfloor y) + 1.
Proof.
  split; [apply Qfloor_le|]. pose proof (Qlt_floor y) as H.
  rewrite inject_Z_plus in H. exact H.
Qed.

(** [Math.floor(y)] is the integer [z] with [z <= y < z + 1]. *)
Lemma Qfloor_eq (y : Q) (z : Z) : inject_Z z <= y < inject_Z z + 1 -> Qfloor y = z.
Proof.
  intros [H1 H2]. pose proof (Qfloor_bounds y) as [H3 H4].
  assert (Ha : (z < Qfloor y + 1)%Z) by (rewrite Zlt_Qlt, inject_Z_plus; change (inject_Z 1) with 1; lra).
  assert (Hb : (Qfloor y < z + 1)%Z) by (rewrite Zlt_Qlt, inject_Z_plus; change (inject_Z 1) with 1; lra).
  lia.
Qed.

Lemma Qfloor_shift (y : Q) (m : Z) : Qfloor (y + inject_Z m) = (Qfloor y + m)%Z.
Proof.
  apply Qfloor_eq. rewrite inject_Z_plus. pose proof (Qfloor_bounds y). lra.
Qed.

Lemma Qfloor_nonneg (y : Q) : 0 <= y -> (0 <= Qfloor y)%Z.
Proof. intros H. apply (Qfloor_resp_le 0 y) in H. exact H. Qed.

Lemma Qfloor_lt (y : Q) (n : Z) : y < inject_Z n -> (Qfloor y < n)%Z.
Proof. intros H. rewrite Zlt_Qlt. pose proof (Qfloor_bounds y). lra. Qed.

Lemma Qfloor_sub_int (y : Q) (m : Z) : Qfloor (y - inject_Z m) = (Qfloor y - m)%Z.
Proof.
  apply Qfloor_eq. unfold Z.sub. rewrite inject_Z_plus, inject_Z_opp. pose proof (Qfloor_bounds y). lra.
Qed.

(** [Math.floor(t / k)] only depends on [Math.floor(t)]. *)
Lemma Qfloor_div (t : Q) (k : Z) : (0 < k)%Z -> Qfloor (t / inject_Z k) = (Qfloor t / k)%Z.
Proof.
  intros Hk. apply Qfloor_eq. pose proof (Qfloor_bounds t) as [H1 H2].
  pose proof (Z.div_mod (Qfloor t) k ltac:(lia)) as E.
  pose proof (Z.mod_pos_bound (Qfloor t) k Hk) as B.
  assert (Hk' : 0 < inject_Z k) by (rewrite Zlt_Qlt in Hk; exact Hk).
  assert (Hq1 : inject_Z (Qfloor t / k * k) <= inject_Z (Qfloor t)) by (rewrite <- Zle_Qle; nia).
  assert (Hq2 : inject_Z (Qfloor t + 1) <= inject_Z ((Qfloor t / k + 1) * k)) by (rewrite <- Zle_Qle; nia).
  rewrite !inject_Z_mult, !inject_Z_plus in *. change (inject_Z 1) with 1 in *.
  split; [apply Qle_shift_div_l | apply Qlt_shift_div_r]; try exact Hk'; nra.
Qed.

(** ** Automation *)

Create HintDb cc discriminated.
#[export] Hint Resolve clamp_bounds clamp_mono : cc.

(** [qsolve] turns the [bool_decide] tests of the model into hypotheses
    and closes the arithmetic with [lra]. *)
Ltac qsolve :=
  repeat match goal with
         | H : bool_decide _ = true |- _ => apply bool_decide_eq_true in H
         | H : bool_decide _ = false |- _ => apply bool_decide_eq_false in H
         | |- bool_decide _ = true => apply bool_decide_eq_true
         | |- bool_decide _ = false => apply bool_decide_eq_false
         | H : ~ (_ <= _) |- _ => apply Qnot_le_lt in H
         | H : ~ (_ < _) |- _ => apply Qnot_lt_le in H
         | H : _ /\ _ |- _ => destruct H
         | |- _ /\ _ => split
         end; try lra.

(** [decide_concrete] proves a decidable proposition about concrete values
    by evaluating its decision procedure. *)
Ltac decide_concrete :=
  match goal with |- ?P => refine (@bool_decide_eq_true_1 P _ _); vm_compute; reflexivity end.
