(* ===== verification/Types.v ===== *)
(** The data model of [src/types.ts]: the kinds of cut, a detected cut
    ([CutEvent]), the configuration ([VideoConfig]), saved phrase lists,
    the metrics record and the application phases; the well-formedness of
    a cut; and the status update [toggleCutStatus] of [ReviewPhase.tsx],
    which is the only operation that changes a cut. *)

From S2P Require Import Prelude.

Inductive Phase := upload | analyzing | review | processing | completed.

Inductive CutType := cliche | filler | silence | repetition | stutter.

Inductive OutputFormat := mp4 | mov | avi | mkv.

Inductive OutputQuality := original | q4k | q1080p | q720p | q480p.

(** [status: 'accepted' | 'rejected'] *)
Inductive Status := accepted | rejected.

#[export] Instance Phase_eq_dec : EqDecision Phase.
Proof. solve_decision. Defined.
#[export] Instance CutType_eq_dec : EqDecision CutType.
Proof. solve_decision. Defined.
#[export] Instance Status_eq_dec : EqDecision Status.
Proof. solve_decision. Defined.

(** [interface CutEvent]; [end] is a keyword of Rocq, hence [end_]. *)
Record CutEvent := mkCut {
  id : string;
  type : CutType;
  word : option string;
  start : Q;
  end_ : Q;
  confidence : Q;
  status : Status
}.

#[export] Instance CutEvent_eq_dec : EqDecision CutEvent.
Proof. solve_decision. Defined.

(** [interface VideoConfig] *)
Record VideoConfig := mkConfig {
  removeCliches : bool;
  removeFillers : bool;
  removeSilence : bool;
  removeRepetition : bool;
  removeStuttering : bool;
  silenceThreshold : Q;
  customPhrases : list string;
  outputFormat : OutputFormat;
  outputQuality : OutputQuality
}.

(** [interface PhraseList] *)
Record PhraseList := mkPhraseList {
  pl_id : string;
  pl_name : string;
  phrases : list string
}.

(** [interface ProcessingMetrics] *)
Record ProcessingMetrics := mkMetrics {
  originalDuration : Q;
  finalDuration : Q;
  cutsCount : nat;
  timeSaved : Q
}.

(** A cut as the spec describes it: [0 <= start < end], confidence in
    [0, 1].  The code never checks it; [Analysis.v] shows which producers
    establish it. *)
Definition cut_wf (c : CutEvent) : Prop :=
  0 <= start c /\ start c < end_ c /\ 0 <= confidence c <= 1.

#[export] Instance cut_wf_dec c : Decision (cut_wf c).
Proof. unfold cut_wf. apply _. Defined.

Definition is_accepted (c : CutEvent) : bool :=
  bool_decide (status c = accepted).

(** [{ ...c, status }] *)
Definition set_status (st : Status) (c : CutEvent) : CutEvent :=
  mkCut (id c) (type c) (word c) (start c) (end_ c) (confidence c) st.

(** [toggleCutStatus] (ReviewPhase.tsx): the state update
    [prev.map(c => c.id === id ? { ...c, status } : c)]. *)
Definition toggleCutStatus (cid : string) (st : Status) (cuts : list CutEvent)
    : list CutEvent :=
  map (fun c => if String.eqb (id c) cid then set_status st c else c) cuts.

Lemma set_status_fields st c :
  id (set_status st c) = id c /\ start (set_status st c) = start c /\
  end_ (set_status st c) = end_ c /\ status (set_status st c) = st.
Proof. done. Qed.

Lemma set_status_wf st c : cut_wf (set_status st c) <-> cut_wf c.
Proof. done. Qed.

Lemma toggleCutStatus_length cid st cuts :
  length (toggleCutStatus cid st cuts) = length cuts.
Proof. apply length_map. Qed.

#[export] Hint Resolve toggleCutStatus_length : cc.
