(* ===== verification/Format.v ===== *)
(** JavaScript number formatting as the screens use it: division with its
    IEEE results, the remainder [%], [Math.floor], [Number.prototype.toString]
    on integers, [String.prototype.padStart], [Number.prototype.toFixed] and
    [parseFloat], and the two time formatters of [ReviewPhase.tsx]
    ([formatTime] and [formatTimeExact], lines 151-163).

    A JS number is a rational [Fin q], [NaN] or an infinity.  Printing is
    exact where the ECMAScript algorithms are exact on the value: [toFixed]
    below 10^21 (above, it falls back to exponent notation, which the model
    answers with [None]), and [toString] on integers up to 2^53 (above, the
    double printed is not the integer the model computes; [None]). *)

From stdpp Require Import pretty.
From Stdlib Require Import Ascii.
From S2P Require Import Prelude.

Module Format.

(** ** JS numbers *)

Inductive num := Fin (q : Q) | NaN | PosInf | NegInf.

(** [a / b]; a zero divisor gives NaN or the infinity of [a]'s sign (the
    divisors of the program are durations, never [-0]). *)
Definition div (a b : Q) : num :=
  if decide (b == 0) then
    (if decide (a == 0) then NaN else if a <? 0 then NegInf else PosInf)
  else Fin (a / b).

(** [x * k] for a finite [k]. *)
Definition mulq (x : num) (k : Q) : num :=
  match x with
  | Fin q => Fin (q * k)
  | NaN => NaN
  | PosInf => if decide (k == 0) then NaN else if k <? 0 then NegInf else PosInf
  | NegInf => if decide (k == 0) then NaN else if k <? 0 then PosInf else NegInf
  end.

(** The integer part towards zero, which [%] uses. *)
Definition qtrunc (q : Q) : Z := if 0 <=? q then Qfloor q else Qceiling q.

(** [x % y] (ECMAScript Number::remainder): the result has the sign of
    [x]; [y] is a non-zero constant at every use. *)
Definition rem (x y : Q) : Q := x - y * inject_Z (qtrunc (x / y)).

(** ** Printing *)

(** [String(z)] for an integral number [z]. *)
Definition int_to_string (z : Z) : option string :=
  if bool_decide (Z.abs z <= 2 ^ 53)%Z then Some (pretty z) else None.

Fixpoint rep (n : nat) (c : ascii) : string :=
  match n with O => EmptyString | S k => String c (rep k c) end.

(** [s.padStart(n, c)] with a one-character fill. *)
Definition padStart (n : nat) (c : ascii) (s : string) : string :=
  if decide (n <= String.length s)%nat then s else rep (n - String.length s) c +:+ s.

(** ** Parsing decimal digits back *)

Definition digit_val (c : ascii) : option N :=
  let n := N_of_ascii c in
  if decide (48 <= n < 58)%N then Some (n - 48)%N else None.

(** The longest prefix of decimal digits, read into [acc]. *)
Fixpoint digits_go (s : string) (acc : N) : N * string :=
  match s with
  | EmptyString => (acc, EmptyString)
  | String c s' =>
      match digit_val c with
      | Some d => digits_go s' (acc * 10 + d)%N
      | None => (acc, s)
      end
  end.

Definition starts_with_digit (s : string) : bool :=
  match s with String c _ => bool_decide (is_Some (digit_val c)) | EmptyString => false end.

(** Exactly [w] decimal digits, read into [acc]. *)
Fixpoint fixed_digits (w : nat) (s : string) (acc : N) : option (N * string) :=
  match w, s with
  | O, _ => Some (acc, s)
  | S w', String c s' => d ← digit_val c; fixed_digits w' s' (acc * 10 + d)%N
  | S _, EmptyString => None
  end.

(** Every character is a decimal digit. *)
Fixpoint all_digits (s : string) : bool :=
  match s with
  | EmptyString => true
  | String c s' => bool_decide (is_Some (digit_val c)) && all_digits s'
  end.

(** A clock reading [m:ss]: at least one digit, a colon, two digits. *)
Definition parse_time (str : string) : option (N * N) :=
  if starts_with_digit str then
    match digits_go str 0 with
    | (m, String ":" r) =>
        match fixed_digits 2 r 0 with
        | Some (sec, EmptyString) => Some (m, sec)
        | _ => None
        end
    | _ => None
    end
  else None.

(** A reading [m:ss:mmm]. *)
Definition parse_time_exact (str : string) : option (N * N * N) :=
  if starts_with_digit str then
    match digits_go str 0 with
    | (m, String ":" r) =>
        match fixed_digits 2 r 0 with
        | Some (sec, String ":" r') =>
            match fixed_digits 3 r' 0 with
            | Some (ms, EmptyString) => Some (m, sec, ms)
            | _ => None
            end
        | _ => None
        end
    | _ => None
    end
  else None.

(** ** [formatTime] and [formatTimeExact] (ReviewPhase, lines 151-163) *)

(** [`${Math.floor(seconds / 60)}:${Math.floor(seconds % 60).toString().padStart(2, '0')}`] *)
Definition formatTime (seconds : Q) : option string :=
  let mins := Qfloor (seconds / 60) in
  let secs := Qfloor (rem seconds 60) in
  m ← int_to_string mins; s ← int_to_string secs;
  Some (m +:+ ":" +:+ padStart 2 "0" s).

(** The same with [Math.floor((seconds % 1) * 1000)] milliseconds after a
    second colon. *)
Definition formatTimeExact (seconds : Q) : option string :=
  let mins := Qfloor (seconds / 60) in
  let secs := Qfloor (rem seconds 60) in
  let ms := Qfloor (rem seconds 1 * 1000) in
  m ← int_to_string mins; s ← int_to_string secs; x ← int_to_string ms;
  Some (m +:+ ":" +:+ padStart 2 "0" s +:+ ":" +:+ padStart 3 "0" x).

(** ** [Number.prototype.toFixed] *)

(** The digits of [n] with a point before the last [f] of them, zeros
    prepended when [n] has at most [f] digits (ECMAScript 21.1.3.3,
    steps 10-11). *)
Definition fixed_digits_string (f : nat) (n : N) : string :=
  let m := pretty n in
  match f with
  | O => m
  | S _ =>
      let m := padStart (f + 1) "0" m in
      let k := String.length m in
      String.substring 0 (k - f) m +:+ "." +:+ String.substring (k - f) f m
  end.

(** The integer [n] closest to [a * 10^f], the larger one on a tie. *)
Definition fixed_n (f : nat) (a : Q) : N := Z.to_N (Qfloor (a * inject_Z (10 ^ Z.of_nat f) + (1 # 2))).

(** [x.toFixed(f)]: NaN and the infinities print as [ToString] does; a
    finite [x] of magnitude at least 10^21 prints in exponent notation,
    which the model does not produce ([None]). *)
Definition toFixed (f : nat) (x : num) : option string :=
  match x with
  | NaN => Some "NaN"
  | PosInf => Some "Infinity"
  | NegInf => Some "-Infinity"
  | Fin q =>
      let s := if q <? 0 then "-" else EmptyString in
      let a := Qabs q in
      if inject_Z (10 ^ 21) <=? a then None
      else Some (s +:+ fixed_digits_string f (fixed_n f a))
  end.

(** ** [parseFloat] *)

Fixpoint drop_ws (s : string) : string :=
  match s with
  | String c s' => if Ascii.is_space c then drop_ws s' else s
  | EmptyString => EmptyString
  end.

(** The number of leading decimal digits. *)
Fixpoint lead_digits (s : string) : nat :=
  match s with
  | String c s' => match digit_val c with Some _ => S (lead_digits s') | None => O end
  | EmptyString => O
  end.

(** An optional exponent part [e(+|-)?digits] of a decimal literal. *)
Definition exponent (s : string) : Z :=
  let digits r := if bool_decide (lead_digits r = O) then None else Some (Z.of_N (digits_go r 0).1) in
  match s with
  | String c r =>
      if bool_decide (c = "e"%char \/ c = "E"%char) then
        match r with
        | String "+" r' => default 0%Z (digits r')
        | String "-" r' => default 0%Z (Z.opp <$> digits r')
        | _ => default 0%Z (digits r)
        end
      else 0%Z
  | EmptyString => 0%Z
  end.

Definition pow10 (e : Z) : Q := if bool_decide (0 <= e)%Z then inject_Z (10 ^ e) else / inject_Z (10 ^ (- e)).

(** The longest prefix of [s] that is an unsigned decimal literal. *)
Definition decimal (s : string) : option Q :=
  let i := lead_digits s in
  let '(ip, r) := digits_go s 0 in
  match r with
  | String "." r' =>
      let j := lead_digits r' in
      if bool_decide (i = O /\ j = O) then None
      else
        let '(fp, r'') := digits_go r' 0 in
        Some ((inject_Z (Z.of_N ip) + inject_Z (Z.of_N fp) / inject_Z (10 ^ Z.of_nat j)) * pow10 (exponent r''))
  | _ => if bool_decide (i = O) then None else Some (inject_Z (Z.of_N ip) * pow10 (exponent r))
  end.

(** [parseFloat(str)]: leading white space, a sign, then [Infinity] or the
    longest decimal literal; [NaN] when there is none. *)
Definition parseFloat (str : string) : num :=
  let s := drop_ws str in
  let '(neg, s1) := match s with
                    | String "-" r => (true, r)
                    | String "+" r => (false, r)
                    | _ => (false, s)
                    end in
  if String.prefix "Infinity" s1 then (if neg then NegInf else PosInf)
  else match decimal s1 with
       | None => NaN
       | Some v => Fin (if neg then - v else v)
       end.

(** ** Lemmas on printing and reading back decimal digits *)

Lemma string_app_cons x (a b : string) : String x a +:+ b = String x (a +:+ b).
Proof. reflexivity. Qed.

Lemma string_app_nil_l (a : string) : EmptyString +:+ a = a.
Proof. reflexivity. Qed.

Lemma string_app_assoc (a b c : string) : (a +:+ b) +:+ c = a +:+ (b +:+ c).
Proof. induction a as [|x a IH]; [done|]. rewrite !string_app_cons. congruence. Qed.

Lemma string_app_nil (a : string) : a +:+ EmptyString = a.
Proof. induction a as [|x a IH]; [done|]. rewrite string_app_cons. congruence. Qed.

Lemma digit_val_char x : (x < 10)%N -> digit_val (pretty_N_char x) = Some x.
Proof.
  intros Hlt.
  assert (x = 0 \/ x = 1 \/ x = 2 \/ x = 3 \/ x = 4 \/ x = 5 \/ x = 6 \/ x = 7 \/ x = 8 \/ x = 9)%N
    as Hx by lia.
  repeat destruct Hx as [-> | Hx]; [..| subst]; reflexivity.
Qed.

Lemma pretty_N_go_app x s : pretty_N_go x s = pretty_N_go x EmptyString +:+ s.
Proof.
  revert s. induction (N.lt_wf_0 x) as [x _ IH]; intros s.
  destruct (decide (x = 0%N)) as [->|Hx]; [done|].
  rewrite !(pretty_N_go_step x) by lia.
  assert (Hd : (x `div` 10 < x)%N) by (apply N.div_lt; lia).
  rewrite (IH _ Hd (String _ s)), (IH _ Hd (String _ EmptyString)).
  by rewrite string_app_assoc.
Qed.

(** Reading the digits [pretty_N_go] writes gives back the number. *)
Lemma digits_go_pretty x s acc :
  exists k, digits_go (pretty_N_go x s) acc = digits_go s (acc * 10 ^ k + x)%N.
Proof.
  revert s acc. induction (N.lt_wf_0 x) as [x _ IH]; intros s acc.
  destruct (decide (x = 0%N)) as [->|Hx].
  - exists 0%N. rewrite pretty_N_go_0. f_equal. lia.
  - rewrite pretty_N_go_step by lia.
    assert (Hd : (x `div` 10 < x)%N) by (apply N.div_lt; lia).
    destruct (IH _ Hd (String (pretty_N_char (x `mod` 10)) s) acc) as [k Hk].
    exists (k + 1)%N. rewrite Hk. cbn [digits_go].
    rewrite digit_val_char by (apply N.mod_lt; lia). f_equal.
    rewrite N.pow_add_r. pose proof (N.div_mod x 10 ltac:(lia)) as E.
    remember (x `div` 10)%N as q. remember (x `mod` 10)%N as r. rewrite E. nia.
Qed.

Lemma digits_go_stop s acc : starts_with_digit s = false -> digits_go s acc = (acc, s).
Proof.
  destruct s as [|c s]; cbn; [done|].
  destruct (digit_val c); [by rewrite bool_decide_true | done].
Qed.

Lemma digits_go_zeros k s acc : digits_go (rep k "0" +:+ s) acc = digits_go s (acc * 10 ^ N.of_nat k)%N.
Proof.
  revert acc. induction k as [|k IH]; intros acc.
  - change (rep 0 "0" +:+ s) with s. f_equal. lia.
  - change (rep (S k) "0" +:+ s) with (String "0" (rep k "0" +:+ s)).
    cbn [digits_go]. replace (digit_val "0") with (Some 0%N) by reflexivity.
    rewrite IH. f_equal. rewrite Nat2N.inj_succ, N.pow_succ_r'. lia.
Qed.

(** [String(n)] followed by a non-digit reads back as [n]. *)
Lemma digits_go_pretty_N (n : N) s :
  starts_with_digit s = false -> digits_go (pretty n +:+ s) 0 = (n, s).
Proof.
  intros Hs. cbv [pretty pretty_N]. destruct (decide (n = 0%N)) as [->|Hn].
  - change ("0" +:+ s) with (String "0" s). cbn [digits_go].
    replace (digit_val "0") with (Some 0%N) by reflexivity. by rewrite digits_go_stop.
  - rewrite <- pretty_N_go_app. destruct (digits_go_pretty n s 0) as [k ->].
    by rewrite digits_go_stop.
Qed.

Lemma pretty_N_one (n : N) :
  (n < 10)%N -> pretty n = String (pretty_N_char n) EmptyString.
Proof.
  intros Hn. cbv [pretty pretty_N]. destruct (decide (n = 0%N)) as [->|Hn0]; [done|].
  rewrite pretty_N_go_step by lia. rewrite N.div_small, N.mod_small by lia. done.
Qed.

Lemma pretty_N_two (n : N) :
  (10 <= n < 100)%N ->
  pretty n = String (pretty_N_char (n `div` 10)) (String (pretty_N_char (n `mod` 10)) EmptyString).
Proof.
  intros Hn. cbv [pretty pretty_N]. rewrite decide_False by lia.
  assert (Hq : (1 <= n `div` 10 < 10)%N).
  { split; [apply N.div_le_lower_bound | apply N.Div0.div_lt_upper_bound]; lia. }
  rewrite pretty_N_go_step by lia. rewrite pretty_N_go_step by lia.
  rewrite (N.div_small (n `div` 10)), (N.mod_small (n `div` 10)) by lia. done.
Qed.

Lemma pretty_N_three (n : N) :
  (100 <= n < 1000)%N ->
  pretty n = String (pretty_N_char (n `div` 100))
               (String (pretty_N_char ((n `div` 10) `mod` 10)) (String (pretty_N_char (n `mod` 10)) EmptyString)).
Proof.
  intros Hn. cbv [pretty pretty_N]. rewrite decide_False by lia.
  assert (Hq : (10 <= n `div` 10 < 100)%N).
  { split; [apply N.div_le_lower_bound | apply N.Div0.div_lt_upper_bound]; lia. }
  assert (Hr : (1 <= (n `div` 10) `div` 10 < 10)%N).
  { split; [apply N.div_le_lower_bound | apply N.Div0.div_lt_upper_bound]; lia. }
  do 3 (rewrite pretty_N_go_step by lia).
  rewrite (N.div_small ((n `div` 10) `div` 10)), (N.mod_small ((n `div` 10) `div` 10)) by lia.
  rewrite N.Div0.div_div. done.
Qed.

Lemma starts_with_digit_pretty_go x s : x <> 0%N -> starts_with_digit (pretty_N_go x s) = true.
Proof.
  revert s. induction (N.lt_wf_0 x) as [x _ IH]; intros s Hx.
  rewrite pretty_N_go_step by lia.
  destruct (decide (x `div` 10 = 0)%N) as [->|Hd].
  - rewrite pretty_N_go_0. cbn. rewrite digit_val_char by (apply N.mod_lt; lia). done.
  - apply IH; [apply N.div_lt|]; lia.
Qed.

Lemma starts_with_digit_pretty (n : N) s : starts_with_digit (pretty n +:+ s) = true.
Proof.
  cbv [pretty pretty_N]. destruct (decide (n = 0%N)); [done|].
  rewrite <- pretty_N_go_app. by apply starts_with_digit_pretty_go.
Qed.

Lemma digit_val_zero : digit_val "0" = Some 0%N.
Proof. reflexivity. Qed.

Lemma padStart_short n c s :
  (String.length s < n)%nat -> padStart n c s = rep (n - String.length s) c +:+ s.
Proof. intros H. unfold padStart. by rewrite decide_False by lia. Qed.

Lemma padStart_long n c s : (n <= String.length s)%nat -> padStart n c s = s.
Proof. intros H. unfold padStart. by rewrite decide_True. Qed.

(** Unfold a padded literal of known length and read its digits. *)
Ltac read_digits :=
  first [rewrite padStart_short by (cbn; lia) | rewrite padStart_long by (cbn; lia)];
  cbn [String.length Nat.sub rep];
  repeat (rewrite string_app_cons || rewrite string_app_nil_l); cbn [fixed_digits];
  rewrite ?digit_val_zero, ?digit_val_char
    by (try apply N.mod_lt; try apply N.Div0.div_lt_upper_bound; lia);
  cbn; do 2 f_equal.

(** [padStart(2, '0')] of a number below 100 reads back as two digits. *)
Lemma fixed_digits_pad2 (n : N) rest acc :
  (n < 100)%N -> fixed_digits 2 (padStart 2 "0" (pretty n) +:+ rest) acc = Some (acc * 100 + n, rest)%N.
Proof.
  intros Hn. destruct (decide (n < 10)%N).
  - rewrite pretty_N_one by done. read_digits. lia.
  - rewrite pretty_N_two by lia. read_digits. pose proof (N.div_mod n 10 ltac:(lia)). lia.
Qed.

(** [padStart(3, '0')] of a number below 1000 reads back as three digits. *)
Lemma fixed_digits_pad3 (n : N) rest acc :
  (n < 1000)%N -> fixed_digits 3 (padStart 3 "0" (pretty n) +:+ rest) acc = Some (acc * 1000 + n, rest)%N.
Proof.
  intros Hn. destruct (decide (n < 10)%N); [|destruct (decide (n < 100)%N)].
  - rewrite pretty_N_one by done. read_digits. lia.
  - rewrite pretty_N_two by lia. read_digits. pose proof (N.div_mod n 10 ltac:(lia)). lia.
  - rewrite pretty_N_three by lia. read_digits.
    pose proof (N.div_mod n 10 ltac:(lia)). pose proof (N.div_mod (n `div` 10) 10 ltac:(lia)).
    assert (E : (n `div` 100 = (n `div` 10) `div` 10)%N) by (rewrite N.Div0.div_div; done).
    lia.
Qed.

(** ** Lemmas on the arithmetic of the formatters *)

Lemma qtrunc_nonneg q : 0 <= q -> qtrunc q = Qfloor q.
Proof. intros H. unfold qtrunc. by rewrite bool_decide_true. Qed.

(** On a non-negative time, [t % k] keeps the whole seconds modulo [k]. *)
Lemma rem_floor (t : Q) (k : Z) :
  0 <= t -> (0 < k)%Z -> Qfloor (rem t (inject_Z k)) = (Qfloor t mod k)%Z.
Proof.
  intros Ht Hk. assert (Hk' : 0 < inject_Z k) by (rewrite Zlt_Qlt in Hk; exact Hk).
  unfold rem. rewrite qtrunc_nonneg by (apply Qle_shift_div_l; lra).
  rewrite Qfloor_div, <- inject_Z_mult, Qfloor_sub_int by done.
  rewrite Z.mod_eq by lia. lia.
Qed.

Lemma rem_one (t : Q) : 0 <= t -> rem t 1 == t - inject_Z (Qfloor t).
Proof.
  intros Ht. assert (E : t / 1 == t) by field.
  unfold rem. rewrite qtrunc_nonneg by (rewrite E; done).
  rewrite (Qfloor_comp (t / 1) t E). ring.
Qed.

Lemma int_to_string_nonneg (z : Z) :
  (0 <= z <= 2 ^ 53)%Z -> int_to_string z = Some (pretty (Z.to_N z)).
Proof.
  intros Hz. unfold int_to_string. rewrite bool_decide_true by lia.
  destruct z; [done | done | lia].
Qed.

Lemma floor_below (t : Q) : 0 <= t < inject_Z (2 ^ 53) -> (0 <= Qfloor t < 2 ^ 53)%Z.
Proof. intros [H0 H1]. split; [by apply Qfloor_nonneg | by apply Qfloor_lt]. Qed.

Lemma colon_app (x : string) : ":" +:+ x = String ":" x.
Proof. reflexivity. Qed.

Lemma parse_time_print (m s : N) :
  (s < 100)%N -> parse_time (pretty m +:+ ":" +:+ padStart 2 "0" (pretty s)) = Some (m, s).
Proof.
  intros Hs. unfold parse_time. rewrite starts_with_digit_pretty, colon_app.
  rewrite digits_go_pretty_N by reflexivity.
  rewrite <- (string_app_nil (padStart 2 "0" (pretty s))), fixed_digits_pad2 by done. done.
Qed.

Lemma parse_time_exact_print (m s x : N) :
  (s < 100)%N -> (x < 1000)%N ->
  parse_time_exact (pretty m +:+ ":" +:+ padStart 2 "0" (pretty s) +:+ ":" +:+ padStart 3 "0" (pretty x))
  = Some (m, s, x).
Proof.
  intros Hs Hx. unfold parse_time_exact. rewrite starts_with_digit_pretty, !colon_app.
  rewrite digits_go_pretty_N by reflexivity. rewrite <- colon_app, fixed_digits_pad2 by done.
  rewrite colon_app, <- (string_app_nil (padStart 3 "0" (pretty x))), fixed_digits_pad3 by done. done.
Qed.

Lemma clock_fields (f : Z) :
  (0 <= f < 2 ^ 53)%Z -> (0 <= f / 60 <= 2 ^ 53)%Z /\ (0 <= f mod 60 < 60)%Z.
Proof.
  intros Hf. split; [split|apply Z.mod_pos_bound; lia].
  - apply Z.div_pos; lia.
  - apply Z.div_le_upper_bound; lia.
Qed.

(** What [formatTime] prints for a non-negative time. *)
Lemma formatTime_nonneg (t : Q) :
  0 <= t < inject_Z (2 ^ 53) ->
  formatTime t = Some (pretty (Z.to_N (Qfloor t / 60)) +:+ ":" +:+
                       padStart 2 "0" (pretty (Z.to_N (Qfloor t mod 60)))).
Proof.
  intros Ht. pose proof (floor_below t Ht). unfold formatTime.
  change (t / 60) with (t / inject_Z 60). change (rem t 60) with (rem t (inject_Z 60)).
  rewrite Qfloor_div, rem_floor by (lia || lra).
  destruct (clock_fields (Qfloor t)) as [B1 B2]; [lia|].
  rewrite !int_to_string_nonneg by lia. done.
Qed.

(** The milliseconds [Math.floor((t % 1) * 1000)] of a non-negative time. *)
Definition millis (t : Q) : Z := Qfloor ((t - inject_Z (Qfloor t)) * 1000).

Lemma millis_bounds t :
  (0 <= millis t < 1000)%Z /\
  inject_Z (millis t) <= (t - inject_Z (Qfloor t)) * 1000 < inject_Z (millis t) + 1.
Proof.
  pose proof (Qfloor_bounds t). pose proof (Qfloor_bounds ((t - inject_Z (Qfloor t)) * 1000)).
  unfold millis. split; [split|done].
  - apply Qfloor_nonneg. lra.
  - apply Qfloor_lt. change (inject_Z 1000) with 1000. lra.
Qed.

Lemma formatTimeExact_nonneg (t : Q) :
  0 <= t < inject_Z (2 ^ 53) ->
  formatTimeExact t = Some (pretty (Z.to_N (Qfloor t / 60)) +:+ ":" +:+
                            padStart 2 "0" (pretty (Z.to_N (Qfloor t mod 60))) +:+ ":" +:+
                            padStart 3 "0" (pretty (Z.to_N (millis t)))).
Proof.
  intros Ht. pose proof (floor_below t Ht). pose proof (millis_bounds t) as [Hm _].
  unfold formatTimeExact.
  change (t / 60) with (t / inject_Z 60). change (rem t 60) with (rem t (inject_Z 60)).
  rewrite Qfloor_div, rem_floor by (lia || lra).
  rewrite (Qfloor_comp (rem t 1 * 1000) ((t - inject_Z (Qfloor t)) * 1000))
    by (rewrite rem_one by lra; reflexivity).
  fold (millis t).
  destruct (clock_fields (Qfloor t)) as [B1 B2]; [lia|].
  rewrite !int_to_string_nonneg by lia. done.
Qed.

(** The clock arithmetic the readings satisfy. *)
Lemma clock_split (f : Z) :
  (0 <= f)%Z -> (Z.to_N (f mod 60) < 60)%N /\ Z.of_N (60 * Z.to_N (f / 60) + Z.to_N (f mod 60)) = f.
Proof.
  intros Hf. pose proof (Z.mod_pos_bound f 60 ltac:(lia)). pose proof (Z.div_pos f 60 Hf ltac:(lia)).
  pose proof (Z.div_mod f 60 ltac:(lia)). lia.
Qed.

(** [formatTime] of a time in [0, 2^53) prints a reading [m:ss]
    which reads back as the whole minutes and seconds of the time:
    [60 m + ss] is [Math.floor(t)] and [ss < 60]. *)
Theorem formatTime_roundtrip (t : Q) :
  0 <= t < inject_Z (2 ^ 53) ->
  exists str m s, formatTime t = Some str /\ parse_time str = Some (m, s) /\
    (s < 60)%N /\ Z.of_N (60 * m + s) = Qfloor t.
Proof.
  intros Ht. pose proof (floor_below t Ht) as Hf. destruct (clock_split (Qfloor t)) as [Hs Hsum]; [lia|].
  eexists _, _, _. split; [apply formatTime_nonneg, Ht|].
  split; [apply parse_time_print; lia|]. done.
Qed.

(** C17. [formatTimeExact] of a time in [0, 2^53) prints a reading
    [m:ss:mmm] which reads back as the time truncated to the millisecond:
    [60 m + ss + mmm/1000 <= t < 60 m + ss + (mmm+1)/1000]. *)
Theorem formatTimeExact_roundtrip (t : Q) :
  0 <= t < inject_Z (2 ^ 53) ->
  exists str m s ms, formatTimeExact t = Some str /\ parse_time_exact str = Some (m, s, ms) /\
    (s < 60)%N /\ (ms < 1000)%N /\
    inject_Z (Z.of_N (60 * m + s)) + inject_Z (Z.of_N ms) / 1000 <= t <
    inject_Z (Z.of_N (60 * m + s)) + inject_Z (Z.of_N ms + 1) / 1000.
Proof.
  intros Ht. pose proof (floor_below t Ht) as Hf. destruct (clock_split (Qfloor t)) as [Hs Hsum]; [lia|].
  destruct (millis_bounds t) as [Hm [Hm1 Hm2]].
  eexists _, _, _, _. split; [apply formatTimeExact_nonneg, Ht|].
  split; [apply parse_time_exact_print; lia|]. split; [done|]. split; [lia|].
  rewrite Hsum, Z2N.id by lia. rewrite inject_Z_plus. change (inject_Z 1) with 1.
  unfold Qdiv. change (/ 1000) with (1#1000). lra.
Qed.

(** ** Lemmas on digit strings, [substring] and [parseFloat] *)

Lemma string_length_app (a b : string) : String.length (a +:+ b) = (String.length a + String.length b)%nat.
Proof. induction a as [|c a IH]; [done|]. rewrite string_app_cons. cbn. by rewrite IH. Qed.

Lemma rep_length k c : String.length (rep k c) = k.
Proof. induction k; cbn; lia. Qed.

Lemma all_digits_app a b : all_digits (a +:+ b) = all_digits a && all_digits b.
Proof. induction a as [|c a IH]; [done|]. rewrite string_app_cons. cbn. rewrite IH. by destruct (bool_decide _). Qed.

Lemma digits_go_app a b acc :
  all_digits a = true -> digits_go (a +:+ b) acc = digits_go b (digits_go a acc).1.
Proof.
  revert acc. induction a as [|c a IH]; intros acc Ha; [done|].
  rewrite string_app_cons. cbn in Ha |- *. apply andb_prop in Ha as [Hc Ha].
  apply bool_decide_eq_true in Hc as [d ->]. by apply IH.
Qed.

Lemma digits_go_all a acc : all_digits a = true -> (digits_go a acc).2 = EmptyString.
Proof.
  revert acc. induction a as [|c a IH]; intros acc Ha; [done|].
  cbn in Ha |- *. apply andb_prop in Ha as [Hc Ha].
  apply bool_decide_eq_true in Hc as [d ->]. by apply IH.
Qed.

Lemma digits_go_acc a acc :
  all_digits a = true -> (digits_go a acc).1 = (acc * 10 ^ N.of_nat (String.length a) + (digits_go a 0).1)%N.
Proof.
  revert acc. induction a as [|c a IH]; intros acc Ha; [cbn; lia|].
  cbn in Ha |- *. apply andb_prop in Ha as [Hc Ha].
  apply bool_decide_eq_true in Hc as [d ->]. rewrite (IH _ Ha), (IH (0 * 10 + d)%N Ha).
  rewrite Nat2N.inj_succ, N.pow_succ_r'. lia.
Qed.

Lemma lead_digits_app a b : all_digits a = true -> lead_digits (a +:+ b) = (String.length a + lead_digits b)%nat.
Proof.
  induction a as [|c a IH]; intros Ha; [done|].
  rewrite string_app_cons. cbn in Ha |- *. apply andb_prop in Ha as [Hc Ha].
  apply bool_decide_eq_true in Hc as [d ->]. by rewrite IH.
Qed.

Lemma lead_digits_all a : all_digits a = true -> lead_digits a = String.length a.
Proof. intros Ha. rewrite <- (string_app_nil a), lead_digits_app, string_app_nil by done. cbn. lia. Qed.

Lemma all_digits_pretty_go x s : all_digits (pretty_N_go x s) = all_digits s.
Proof.
  revert s. induction (N.lt_wf_0 x) as [x _ IH]; intros s.
  destruct (decide (x = 0%N)) as [->|Hx]; [done|].
  rewrite pretty_N_go_step by lia. rewrite IH by (apply N.div_lt; lia).
  cbn. rewrite digit_val_char by (apply N.mod_lt; lia). done.
Qed.

Lemma all_digits_pretty (n : N) : all_digits (pretty n) = true.
Proof.
  cbv [pretty pretty_N]. destruct (decide (n = 0%N)); [done|]. by rewrite all_digits_pretty_go.
Qed.

Lemma digits_val_pretty (n : N) : (digits_go (pretty n) 0).1 = n.
Proof. rewrite <- (string_app_nil (pretty n)), digits_go_pretty_N; done. Qed.

Lemma all_digits_rep k : all_digits (rep k "0") = true.
Proof. induction k; [done|]. cbn. by rewrite IHk. Qed.

(** [padStart(w, '0')] of [String(n)]: digits only, of value [n], at
    least [w] of them. *)
Lemma padStart_digits w (n : N) :
  all_digits (padStart w "0" (pretty n)) = true /\
  (digits_go (padStart w "0" (pretty n)) 0).1 = n /\
  (w <= String.length (padStart w "0" (pretty n)))%nat.
Proof.
  unfold padStart. case_decide.
  - rewrite all_digits_pretty, digits_val_pretty. done.
  - rewrite all_digits_app, all_digits_rep, all_digits_pretty, string_length_app, rep_length.
    rewrite digits_go_app by apply all_digits_rep.
    rewrite <- (string_app_nil (rep _ "0")), digits_go_zeros. cbn [digits_go fst].
    rewrite N.mul_0_l, digits_val_pretty. split_and!; [done | done | lia].
Qed.

Lemma pretty_nonempty (n : N) : String.length (pretty n) <> O.
Proof.
  cbv [pretty pretty_N]. destruct (decide (n = 0%N)); [done|].
  rewrite pretty_N_go_step by lia. rewrite pretty_N_go_app, string_length_app. cbn. lia.
Qed.

Lemma substring_full s : String.substring 0 (String.length s) s = s.
Proof. induction s as [|c s IH]; [done|]. cbn. by rewrite IH. Qed.

(** [substring] cuts a string in two at [j]. *)
Lemma substring_split s j :
  (j <= String.length s)%nat ->
  String.substring 0 j s +:+ String.substring j (String.length s - j) s = s /\
  String.length (String.substring 0 j s) = j.
Proof.
  revert j. induction s as [|c s IH]; intros j Hj.
  - destruct j; [done | cbn in Hj; lia].
  - destruct j as [|j].
    + rewrite Nat.sub_0_r, substring_full. done.
    + cbn in Hj. destruct (IH j ltac:(lia)) as [H1 H2].
      cbn [String.substring String.length Nat.sub]. rewrite string_app_cons, H1. cbn. by rewrite H2.
Qed.

Lemma digit_not_space c : is_Some (digit_val c) -> Ascii.is_space c = false.
Proof. destruct c as [[] [] [] [] [] [] [] []]; vm_compute; try done; intros [? H]; discriminate. Qed.

Lemma prefix_infinity_digit c s : is_Some (digit_val c) -> String.prefix "Infinity" (String c s) = false.
Proof. destruct c as [[] [] [] [] [] [] [] []]; vm_compute; try done; intros [? H]; discriminate. Qed.

Lemma digit_val_point : digit_val "." = None.
Proof. reflexivity. Qed.

(** What [parseFloat] reads from an optionally signed digit string with
    an optional fraction, followed by nothing. *)
Lemma parseFloat_digits (neg : bool) (a : string) (tail : string) (v : Q) :
  all_digits a = true -> a <> EmptyString -> decimal (a +:+ tail) = Some v ->
  parseFloat ((if neg then "-" else EmptyString) +:+ a +:+ tail) = Fin (if neg then - v else v).
Proof.
  intros Ha Hne Hd. destruct a as [|c a]; [done|].
  assert (Hc : is_Some (digit_val c)) by (cbn in Ha; apply andb_prop in Ha as [Hc _]; by apply bool_decide_eq_true in Hc).
  unfold parseFloat. destruct neg.
  - change ("-" +:+ String c a +:+ tail) with (String "-" (String c (a +:+ tail))).
    cbn [drop_ws]. change (Ascii.is_space "-") with false. cbv iota beta.
    rewrite prefix_infinity_digit by done.
    change (String c (a +:+ tail)) with (String c a +:+ tail). by rewrite Hd.
  - change (EmptyString +:+ String c a +:+ tail) with (String c (a +:+ tail)).
    cbn [drop_ws]. rewrite digit_not_space by done.
    assert (Hm : match String c (a +:+ tail) with
                 | String "-" r => (true, r) | String "+" r => (false, r)
                 | _ => (false, String c (a +:+ tail)) end = (false, String c (a +:+ tail))).
    { destruct Hc as [d Hd']. destruct c as [[] [] [] [] [] [] [] []]; vm_compute in Hd'; try discriminate; done. }
    rewrite Hm. cbv iota beta. rewrite prefix_infinity_digit by done.
    change (String c (a +:+ tail)) with (String c a +:+ tail). by rewrite Hd.
Qed.

Lemma digits_go_split a acc :
  all_digits a = true -> digits_go a acc = ((digits_go a acc).1, EmptyString).
Proof. intros Ha. rewrite (surjective_pairing (digits_go a acc)) at 1. by rewrite digits_go_all. Qed.

Lemma decimal_int a :
  all_digits a = true -> a <> EmptyString ->
  exists v, decimal (a +:+ EmptyString) = Some v /\ v == inject_Z (Z.of_N (digits_go a 0).1).
Proof.
  intros Ha Hne. rewrite string_app_nil. unfold decimal.
  rewrite lead_digits_all, digits_go_split by done.
  rewrite bool_decide_false by (destruct a; cbn; [done | lia]).
  eexists. split; [reflexivity|]. cbn [fst]. change (pow10 (exponent EmptyString)) with 1. ring.
Qed.

Lemma decimal_point a b :
  all_digits a = true -> all_digits b = true -> a <> EmptyString -> b <> EmptyString ->
  exists v, decimal (a +:+ "." +:+ b) = Some v /\
    v == inject_Z (Z.of_N (digits_go a 0).1) +
         inject_Z (Z.of_N (digits_go b 0).1) / inject_Z (10 ^ Z.of_nat (String.length b)).
Proof.
  intros Ha Hb Hna Hnb. unfold decimal.
  rewrite lead_digits_app, digits_go_app by done.
  change ("." +:+ b) with (String "." b). cbn [digits_go lead_digits]. rewrite !digit_val_point.
  cbv iota. rewrite lead_digits_all, digits_go_split by done.
  rewrite bool_decide_false by (intros [E1 E2]; destruct a; [done | cbn in E1; lia]).
  eexists. split; [reflexivity|]. cbn [fst]. change (pow10 (exponent EmptyString)) with 1. ring.
Qed.

(** [n / 10^f] as a rational. *)
Definition scaled (f : nat) (n : N) : Q := inject_Z (Z.of_N n) / inject_Z (10 ^ Z.of_nat f).

Lemma pow10_pos f : 0 < inject_Z (10 ^ Z.of_nat f).
Proof. change 0 with (inject_Z 0). rewrite <- Zlt_Qlt. apply Z.pow_pos_nonneg; lia. Qed.

(** [parseFloat] reads back the digits [toFixed] writes. *)
Lemma parseFloat_fixed (neg : bool) f (n : N) :
  exists v, parseFloat ((if neg then "-" else EmptyString) +:+ fixed_digits_string f n) = Fin v /\
    v == (if neg then - scaled f n else scaled f n).
Proof.
  unfold fixed_digits_string. cbv zeta. destruct f as [|f'].
  - assert (Hne : pretty n <> EmptyString).
    { intros E. pose proof (pretty_nonempty n) as H. rewrite E in H. by apply H. }
    destruct (decimal_int (pretty n)) as [v [Hd Hv]]; [apply all_digits_pretty | done |].
    assert (E : (if neg then "-" else EmptyString) +:+ pretty n =
                (if neg then "-" else EmptyString) +:+ pretty n +:+ EmptyString) by (by rewrite string_app_nil).
    rewrite E, (parseFloat_digits neg _ _ v); [|apply all_digits_pretty|done|done].
    eexists; split; [reflexivity|]. rewrite digits_val_pretty in Hv. unfold scaled.
    change (inject_Z (10 ^ Z.of_nat 0)) with 1. destruct neg; rewrite Hv; field.
  - set (f := S f'). set (m := padStart (f + 1) "0" (pretty n)).
    destruct (padStart_digits (f + 1) n) as (Hm & Hval & Hlen). fold m in Hm, Hval, Hlen.
    destruct (substring_split m (String.length m - f) ltac:(lia)) as [Hsplit Hla].
    replace (String.length m - (String.length m - f))%nat with f in Hsplit by lia.
    set (a := String.substring 0 (String.length m - f) m) in *.
    set (b := String.substring (String.length m - f) f m) in *.
    rewrite <- Hsplit in Hm, Hval. rewrite all_digits_app in Hm. apply andb_prop in Hm as [Ha Hb].
    assert (Hlb : String.length b = f).
    { pose proof (f_equal String.length Hsplit) as E. rewrite string_length_app in E. lia. }
    assert (Hna : a <> EmptyString) by (intros E; rewrite E in Hla; cbn in Hla; lia).
    assert (Hnb : b <> EmptyString) by (intros E; rewrite E in Hlb; cbn in Hlb; lia).
    destruct (decimal_point a b Ha Hb Hna Hnb) as [v [Hd Hv]].
    rewrite (parseFloat_digits neg a _ v Ha Hna Hd). eexists; split; [reflexivity|].
    rewrite digits_go_app, digits_go_acc in Hval by done. rewrite Hlb in Hval, Hv.
    assert (Hz : Z.of_N n = (Z.of_N (digits_go a 0).1 * 10 ^ Z.of_nat f + Z.of_N (digits_go b 0).1)%Z).
    { rewrite <- Hval, N2Z.inj_add, N2Z.inj_mul, N2Z.inj_pow, nat_N_Z. done. }
    assert (Hn : inject_Z (Z.of_N n) ==
                 inject_Z (Z.of_N (digits_go a 0).1) * inject_Z (10 ^ Z.of_nat f) + inject_Z (Z.of_N (digits_go b 0).1))
      by (rewrite Hz, inject_Z_plus, inject_Z_mult; reflexivity).
    pose proof (pow10_pos f). unfold scaled. destruct neg; rewrite Hv, Hn; field; lra.
Qed.

Lemma fixed_n_bounds f a :
  0 <= a ->
  inject_Z (Z.of_N (fixed_n f a)) <= a * inject_Z (10 ^ Z.of_nat f) + (1 # 2) <
  inject_Z (Z.of_N (fixed_n f a)) + 1.
Proof.
  intros Ha. pose proof (pow10_pos f).
  assert (H0 : 0 <= a * inject_Z (10 ^ Z.of_nat f) + (1 # 2)).
  { pose proof (Qmult_le_0_compat a _ Ha (Qlt_le_weak _ _ H)). lra. }
  unfold fixed_n. rewrite Z2N.id by (apply Qfloor_nonneg; done). apply Qfloor_bounds.
Qed.

Lemma fixed_n_comp f a b : a == b -> fixed_n f a = fixed_n f b.
Proof. intros E. unfold fixed_n. f_equal. apply Qfloor_comp. by rewrite E. Qed.

Lemma scaled_mul f n : scaled f n * inject_Z (10 ^ Z.of_nat f) == inject_Z (Z.of_N n).
Proof. pose proof (pow10_pos f). unfold scaled. field. lra. Qed.

Lemma toFixed_fin_some f q : Qabs q < inject_Z (10 ^ 21) -> is_Some (toFixed f (Fin q)).
Proof. intros H. unfold toFixed. rewrite bool_decide_false by lra. by eexists. Qed.

(** What [parseFloat(x.toFixed(f))] returns: [|x|] rounded half up to
    [f] decimals, with the sign of [x]. *)
Lemma toFixed_parse_scaled f x :
  Qabs x < inject_Z (10 ^ 21) ->
  exists s v, toFixed f (Fin x) = Some s /\ parseFloat s = Fin v /\
    v == (if bool_decide (x < 0) then - scaled f (fixed_n f (Qabs x)) else scaled f (fixed_n f (Qabs x))).
Proof.
  intros Hx. unfold toFixed. rewrite bool_decide_false by lra.
  destruct (parseFloat_fixed (bool_decide (x < 0)) f (fixed_n f (Qabs x))) as [v [Hp Hv]].
  eexists _, v. split; [reflexivity|]. done.
Qed.

(** ** Negative times *)

(** [%] keeps the sign of the dividend and [Math.floor] rounds down, so a
    negative time prints a minus sign in every field. *)
Lemma formatTime_negative :
  formatTime (-(1#2)) = Some "-1:-1" /\ formatTimeExact (-(1#2)) = Some "-1:-1:-500" /\
  formatTimeExact (-1) = Some "-1:-1:000".
Proof. vm_compute. split_and!; reflexivity. Qed.

(** ** Witnesses *)

Lemma formatTime_roundtrip_witness :
  exists str m s, formatTime (835#10) = Some str /\ parse_time str = Some (m, s) /\
    (s < 60)%N /\ Z.of_N (60 * m + s) = Qfloor (835#10).
Proof. apply formatTime_roundtrip. split; decide_concrete. Defined.

Lemma formatTimeExact_roundtrip_witness :
  exists str m s ms, formatTimeExact (83456#1000) = Some str /\
    parse_time_exact str = Some (m, s, ms) /\ (s < 60)%N /\ (ms < 1000)%N /\
    inject_Z (Z.of_N (60 * m + s)) + inject_Z (Z.of_N ms) / 1000 <= 83456#1000 <
    inject_Z (Z.of_N (60 * m + s)) + inject_Z (Z.of_N ms + 1) / 1000.
Proof. apply formatTimeExact_roundtrip. split; decide_concrete. Defined.

End Format.
