(* ===== verification/SkipPolicy.v ===== *)
(** The skip-policy evaluators of [ReviewPhase.tsx]: the four [cuts.find]
    predicates of [checkTime] (lines 82, 93-97, 106) and [handleScrubMove]
    (line 181), the jump target of [checkTime] (line 103), the iteration of
    jumps over successive frames, and the spec's alternative tie-break
    (latest end).  Both rules land on the same point, the least uncovered
    time after the play-head: [skip_chain_equiv]. *)

From S2P Require Import Prelude Types.

Module Skip.

(** [c.status === 'accepted' && time >= c.start && time < c.end] *)
Definition in_accepted_cut (time : Q) (c : CutEvent) : bool :=
  is_accepted c && (start c <=? time) && (time <? end_ c).

(** [cuts.find(...)] of the standard branch of [checkTime]. *)
Definition currentCut (cuts : list CutEvent) (time : Q) : option CutEvent :=
  find (in_accepted_cut time) cuts.

(** [Math.abs(c.start - time) < 2]: the "upcoming" highlight. *)
Definition near_cut (time : Q) (c : CutEvent) : bool :=
  Qabs (start c - time) <? 2.

Definition upcomingCut (cuts : list CutEvent) (time : Q) : option CutEvent :=
  find (near_cut time) cuts.

(** [time >= (c.start - 1.5) && time <= (c.end + 1.5)]: highlight while a
    segment preview runs. *)
Definition preview_window (time : Q) (c : CutEvent) : bool :=
  (start c - (3#2) <=? time) && (time <=? end_ c + (3#2)).

Definition previewCutAt (cuts : list CutEvent) (time : Q) : option CutEvent :=
  find (preview_window time) cuts.

(** [newTime >= c.start && newTime < c.end]: the cut under the pointer
    while scrubbing, whatever its status. *)
Definition cut_at (time : Q) (c : CutEvent) : bool :=
  (start c <=? time) && (time <? end_ c).

Definition cutAtTime (cuts : list CutEvent) (time : Q) : option CutEvent :=
  find (cut_at time) cuts.

(** The position is inside some accepted cut. *)
Definition covered (cuts : list CutEvent) (x : Q) : Prop :=
  exists c, c ∈ cuts /\ in_accepted_cut x c = true.

(** A jump rule: given the play-head, the accepted cut to jump past. *)
Definition policy := Q -> option CutEvent.

(** The play-head after at most [fuel] frames with no playback in between:
    each frame that finds a cut seeks to its end ([currentTime = c.end]). *)
Fixpoint skip_chain (pol : policy) (fuel : nat) (t : Q) : Q :=
  match fuel with
  | O => t
  | S f => match pol t with
           | Some c => skip_chain pol f (end_ c)
           | None => t
           end
  end.

(** The spec's rule (spec 4.3): among the accepted cuts containing the
    play-head, the one with the latest end. *)
Definition latest_step (t : Q) (c : CutEvent) (acc : option CutEvent)
    : option CutEvent :=
  if in_accepted_cut t c then
    match acc with
    | Some d => if end_ d <? end_ c then Some c else Some d
    | None => Some c
    end
  else acc.

Definition latestCut (cuts : list CutEvent) (t : Q) : option CutEvent :=
  fold_right (latest_step t) None cuts.

(** The number of accepted cuts still ahead of [t]: the measure that
    bounds the number of jumps. *)
Definition pending (cuts : list CutEvent) (t : Q) : nat :=
  length (List.filter (fun c => is_accepted c && (t <? end_ c)) cuts).

Definition accepted_count (cuts : list CutEvent) : nat :=
  length (List.filter is_accepted cuts).

(** ** Lemmas *)

Lemma in_accepted_cut_spec t c :
  in_accepted_cut t c = true <-> status c = accepted /\ start c <= t < end_ c.
Proof.
  unfold in_accepted_cut, is_accepted.
  rewrite !andb_true_iff, !bool_decide_eq_true. tauto.
Qed.

Lemma not_in_accepted_cut t c :
  in_accepted_cut t c = false -> ~ (status c = accepted /\ start c <= t < end_ c).
Proof. intros H Hc. apply in_accepted_cut_spec in Hc. congruence. Qed.

Lemma currentCut_some cuts t c :
  currentCut cuts t = Some c ->
  c ∈ cuts /\ status c = accepted /\ start c <= t < end_ c.
Proof.
  intros H. apply find_some_in in H as [Hin Hc].
  apply in_accepted_cut_spec in Hc. tauto.
Qed.

Lemma currentCut_none cuts t : currentCut cuts t = None <-> ~ covered cuts t.
Proof.
  unfold currentCut, covered. rewrite find_none_iff, Forall_forall.
  split.
  - intros H (c & Hc & Hin). rewrite H in Hin; [discriminate | exact Hc].
  - intros H c Hc. destruct (in_accepted_cut t c) eqn:E; [|done].
    exfalso. apply H. exists c. split; [exact Hc | exact E].
Qed.

Lemma latestCut_some cuts t c :
  latestCut cuts t = Some c -> c ∈ cuts /\ in_accepted_cut t c = true.
Proof.
  revert c. induction cuts as [|a l IH]; intros c; simpl; [discriminate|].
  unfold latest_step. destruct (in_accepted_cut t a) eqn:Ha.
  - destruct (latestCut l t) as [d|] eqn:Hd.
    + destruct (IH d eq_refl) as [Hdin Hdt].
      case_bool_decide; intros [= <-]; split; auto; set_solver.
    + intros [= <-]. split; [set_solver | exact Ha].
  - intros Hl. destruct (IH c Hl). split; [set_solver | done].
Qed.

Lemma latestCut_none cuts t : latestCut cuts t = None <-> ~ covered cuts t.
Proof.
  induction cuts as [|a l IH].
  - split; [intros _ (c & Hc & _); set_solver | done].
  - change (latestCut (a :: l) t) with (latest_step t a (latestCut l t)).
    unfold latest_step. destruct (in_accepted_cut t a) eqn:Ha.
    + split; [destruct (latestCut l t); [case_bool_decide|]; discriminate|].
      intros H. exfalso. apply H. exists a. split; [set_solver | exact Ha].
    + rewrite IH. unfold covered.
      split; intros H (c & Hc & Hin); apply H; exists c.
      * apply elem_of_cons in Hc as [->|Hc]; [congruence | auto].
      * split; [set_solver | done].
Qed.

(** The latest-end rule picks a cut whose end is the largest among the
    accepted cuts containing [t]. *)
Lemma latestCut_latest cuts t c d :
  latestCut cuts t = Some c -> d ∈ cuts -> in_accepted_cut t d = true ->
  end_ d <= end_ c.
Proof.
  revert c. induction cuts as [|a l IH]; intros c; simpl; [discriminate|].
  intros Hl Hd Hdt. unfold latest_step in Hl.
  destruct (in_accepted_cut t a) eqn:Ha.
  - apply elem_of_cons in Hd as [->|Hd].
    + destruct (latestCut l t) as [e|]; [|injection Hl as <-; lra].
      case_bool_decide; injection Hl as <-; lra.
    + destruct (latestCut l t) as [e|] eqn:He.
      * pose proof (IH e eq_refl Hd Hdt).
        case_bool_decide; injection Hl as <-; lra.
      * exfalso. apply latestCut_none in He. apply He. exists d. auto.
  - apply elem_of_cons in Hd as [->|Hd]; [congruence|]. eauto.
Qed.

Lemma filter_length_le {A} (f g : A -> bool) (l : list A) :
  (forall x, x ∈ l -> g x = true -> f x = true) ->
  (length (List.filter g l) <= length (List.filter f l))%nat.
Proof.
  induction l as [|a l IH]; intros H; simpl; [lia|].
  assert (Hl : forall x, x ∈ l -> g x = true -> f x = true)
    by (intros x Hx; apply H; set_solver).
  specialize (IH Hl). specialize (H a ltac:(set_solver)).
  simpl. destruct (g a) eqn:Hg, (f a) eqn:Hf; simpl; lia.
Qed.

Lemma filter_length_lt {A} (f g : A -> bool) (l : list A) (y : A) :
  (forall x, x ∈ l -> g x = true -> f x = true) ->
  y ∈ l -> f y = true -> g y = false ->
  (length (List.filter g l) < length (List.filter f l))%nat.
Proof.
  induction l as [|a l IH]; intros H Hy Hfy Hgy; [set_solver|].
  assert (Hl : forall x, x ∈ l -> g x = true -> f x = true)
    by (intros x Hx; apply H; set_solver).
  simpl. apply elem_of_cons in Hy as [->|Hy].
  - rewrite Hfy, Hgy. simpl. pose proof (filter_length_le f g l Hl). lia.
  - specialize (IH Hl Hy Hfy Hgy). specialize (H a ltac:(set_solver)).
    simpl. destruct (g a) eqn:Hg, (f a) eqn:Hf; simpl; lia.
Qed.

Lemma pending_le_accepted cuts t : (pending cuts t <= accepted_count cuts)%nat.
Proof.
  apply filter_length_le. intros c _ H. apply andb_true_iff in H. tauto.
Qed.

(** ** Any rule that jumps past a containing accepted cut *)

Section Chain.
Variable cuts : list CutEvent.
Variable pol : policy.
Hypothesis pol_some : forall t c, pol t = Some c ->
  c ∈ cuts /\ in_accepted_cut t c = true.
Hypothesis pol_none : forall t, pol t = None -> ~ covered cuts t.

(** A jump moves strictly forward and clears one pending cut. *)
Lemma jump_pending t c :
  pol t = Some c -> t < end_ c /\ (pending cuts (end_ c) < pending cuts t)%nat.
Proof.
  intros Hp. destruct (pol_some t c Hp) as [Hin Hc].
  apply in_accepted_cut_spec in Hc as (Hst & H1 & H2). split; [exact H2|].
  apply (filter_length_lt _ _ _ c); [| exact Hin | |].
  - intros x _ Hx. apply andb_true_iff in Hx as [Ha Hx].
    apply andb_true_iff. split; [exact Ha|]. qsolve.
  - apply andb_true_iff. split; [unfold is_accepted; qsolve; done | qsolve].
  - apply andb_false_iff. right. qsolve.
Qed.

Lemma skip_chain_ge fuel t : t <= skip_chain pol fuel t.
Proof.
  revert t. induction fuel as [|f IH]; intros t; simpl; [lra|].
  destruct (pol t) as [c|] eqn:Hp; [|lra].
  destruct (jump_pending t c Hp). specialize (IH (end_ c)). lra.
Qed.

Lemma skip_chain_done fuel t :
  (pending cuts t <= fuel)%nat -> pol (skip_chain pol fuel t) = None.
Proof.
  revert t. induction fuel as [|f IH]; intros t Hf; simpl.
  - destruct (pol t) as [c|] eqn:Hp; [|done].
    destruct (jump_pending t c Hp). lia.
  - destruct (pol t) as [c|] eqn:Hp; [|exact Hp].
    destruct (jump_pending t c Hp). apply IH. lia.
Qed.

Lemma skip_chain_covered fuel t x :
  t <= x < skip_chain pol fuel t -> covered cuts x.
Proof.
  revert t. induction fuel as [|f IH]; intros t Hx; simpl in Hx; [lra|].
  destruct (pol t) as [c|] eqn:Hp; [|lra].
  destruct (Qlt_le_dec x (end_ c)) as [Hlt|Hge].
  - destruct (pol_some t c Hp) as [Hin Hc]. exists c. split; [exact Hin|].
    apply in_accepted_cut_spec in Hc as (Hs & H1 & H2).
    apply in_accepted_cut_spec. split; [exact Hs | lra].
  - apply (IH (end_ c)). lra.
Qed.

(** With one frame per accepted cut, the chain reaches the least time at
    or after [t] that no accepted cut covers. *)
Lemma skip_chain_landing t :
  let p := skip_chain pol (accepted_count cuts) t in
  t <= p /\ ~ covered cuts p /\ (forall x, t <= x < p -> covered cuts x).
Proof.
  split; [apply skip_chain_ge|]. split.
  - apply pol_none, skip_chain_done, pending_le_accepted.
  - intros x. apply skip_chain_covered.
Qed.
End Chain.

(** Such a landing point is unique. *)
Lemma landing_unique cuts t p q :
  t <= p -> ~ covered cuts p -> (forall x, t <= x < p -> covered cuts x) ->
  t <= q -> ~ covered cuts q -> (forall x, t <= x < q -> covered cuts x) ->
  p == q.
Proof.
  intros Hp Hpc Hpx Hq Hqc Hqx.
  destruct (Q_dec p q) as [[Hlt|Hlt]|Heq]; [| |exact Heq].
  - exfalso. apply Hpc, Hqx. lra.
  - exfalso. apply Hqc, Hpx. lra.
Qed.

Lemma currentCut_policy cuts t c :
  currentCut cuts t = Some c -> c ∈ cuts /\ in_accepted_cut t c = true.
Proof. apply find_some_in. Qed.

Lemma latestCut_policy cuts t c :
  latestCut cuts t = Some c -> c ∈ cuts /\ in_accepted_cut t c = true.
Proof. apply latestCut_some. Qed.

Lemma currentCut_none_uncovered cuts t :
  currentCut cuts t = None -> ~ covered cuts t.
Proof. apply currentCut_none. Qed.

Lemma latestCut_none_uncovered cuts t :
  latestCut cuts t = None -> ~ covered cuts t.
Proof. apply latestCut_none. Qed.

(** ** Properties of the review loop's skip policy *)

(** C3. The evaluator of [checkTime] ([cuts.find] over accepted cuts with
    [time >= c.start && time < c.end]) returns the first cut of the list
    whose status is [accepted] and whose half-open interval [start, end)
    contains the play-head: every cut before it fails that test.  It
    returns nothing exactly when every cut of the list fails it. *)
Theorem currentCut_spec cuts t :
  match currentCut cuts t with
  | Some c => exists pre post, cuts = pre ++ c :: post /\
      status c = accepted /\ start c <= t < end_ c /\
      Forall (fun c' => ~ (status c' = accepted /\ start c' <= t < end_ c')) pre
  | None => Forall (fun c' => ~ (status c' = accepted /\ start c' <= t < end_ c')) cuts
  end.
Proof.
  destruct (currentCut cuts t) as [c|] eqn:H.
  - destruct (find_first _ _ _ H) as (pre & post & Heq & Hc & Hpre).
    apply in_accepted_cut_spec in Hc as (Hs & Ht).
    exists pre, post. split_and!; [exact Heq | exact Hs | apply Ht | apply Ht |].
    eapply Forall_impl; [exact Hpre|]. intros y. apply not_in_accepted_cut.
  - unfold currentCut in H. apply find_none_iff in H.
    eapply Forall_impl; [exact H|]. intros y. apply not_in_accepted_cut.
Qed.

(** Containment is half-open: an accepted cut contains every time
    just before its end and not its end. *)
Theorem in_accepted_cut_boundary c eps :
  status c = accepted -> 0 < eps <= end_ c - start c ->
  in_accepted_cut (end_ c - eps) c = true /\ in_accepted_cut (end_ c) c = false.
Proof.
  intros Hs He. split.
  - apply in_accepted_cut_spec. split; [done | lra].
  - destruct (in_accepted_cut (end_ c) c) eqn:E; [|done].
    apply in_accepted_cut_spec in E. lra.
Qed.

(** The code's chain stops in no accepted cut. *)
Lemma currentCut_chain_done cuts t :
  currentCut cuts (skip_chain (currentCut cuts) (accepted_count cuts) t) = None.
Proof.
  destruct (skip_chain_landing cuts (currentCut cuts) (currentCut_policy cuts)
              (currentCut_none_uncovered cuts) t) as (_ & H & _).
  by apply currentCut_none.
Qed.

(** C4. Repeated skipping terminates: after at most one jump per accepted
    cut the play-head is in no accepted cut, it never moved backwards, and
    every time it jumped over lies in an accepted cut. *)
Theorem skip_chain_converges cuts t :
  let p := skip_chain (currentCut cuts) (accepted_count cuts) t in
  currentCut cuts p = None /\ t <= p /\ (forall x, t <= x < p -> covered cuts x).
Proof.
  destruct (skip_chain_landing cuts (currentCut cuts) (currentCut_policy cuts)
              (currentCut_none_uncovered cuts) t) as (H1 & H2 & H3).
  split; [by apply currentCut_none | auto].
Qed.

(** C5. The code's first-match rule and the spec's latest-end rule land the
    play-head on the same time once the jumps have run out: the tie-break
    changes the number of frames, not the result. *)
Theorem skip_chain_equiv cuts t :
  skip_chain (currentCut cuts) (accepted_count cuts) t ==
  skip_chain (latestCut cuts) (accepted_count cuts) t.
Proof.
  destruct (skip_chain_landing cuts (currentCut cuts) (currentCut_policy cuts)
              (currentCut_none_uncovered cuts) t) as (H1 & H2 & H3).
  destruct (skip_chain_landing cuts (latestCut cuts) (latestCut_policy cuts)
              (latestCut_none_uncovered cuts) t) as (H4 & H5 & H6).
  eapply landing_unique; eauto.
Qed.

Lemma in_accepted_cut_boundary_witness :
  let c := mkCut "a" filler None 2 4 (9#10) accepted in
  in_accepted_cut (end_ c - (1#2)) c = true /\ in_accepted_cut (end_ c) c = false.
Proof. apply in_accepted_cut_boundary; [reflexivity | decide_concrete]. Defined.

(** The spec's example of overlapping accepted cuts (section 8). *)
Definition overlap_cuts : list CutEvent :=
  [mkCut "a" filler None 5 8 (9#10) accepted;
   mkCut "b" filler None 6 12 (9#10) accepted].

(** C13. On overlapping accepted cuts [5,8) and [6,12) at time 7 the code
    jumps to 8, not to 12 as the spec's tie-break asks; the next frame
    jumps on to 12. *)
Theorem first_match_tiebreak :
  option_map end_ (currentCut overlap_cuts 7) = Some 8 /\
  option_map end_ (latestCut overlap_cuts 7) = Some 12 /\
  option_map end_ (currentCut overlap_cuts 8) = Some 12 /\
  skip_chain (currentCut overlap_cuts) 2 7 = 12.
Proof. vm_compute. auto. Qed.

#[export] Hint Resolve currentCut_policy latestCut_policy
  currentCut_none_uncovered latestCut_none_uncovered : cc.

End Skip.
