(* ===== verification/Mapper.v ===== *)
(** The time/position mapping of the review timeline ([ReviewPhase.tsx]):
    the pointer offset to time of [handleScrubMove] (lines 166-171) and of
    the hover handler (lines 310-316), and the percentages of the
    [left]/[width] styles (lines 334, 349-350, 360, 369, 378).  A
    percentage divides by [duration], which the render does not guard: the
    model returns [None] where JS yields NaN or Infinity. *)

From S2P Require Import Prelude Types.

Module Mapper.

(** The part of [getBoundingClientRect()] the code reads. *)
Record Rect := mkRect { rleft : Q; rwidth : Q }.

(** [Math.max(0, Math.min(e.clientX - rect.left, rect.width))] *)
Definition scrub_x (r : Rect) (clientX : Q) : Q :=
  clamp 0 (rwidth r) (clientX - rleft r).

(** [percentage = x / rect.width; newTime = percentage * duration] *)
Definition scrub_time (r : Rect) (duration clientX : Q) : Q :=
  (scrub_x r clientX / rwidth r) * duration.

(** [(x / rect.width) * duration] with [x = e.clientX - rect.left], not
    clamped. *)
Definition hover_time (r : Rect) (duration clientX : Q) : Q :=
  ((clientX - rleft r) / rwidth r) * duration.

(** JS division [a / b] with the IEEE result when [b] is [0]: NaN or an
    infinity, which the model does not represent ([None]). *)
Definition js_div (a b : Q) : option Q :=
  if decide (b == 0) then None else Some (a / b).

(** [(t / duration) * 100], the [left:%] of the play-head, the progress
    fill, the hover ghost and the tooltip. *)
Definition percent (t duration : Q) : option Q :=
  option_map (fun f => f * 100) (js_div t duration).

(** [Math.max(0.5, ((cut.end - cut.start) / duration) * 100)], the width of
    a cut marker (line 350); NaN when [duration] is 0, and [Math.max] of
    NaN is NaN. *)
Definition marker_width (c : CutEvent) (duration : Q) : option Q :=
  option_map (fun f => Qmax (1#2) (f * 100)) (js_div (end_ c - start c) duration).

(** The horizontal page offset at which a style [left: p%] draws inside the
    timeline. *)
Definition offset_of_percent (r : Rect) (p : Q) : Q := rleft r + p / 100 * rwidth r.

(** ** Lemmas *)

Lemma scrub_x_bounds r x : 0 <= rwidth r -> 0 <= scrub_x r x <= rwidth r.
Proof. intros H. apply (clamp_bounds 0 (rwidth r) _ H). Qed.

Lemma div_bounds (a w : Q) : 0 < w -> 0 <= a <= w -> 0 <= a / w <= 1.
Proof.
  intros Hw [Ha1 Ha2]. split.
  - apply Qle_shift_div_l; [exact Hw | lra].
  - apply Qle_shift_div_r; [exact Hw | lra].
Qed.

Lemma percent_some t d : ~ d == 0 -> percent t d = Some (t / d * 100).
Proof. intros H. unfold percent, js_div. by rewrite decide_False. Qed.

(** ** Properties *)

(** A scrub never leaves the timeline: on a laid-out timeline (width
    > 0) and a known duration, the time of any pointer offset is in
    [0, duration]. *)
Theorem scrub_time_bounds r d x :
  0 < rwidth r -> 0 <= d -> 0 <= scrub_time r d x <= d.
Proof.
  intros Hw Hd. unfold scrub_time.
  pose proof (div_bounds (scrub_x r x) (rwidth r) Hw (scrub_x_bounds r x ltac:(lra))) as [H1 H2].
  split; [apply Qmult_le_0_compat; lra|].
  rewrite <- (Qmult_1_l d) at 2. apply Qmult_le_compat_r; lra.
Qed.

(** Scrubbing is monotone: a pointer further right never gives an
    earlier time. *)
Theorem scrub_time_mono r d x y :
  0 < rwidth r -> 0 <= d -> x <= y -> scrub_time r d x <= scrub_time r d y.
Proof.
  intros Hw Hd Hxy. unfold scrub_time, scrub_x.
  apply Qmult_le_compat_r; [|exact Hd].
  apply Qmult_le_compat_r; [| apply Qlt_le_weak, Qinv_lt_0_compat, Hw].
  apply (clamp_mono 0 (rwidth r)). lra.
Qed.

(** C14. Round trip between rendering and scrubbing: pressing the pointer
    where the play-head of time [t] is drawn ([left: (t/duration)*100 %])
    scrubs back to [t]. *)
Theorem scrub_render_roundtrip r d t :
  0 < rwidth r -> 0 < d -> 0 <= t <= d ->
  exists p, percent t d = Some p /\ scrub_time r d (offset_of_percent r p) == t.
Proof.
  intros Hw Hd Ht. exists (t / d * 100). split; [apply percent_some; lra|].
  unfold scrub_time, scrub_x, clamp, offset_of_percent.
  assert (Hf : 0 <= t / d <= 1) by (apply div_bounds; lra).
  setoid_replace (rleft r + t / d * 100 / 100 * rwidth r - rleft r)
    with (t / d * rwidth r) using relation Qeq by (field; lra).
  rewrite Q.min_r, Q.max_r.
  - field. lra.
  - apply Qmult_le_0_compat; lra.
  - rewrite <- (Qmult_1_l (rwidth r)) at 2. apply Qmult_le_compat_r; lra.
Qed.

(** A 600-pixel timeline at the page's left edge and a one-minute video. *)
Definition ex_rect : Rect := mkRect 0 600.

Lemma scrub_time_bounds_witness : 0 <= scrub_time ex_rect 60 300 <= 60.
Proof. apply scrub_time_bounds; decide_concrete. Defined.

Lemma scrub_time_mono_witness : scrub_time ex_rect 60 100 <= scrub_time ex_rect 60 200.
Proof. apply scrub_time_mono; decide_concrete. Defined.

Lemma scrub_render_roundtrip_witness :
  exists p, percent 30 60 = Some p /\ scrub_time ex_rect 60 (offset_of_percent ex_rect p) == 30.
Proof. apply scrub_render_roundtrip; decide_concrete. Defined.

End Mapper.
