(* ===== verification/Media.v ===== *)
(** The media element the review screen drives ([videoRef.current] in
    [ReviewPhase.tsx], an [HTMLVideoElement]): the operations the code
    calls or reads ([paused], [currentTime], [duration], [play()],
    [pause()], assignment to [currentTime]) and the clock that advances it.
    [MediaElement] is the interface, [MediaLaws] what the review component
    relies on; [Video] is the element as the HTML standard specifies it
    (seeks clamp to [0, duration], reaching the end pauses, [play()] on an
    ended element restarts from 0, [play()] may be rejected). *)

From S2P Require Import Prelude.

Class MediaElement (M : Type) := {
  m_paused : M -> bool;
  m_currentTime : M -> Q;
  m_duration : M -> Q;
  m_play : M -> M;
  m_pause : M -> M;
  m_seek : Q -> M -> M;
  m_advance : Q -> M -> M
}.

(** The element's own invariant: its position is within its duration. *)
Definition media_wf {M} `{MediaElement M} (m : M) : Prop :=
  0 <= m_currentTime m <= m_duration m.

Class MediaLaws (M : Type) `{MediaElement M} : Prop := {
  pause_paused m : m_paused (m_pause m) = true;
  pause_time m : m_currentTime (m_pause m) = m_currentTime m;
  pause_duration m : m_duration (m_pause m) = m_duration m;
  seek_paused t m : m_paused (m_seek t m) = m_paused m;
  seek_time t m : 0 <= m_duration m -> m_currentTime (m_seek t m) == clamp 0 (m_duration m) t;
  seek_duration t m : m_duration (m_seek t m) = m_duration m;
  play_cases m : m_play m = m \/
    (m_paused (m_play m) = false /\ m_duration (m_play m) = m_duration m /\
     (m_currentTime m < m_duration m -> m_currentTime (m_play m) = m_currentTime m) /\
     (media_wf m -> media_wf (m_play m)));
  advance_paused dt m : m_paused m = true -> m_advance dt m = m;
  advance_duration dt m : m_duration (m_advance dt m) = m_duration m;
  advance_playing dt m : m_paused m = false -> 0 <= dt ->
    m_currentTime m + dt < m_duration m ->
    m_paused (m_advance dt m) = false /\ m_currentTime (m_advance dt m) == m_currentTime m + dt;
  advance_end dt m : m_paused m = false -> m_duration m <= m_currentTime m + dt ->
    m_paused (m_advance dt m) = true /\ m_currentTime (m_advance dt m) == m_duration m
}.

(** ** The HTML video element *)

Record Video := mkVideo {
  v_paused : bool;
  v_time : Q;
  v_duration : Q;
  v_playable : bool   (** [false]: [play()] rejects (no source, autoplay policy) *)
}.

Definition video_play (v : Video) : Video :=
  if v_playable v then
    mkVideo false (if v_duration v <=? v_time v then 0 else v_time v)
            (v_duration v) true
  else v.

Definition video_pause (v : Video) : Video :=
  mkVideo true (v_time v) (v_duration v) (v_playable v).

Definition video_seek (t : Q) (v : Video) : Video :=
  mkVideo (v_paused v) (clamp 0 (v_duration v) t) (v_duration v) (v_playable v).

Definition video_advance (dt : Q) (v : Video) : Video :=
  if v_paused v then v
  else if v_duration v <=? v_time v + dt
       then mkVideo true (v_duration v) (v_duration v) (v_playable v)
       else mkVideo false (v_time v + dt) (v_duration v) (v_playable v).

#[export] Instance Video_media : MediaElement Video := {
  m_paused := v_paused;
  m_currentTime := v_time;
  m_duration := v_duration;
  m_play := video_play;
  m_pause := video_pause;
  m_seek := video_seek;
  m_advance := video_advance
}.

#[export] Instance Video_laws : MediaLaws Video.
Proof.
  split; cbn.
  - done.
  - done.
  - done.
  - done.
  - intros t m _. reflexivity.
  - done.
  - intros m. unfold video_play, media_wf. cbn.
    destruct (v_playable m) eqn:Hp; [right | left; done].
    cbn. repeat split; intros; case_bool_decide; qsolve; done.
  - intros dt m H. unfold video_advance. by rewrite H.
  - intros dt m. unfold video_advance. destruct (v_paused m); [done|]. by case_bool_decide.
  - intros dt m H Hdt Hlt. unfold video_advance. rewrite H.
    case_bool_decide; cbn; qsolve; done.
  - intros dt m H Hle. unfold video_advance. rewrite H.
    case_bool_decide; cbn; qsolve; done.
Qed.
