(* ===== verification/Review.v ===== *)
(** The review screen of [src/components/ReviewPhase.tsx] as a state
    machine: its state ([ReviewState]: the [useState] hooks, the refs and
    the [cuts] prop), each handler as a total function on the state, the
    per-frame loop [checkTime] (lines 59-120), and a step relation whose
    labels are the user's actions, the frames, the media clock and the
    media element's events.  The component is generic in the media element
    ([MediaElement]); its theorems use only [MediaLaws]. *)

From S2P Require Import Prelude Types SkipPolicy Mapper Media.

Module Review.

Section Review.
Context {M : Type} `{ME : MediaElement M}.

(** The hooks and refs of [ReviewPhase] (lines 21-35) with the [cuts] prop
    (owned by [App], changed through [setCuts]). *)
Record ReviewState := mkReview {
  video : option M;                 (** [videoRef.current] *)
  timeline : option Mapper.Rect;    (** [timelineRef.current] *)
  isPlaying : bool;
  currentTime : Q;
  duration : Q;
  activeCutId : option string;
  isScrubbing : bool;
  hoverTime : option Q;
  wasPlaying : bool;                (** [wasPlayingRef.current] *)
  previewEnd : option Q;            (** [previewEndTimeRef.current] *)
  cuts : list CutEvent
}.

Definition set_video x s := mkReview x (timeline s) (isPlaying s) (currentTime s)
  (duration s) (activeCutId s) (isScrubbing s) (hoverTime s) (wasPlaying s) (previewEnd s) (cuts s).
Definition set_isPlaying x s := mkReview (video s) (timeline s) x (currentTime s)
  (duration s) (activeCutId s) (isScrubbing s) (hoverTime s) (wasPlaying s) (previewEnd s) (cuts s).
Definition set_currentTime x s := mkReview (video s) (timeline s) (isPlaying s) x
  (duration s) (activeCutId s) (isScrubbing s) (hoverTime s) (wasPlaying s) (previewEnd s) (cuts s).
Definition set_duration x s := mkReview (video s) (timeline s) (isPlaying s) (currentTime s)
  x (activeCutId s) (isScrubbing s) (hoverTime s) (wasPlaying s) (previewEnd s) (cuts s).
Definition set_activeCutId x s := mkReview (video s) (timeline s) (isPlaying s) (currentTime s)
  (duration s) x (isScrubbing s) (hoverTime s) (wasPlaying s) (previewEnd s) (cuts s).
Definition set_isScrubbing x s := mkReview (video s) (timeline s) (isPlaying s) (currentTime s)
  (duration s) (activeCutId s) x (hoverTime s) (wasPlaying s) (previewEnd s) (cuts s).
Definition set_hoverTime x s := mkReview (video s) (timeline s) (isPlaying s) (currentTime s)
  (duration s) (activeCutId s) (isScrubbing s) x (wasPlaying s) (previewEnd s) (cuts s).
Definition set_wasPlaying x s := mkReview (video s) (timeline s) (isPlaying s) (currentTime s)
  (duration s) (activeCutId s) (isScrubbing s) (hoverTime s) x (previewEnd s) (cuts s).
Definition set_previewEnd x s := mkReview (video s) (timeline s) (isPlaying s) (currentTime s)
  (duration s) (activeCutId s) (isScrubbing s) (hoverTime s) (wasPlaying s) x (cuts s).
Definition set_cuts x s := mkReview (video s) (timeline s) (isPlaying s) (currentTime s)
  (duration s) (activeCutId s) (isScrubbing s) (hoverTime s) (wasPlaying s) (previewEnd s) x.

(** The state of the first render, once the video and the timeline are
    mounted: [useState(false)], [useState(0)], [useState(0)], [null], ... *)
Definition initial (v : M) (r : Mapper.Rect) (cs : list CutEvent) : ReviewState :=
  mkReview (Some v) (Some r) false 0 0 None false None false None cs.

(** [if (videoRef.current) videoRef.current.<op>] *)
Definition with_media (f : M -> M) (s : ReviewState) : ReviewState :=
  match video s with
  | Some v => set_video (Some (f v)) s
  | None => s
  end.

(** [toggleCutStatus] (lines 55-57): [setCuts(prev => prev.map(...))]. *)
Definition onToggleCut (cid : string) (st : Status) (s : ReviewState) : ReviewState :=
  set_cuts (toggleCutStatus cid st (cuts s)) s.

(** [checkTime] (lines 63-116): one frame of the playback loop. *)
Definition checkTime (s : ReviewState) : ReviewState :=
  if isScrubbing s then s else
  match video s with
  | Some v =>
      if negb (m_paused v) then
        let time := m_currentTime v in
        let s1 := set_currentTime time s in
        match previewEnd s1 with
        | Some pe =>
            if pe <=? time then
              set_previewEnd None (set_isPlaying false (set_video (Some (m_pause v)) s1))
            else
              match Skip.previewCutAt (cuts s1) time with
              | Some c => set_activeCutId (Some (id c)) s1
              | None => s1
              end
        | None =>
            match Skip.currentCut (cuts s1) time with
            | Some c => set_video (Some (m_seek (end_ c) v)) (set_activeCutId (Some (id c)) s1)
            | None => set_activeCutId (option_map id (Skip.upcomingCut (cuts s1) time)) s1
            end
        end
      else if negb (Bool.eqb (m_paused v) (negb (isPlaying s)))
           then set_isPlaying (negb (m_paused v)) s
           else s
  | None => s
  end.

(** [previewCut] (lines 123-138).  The promise of [play()] resolves exactly
    when the element is now playing; [.then] sets [isPlaying]. *)
Definition previewCut (c : CutEvent) (s : ReviewState) : ReviewState :=
  let s1 := set_activeCutId (Some (id c)) s in
  match video s1 with
  | Some v =>
      let st := Qmax 0 (start c - 1) in
      let en := Qmin (duration s1) (end_ c + 1) in
      let v' := m_play (m_seek st v) in
      let s2 := set_video (Some v') (set_previewEnd (Some en) s1) in
      if m_paused v' then s2 else set_isPlaying true s2
  | None => s1
  end.

(** [skip] (lines 141-149): the +-5 s and +-10 s buttons. *)
Definition skip (seconds : Q) (s : ReviewState) : ReviewState :=
  match video s with
  | Some v =>
      let newTime := clamp 0 (duration s) (m_currentTime v + seconds) in
      set_previewEnd None (set_currentTime newTime (set_video (Some (m_seek newTime v)) s))
  | None => s
  end.

(** [handleScrubMove] (lines 166-184). *)
Definition handleScrubMove (clientX : Q) (s : ReviewState) : ReviewState :=
  match timeline s, video s with
  | Some r, Some v =>
      if 0 <? duration s then
        let newTime := Mapper.scrub_time r (duration s) clientX in
        set_activeCutId (option_map id (Skip.cutAtTime (cuts s) newTime))
          (set_video (Some (m_seek newTime v)) (set_currentTime newTime s))
      else s
  | _, _ => s
  end.

(** [handleScrubStart] (lines 186-204). *)
Definition handleScrubStart (clientX : Q) (s : ReviewState) : ReviewState :=
  match timeline s, video s with
  | Some _, Some v =>
      let s1 := set_previewEnd None (set_isScrubbing true s) in
      let s2 := if negb (m_paused v)
                then set_video (Some (m_pause v)) (set_wasPlaying true s1)
                else set_wasPlaying false s1 in
      handleScrubMove clientX s2
  | _, _ => s
  end.

(** [handleScrubEnd] (lines 206-215). *)
Definition handleScrubEnd (s : ReviewState) : ReviewState :=
  if negb (isScrubbing s) then s else
  let s1 := set_isScrubbing false s in
  let s2 := if wasPlaying s1 then with_media m_play s1 else s1 in
  set_wasPlaying false s2.

(** The play/pause button (lines 415-420). *)
Definition togglePlay (s : ReviewState) : ReviewState :=
  with_media (fun v => if isPlaying s then m_pause v else m_play v) s.

(** The timeline's [onMouseMove] and [onMouseLeave] (lines 310-317). *)
Definition onTimelineHover (clientX : Q) (s : ReviewState) : ReviewState :=
  if isScrubbing s then s else
  match timeline s with
  | Some r => if 0 <? duration s
              then set_hoverTime (Some (Mapper.hover_time r (duration s) clientX)) s
              else s
  | None => s
  end.

Definition onTimelineLeave (s : ReviewState) : ReviewState := set_hoverTime None s.

(** The [<video>] element's handlers (lines 284-286). *)
Definition onLoadedMetadata (s : ReviewState) : ReviewState :=
  match video s with
  | Some v => set_duration (m_duration v) s
  | None => s
  end.

Definition onPlay (s : ReviewState) : ReviewState := set_isPlaying true s.
Definition onPause (s : ReviewState) : ReviewState := set_isPlaying false s.

(** ** The step relation *)

Inductive action :=
  | AToggleCut (cid : string) (st : Status)
  | APreview (c : CutEvent)
  | ASkip (seconds : Q)
  | ATogglePlay
  | AScrubStart (clientX : Q)
  | AScrubMove (clientX : Q)
  | AScrubEnd
  | AHover (clientX : Q)
  | ALeave
  | AFrame                 (** a [requestAnimationFrame] callback *)
  | AClock (dt : Q)        (** [dt] seconds of playback by the element *)
  | AMetadata | APlayEvent | APauseEvent.

Definition apply_action (a : action) (s : ReviewState) : ReviewState :=
  match a with
  | AToggleCut cid st => onToggleCut cid st s
  | APreview c => previewCut c s
  | ASkip sec => skip sec s
  | ATogglePlay => togglePlay s
  | AScrubStart x => handleScrubStart x s
  | AScrubMove x => handleScrubMove x s
  | AScrubEnd => handleScrubEnd s
  | AHover x => onTimelineHover x s
  | ALeave => onTimelineLeave s
  | AFrame => checkTime s
  | AClock dt => with_media (m_advance dt) s
  | AMetadata => onLoadedMetadata s
  | APlayEvent => onPlay s
  | APauseEvent => onPause s
  end.

(** When an action can happen: the preview button exists for listed cuts,
    the skip buttons are -10, -5, 5, 10, the window listeners for
    [mousemove]/[mouseup] are registered only while scrubbing (lines
    218-227), the clock runs forward, and the element fires [play] and
    [pause] only in the matching state. *)
Definition enabled (a : action) (s : ReviewState) : bool :=
  match a with
  | APreview c => bool_decide (c ∈ cuts s)
  | ASkip sec => bool_decide (sec ∈ [-10; -5; 5; 10])
  | AScrubMove _ | AScrubEnd => isScrubbing s
  | AClock dt => 0 <=? dt
  | APlayEvent => match video s with Some v => negb (m_paused v) | None => false end
  | APauseEvent => match video s with Some v => m_paused v | None => false end
  | _ => true
  end.

Inductive step : ReviewState -> ReviewState -> Prop :=
  | step_act a s : enabled a s = true -> step s (apply_action a s).

Inductive reachable (v0 : M) (r : Mapper.Rect) (cs : list CutEvent) : ReviewState -> Prop :=
  | reach_init : reachable v0 r cs (initial v0 r cs)
  | reach_step s s' : reachable v0 r cs s -> step s s' -> reachable v0 r cs s'.

(** Run a sequence of actions; [None] when one of them is not enabled. *)
Fixpoint run (acts : list action) (s : ReviewState) : option ReviewState :=
  match acts with
  | [] => Some s
  | a :: rest => if enabled a s then run rest (apply_action a s) else None
  end.

End Review.

(** ** Lemmas *)

(** Reduce the projections of the setters. *)
Ltac rsimpl := cbn [video timeline isPlaying currentTime duration activeCutId
  isScrubbing hoverTime wasPlaying previewEnd cuts set_video set_isPlaying
  set_currentTime set_duration set_activeCutId set_isScrubbing set_hoverTime
  set_wasPlaying set_previewEnd set_cuts with_media] in *.

Section Lemmas.
Context {M : Type} {ME : MediaElement M} {ML : MediaLaws M}.



(** Iterations of the frame loop: [n] frames with no playback in between,
    and [n] frames each after [dt] seconds of playback. *)
Fixpoint frames (n : nat) (s : @ReviewState M) : ReviewState :=
  match n with O => s | S k => frames k (checkTime s) end.

Fixpoint play_frames (n : nat) (dt : Q) (s : @ReviewState M) : ReviewState :=
  match n with O => s | S k => play_frames k dt (checkTime (apply_action (AClock dt) s)) end.

(** The actions that do not come from the user. *)
Definition is_env (a : action) : bool :=
  match a with
  | AFrame | AClock _ | AMetadata | APlayEvent | APauseEvent => true
  | _ => false
  end.

Lemma checkTime_scrubbing (s : @ReviewState M) : isScrubbing s = true -> checkTime s = s.
Proof. unfold checkTime. by intros ->. Qed.

Lemma checkTime_playing (s : @ReviewState M) v :
  isScrubbing s = false -> video s = Some v -> m_paused v = false -> previewEnd s = None ->
  checkTime s =
    match Skip.currentCut (cuts s) (m_currentTime v) with
    | Some c => set_video (Some (m_seek (end_ c) v))
                  (set_activeCutId (Some (id c)) (set_currentTime (m_currentTime v) s))
    | None => set_activeCutId (option_map id (Skip.upcomingCut (cuts s) (m_currentTime v)))
                (set_currentTime (m_currentTime v) s)
    end.
Proof. intros Hs Hv Hp He. unfold checkTime. rewrite Hs, Hv, Hp. cbn. by rewrite He. Qed.

Lemma checkTime_preview (s : @ReviewState M) v b :
  isScrubbing s = false -> video s = Some v -> m_paused v = false -> previewEnd s = Some b ->
  checkTime s =
    if b <=? m_currentTime v
    then set_previewEnd None (set_isPlaying false
           (set_video (Some (m_pause v)) (set_currentTime (m_currentTime v) s)))
    else match Skip.previewCutAt (cuts s) (m_currentTime v) with
         | Some c => set_activeCutId (Some (id c)) (set_currentTime (m_currentTime v) s)
         | None => set_currentTime (m_currentTime v) s
         end.
Proof. intros Hs Hv Hp He. unfold checkTime. rewrite Hs, Hv, Hp. cbn. by rewrite He. Qed.

Lemma checkTime_paused (s : @ReviewState M) v :
  video s = Some v -> m_paused v = true ->
  checkTime s = if isScrubbing s then s
                else if isPlaying s then set_isPlaying false s else s.
Proof.
  intros Hv Hp. unfold checkTime. rewrite Hv, Hp.
  destruct (isScrubbing s), (isPlaying s); done.
Qed.

(** The containment test does not depend on the representation of the
    time: [Q] equality is coarser than [=]. *)
#[export] Instance in_accepted_cut_proper : Proper (Qeq ==> eq ==> eq) Skip.in_accepted_cut.
Proof.
  intros t t' Ht c ? <-. unfold Skip.in_accepted_cut.
  f_equal; [f_equal|]; apply bool_decide_ext; rewrite Ht; done.
Qed.

#[export] Instance currentCut_proper : Proper (eq ==> Qeq ==> eq) Skip.currentCut.
Proof.
  intros cs ? <- t t' Ht. unfold Skip.currentCut.
  apply find_ext_in. intros c _. by rewrite Ht.
Qed.

Lemma handleScrubMove_fields x (s : @ReviewState M) :
  isScrubbing (handleScrubMove x s) = isScrubbing s /\
  previewEnd (handleScrubMove x s) = previewEnd s /\
  wasPlaying (handleScrubMove x s) = wasPlaying s /\
  option_map m_paused (video (handleScrubMove x s)) = option_map m_paused (video s).
Proof.
  unfold handleScrubMove.
  destruct (timeline s); [|done].
  destruct (video s) as [v|] eqn:Hv; [|by rewrite Hv].
  case_bool_decide; rsimpl; cbn; rewrite ?Hv, ?seek_paused; done.
Qed.

(** While scrubbing with a paused element, no action of the environment
    moves the play-head or the element. *)
Definition scrub_hold (s : @ReviewState M) : Prop :=
  isScrubbing s = true /\ exists v, video s = Some v /\ m_paused v = true.

Lemma env_step_hold a (s : @ReviewState M) :
  scrub_hold s -> is_env a = true -> enabled a s = true ->
  scrub_hold (apply_action a s) /\ currentTime (apply_action a s) = currentTime s /\
  video (apply_action a s) = video s.
Proof.
  intros (Hs & v & Hv & Hp) Ha He.
  destruct a; try discriminate; cbn in He |- *.
  - rewrite checkTime_scrubbing by done. split; [|done]. split; eauto.
  - unfold with_media. rewrite Hv. rsimpl. rewrite advance_paused by done.
    split; [split; eauto | done].
  - unfold onLoadedMetadata. rewrite Hv. rsimpl. split; [split; eauto | done].
  - rewrite Hv, Hp in He. discriminate.
  - unfold onPause. rsimpl. split; [split; eauto | done].
Qed.

Lemma run_hold acts (s s' : @ReviewState M) :
  scrub_hold s -> Forall (fun a => is_env a = true) acts -> run acts s = Some s' ->
  scrub_hold s' /\ currentTime s' = currentTime s /\ video s' = video s.
Proof.
  revert s. induction acts as [|a acts IH]; intros s Hh Hf Hr; cbn in Hr.
  - injection Hr as <-. done.
  - inversion Hf as [|? ? Ha Hf']; subst.
    destruct (enabled a s) eqn:He; [|discriminate].
    destruct (env_step_hold a s Hh Ha He) as (Hh' & Ht & Hv).
    destruct (IH _ Hh' Hf' Hr) as (? & ? & ?). split; [done|]. split; congruence.
Qed.

Lemma scrub_hold_move x (s : @ReviewState M) :
  scrub_hold s -> scrub_hold (handleScrubMove x s).
Proof.
  intros (Hs & v & Hv & Hp).
  destruct (handleScrubMove_fields x s) as (H1 & _ & _ & H4).
  split; [congruence|]. rewrite Hv in H4.
  destruct (video (handleScrubMove x s)) as [v'|]; [|discriminate].
  exists v'. split; [done|]. cbn in H4. congruence.
Qed.

Lemma handleScrubStart_hold x (s : @ReviewState M) r v :
  timeline s = Some r -> video s = Some v -> scrub_hold (handleScrubStart x s).
Proof.
  intros Hr Hv. unfold handleScrubStart. rewrite Hr, Hv.
  apply scrub_hold_move. split; [destruct (m_paused v); done|].
  destruct (m_paused v) eqn:Hp; cbn.
  - exists v. rewrite Hv. done.
  - exists (m_pause v). split; [done | apply pause_paused].
Qed.

Lemma skip_chain_proper cs n : Proper (Qeq ==> Qeq) (Skip.skip_chain (Skip.currentCut cs) n).
Proof.
  intros t t' Ht. destruct n as [|n]; cbn; [exact Ht|].
  rewrite Ht. destruct (Skip.currentCut cs t'); [reflexivity | exact Ht].
Qed.

Lemma skip_chain_stop pol n t : pol t = None -> Skip.skip_chain pol n t = t.
Proof. intros H. destruct n; cbn; [done | by rewrite H]. Qed.

Lemma inject_Z_succ n : inject_Z (Z.of_nat (S n)) == inject_Z (Z.of_nat n) + 1.
Proof. rewrite Nat2Z.inj_succ, <- Z.add_1_r, inject_Z_plus. reflexivity. Qed.

(** A stopped preview stays stopped: frames and playback leave a paused
    element alone. *)
Lemma play_frames_stopped n dt (s : @ReviewState M) v :
  isScrubbing s = false -> previewEnd s = None -> video s = Some v -> m_paused v = true ->
  previewEnd (play_frames n dt s) = None /\ video (play_frames n dt s) = Some v.
Proof.
  revert s. induction n as [|n IH]; intros s Hs He Hv Hp; cbn [play_frames]; [done|].
  assert (Hc : apply_action (AClock dt) s = s).
  { cbn. unfold with_media. rewrite Hv, advance_paused by done. by destruct s; cbn in *; subst. }
  rewrite Hc, (checkTime_paused s v Hv Hp), Hs.
  destruct (isPlaying s); apply IH; done.
Qed.

(** One frame of a running preview, after [dt] seconds of playback. *)
Lemma preview_frame dt (s : @ReviewState M) v b :
  isScrubbing s = false -> video s = Some v -> m_paused v = false -> previewEnd s = Some b ->
  0 <= dt -> m_currentTime v + dt < m_duration v ->
  let s' := checkTime (apply_action (AClock dt) s) in
  isScrubbing s' = false /\ exists v', video s' = Some v' /\
    m_currentTime v' == m_currentTime v + dt /\ m_duration v' = m_duration v /\
    (if b <=? m_currentTime v + dt then previewEnd s' = None /\ m_paused v' = true
     else previewEnd s' = Some b /\ m_paused v' = false).
Proof.
  intros Hs Hv Hp He Hdt Hlt s'.
  destruct (advance_playing dt v Hp Hdt Hlt) as [Hp1 Ht1].
  pose proof (advance_duration dt v) as Hd1.
  assert (Hc : apply_action (AClock dt) s = set_video (Some (m_advance dt v)) s)
    by (cbn; unfold with_media; by rewrite Hv).
  subst s'. rewrite Hc.
  rewrite (checkTime_preview _ (m_advance dt v) b) by (rsimpl; done).
  assert (Hb : bool_decide (b <= m_currentTime (m_advance dt v)) =
               bool_decide (b <= m_currentTime v + dt))
    by (apply bool_decide_ext; rewrite Ht1; done).
  rewrite Hb. destruct (decide (b <= m_currentTime v + dt)) as [Hge|Hge].
  - rewrite !bool_decide_true by done. rsimpl. split; [done|]. eexists. split; [done|].
    rewrite pause_time, pause_duration, pause_paused. auto.
  - rewrite !bool_decide_false by done.
    destruct (Skip.previewCutAt _ _); rsimpl; (split; [done|]);
      eexists; (split; [done|]); auto.
Qed.

(** ** The invariant of reachable states *)

Definition media_ok (s : @ReviewState M) : Prop :=
  forall v, video s = Some v -> media_wf v.

Lemma wf_pause (m : M) : media_wf m -> media_wf (m_pause m).
Proof. unfold media_wf. by rewrite pause_time, pause_duration. Qed.

Lemma wf_seek t (m : M) : media_wf m -> media_wf (m_seek t m).
Proof.
  unfold media_wf. intros Hm. rewrite seek_duration, seek_time by lra.
  apply clamp_bounds. lra.
Qed.

Lemma wf_play (m : M) : media_wf m -> media_wf (m_play m).
Proof. intros Hm. destruct (play_cases m) as [->|(_ & _ & _ & H)]; auto. Qed.

Lemma wf_advance dt (m : M) : 0 <= dt -> media_wf m -> media_wf (m_advance dt m).
Proof.
  intros Hdt Hm. destruct (m_paused m) eqn:Hp; [by rewrite advance_paused|].
  unfold media_wf in *. rewrite advance_duration.
  destruct (Qlt_le_dec (m_currentTime m + dt) (m_duration m)) as [Hl|Hl].
  - destruct (advance_playing dt m Hp Hdt Hl) as [_ ->]. lra.
  - destruct (advance_end dt m Hp Hl) as [_ ->]. lra.
Qed.

#[local] Hint Resolve wf_pause wf_seek wf_play wf_advance : cc.

Lemma media_ok_set_video (s : @ReviewState M) v f :
  video s = Some v -> media_ok s -> media_wf (f v) ->
  media_ok (set_video (Some (f v)) s).
Proof. intros _ _ H v' Hv'. cbn in Hv'. by injection Hv' as <-. Qed.

Lemma wf_time (m : M) : media_wf m -> 0 <= m_currentTime m.
Proof. unfold media_wf. lra. Qed.

Lemma wf_duration (m : M) : media_wf m -> 0 <= m_duration m.
Proof. unfold media_wf. lra. Qed.

Lemma clamp_nonneg d x : 0 <= d -> 0 <= clamp 0 d x.
Proof. intros H. apply (clamp_bounds 0 d x H). Qed.

Lemma scrub_time_nonneg r d x : 0 < Mapper.rwidth r -> 0 <= d -> 0 <= Mapper.scrub_time r d x.
Proof.
  intros Hw Hd. unfold Mapper.scrub_time. apply Qmult_le_0_compat; [|exact Hd].
  apply (proj1 (Mapper.div_bounds _ _ Hw (Mapper.scrub_x_bounds r x ltac:(lra)))).
Qed.

#[local] Hint Resolve wf_time wf_duration clamp_nonneg scrub_time_nonneg Qlt_le_weak : cc.

(** The invariant of the review screen: the element is well formed, the
    timeline has a width, the duration and the play-head are not negative,
    and [wasPlayingRef] is set only during a scrub. *)
Definition review_inv (s : @ReviewState M) : Prop :=
  (forall v, video s = Some v -> media_wf v) /\
  (forall r, timeline s = Some r -> 0 < Mapper.rwidth r) /\
  0 <= duration s /\ 0 <= currentTime s /\
  (wasPlaying s = true -> isScrubbing s = true).

Ltac inv_close :=
  unfold review_inv; rsimpl; split_and!;
  try (let v := fresh "v" in let H := fresh "Hv" in
       intros v H; simplify_eq/=; eauto 8 with cc; fail);
  try done; eauto 8 with cc;
  try (intros ?r ?Hr;
       match goal with Ht : forall _, _ -> 0 < Mapper.rwidth _ |- _ => apply Ht end;
       congruence);
  try (let Hx := fresh "Hx" in intros Hx;
       match goal with Hw : wasPlaying _ = true -> _ |- _ => pose proof (Hw Hx) end;
       congruence).

Lemma handleScrubMove_inv x (s : @ReviewState M) :
  review_inv s -> review_inv (handleScrubMove x s).
Proof.
  intros Hinv. pose proof Hinv as (Hm & Ht & Hd & Hc & Hw). unfold handleScrubMove.
  destruct (timeline s) as [r|] eqn:Hr; [|exact Hinv].
  destruct (video s) as [v|] eqn:Hv; [|exact Hinv].
  case_bool_decide; [|exact Hinv]. inv_close.
Qed.

Lemma inv_step a (s : @ReviewState M) :
  enabled a s = true -> review_inv s -> review_inv (apply_action a s).
Proof.
  intros Hen Hinv. pose proof Hinv as (Hm & Ht & Hd & Hc & Hw).
  destruct a; cbn [apply_action enabled] in *.
  - unfold onToggleCut. inv_close.
  - unfold previewCut. rsimpl. destruct (video s) as [v|] eqn:Hv; [|inv_close].
    destruct (m_paused _); inv_close.
  - unfold skip. destruct (video s) as [v|] eqn:Hv; inv_close.
  - unfold togglePlay, with_media. destruct (video s) as [v|] eqn:Hv; [|exact Hinv].
    destruct (isPlaying s); inv_close.
  - unfold handleScrubStart. destruct (timeline s) as [r|] eqn:Hr; [|exact Hinv].
    destruct (video s) as [v|] eqn:Hv; [|exact Hinv].
    apply handleScrubMove_inv. destruct (m_paused v); inv_close.
  - by apply handleScrubMove_inv.
  - unfold handleScrubEnd, with_media. destruct (isScrubbing s) eqn:Hsc; [|exact Hinv]. cbn.
    destruct (wasPlaying s); [|inv_close].
    destruct (video s) as [v|] eqn:Hv; inv_close.
  - unfold onTimelineHover. destruct (isScrubbing s) eqn:Hsc; [done|].
    destruct (timeline s) eqn:Htl; [|exact Hinv]. case_bool_decide; inv_close.
  - unfold onTimelineLeave. inv_close.
  - unfold checkTime. destruct (isScrubbing s) eqn:Hsc; [done|].
    destruct (video s) as [v|] eqn:Hv; [|exact Hinv].
    destruct (m_paused v); cbn.
    + destruct (negb _); inv_close.
    + destruct (previewEnd s); [case_bool_decide; [|case_match]|case_match]; inv_close.
  - unfold with_media. destruct (video s) as [v|] eqn:Hv; [|exact Hinv].
    apply bool_decide_eq_true in Hen. inv_close.
  - unfold onLoadedMetadata. destruct (video s) as [v|] eqn:Hv; inv_close.
  - unfold onPlay. inv_close.
  - unfold onPause. inv_close.
Qed.

Lemma scrub_moves_hold xs (s : @ReviewState M) :
  scrub_hold s ->
  let s' := fold_left (fun st y => handleScrubMove y st) xs s in
  scrub_hold s' /\ wasPlaying s' = wasPlaying s.
Proof.
  revert s. induction xs as [|x xs IH]; intros s Hh; cbn; [done|].
  destruct (IH (handleScrubMove x s) (scrub_hold_move x s Hh)) as [H1 H2].
  split; [done|]. rewrite H2. apply handleScrubMove_fields.
Qed.

Lemma handleScrubStart_wasPlaying x (s : @ReviewState M) r v :
  timeline s = Some r -> video s = Some v ->
  wasPlaying (handleScrubStart x s) = negb (m_paused v).
Proof.
  intros Hr Hv. unfold handleScrubStart. rewrite Hr, Hv.
  destruct (m_paused v); cbn; rewrite (proj1 (proj2 (proj2 (handleScrubMove_fields x _)))); done.
Qed.

(** The hypothesis "every accepted cut ends within [d]" by evaluation. *)
Lemma ends_within_check (cs : list CutEvent) d :
  forallb (fun c => implb (is_accepted c) (end_ c <=? d)) cs = true ->
  forall c, c ∈ cs -> status c = accepted -> end_ c <= d.
Proof.
  intros H c Hc Hs. apply forallb_forall with (x := c) in H; [|by apply list_elem_of_In].
  unfold is_accepted in H. rewrite Hs, bool_decide_true in H by done.
  cbn in H. by apply bool_decide_eq_true in H.
Qed.

End Lemmas.

(** ** Properties of the review screen *)

Section Properties.
Context {M : Type} {ME : MediaElement M} {ML : MediaLaws M}.

(** C7. Scrub precedence: once a scrub has started, no frame of the
    playback loop, no playback time and no media event moves the play-head
    or the element; the scrub's position is the one observed. *)
Theorem scrub_precedence x (s s' : @ReviewState M) r v acts :
  timeline s = Some r -> video s = Some v ->
  Forall (fun a => is_env a = true) acts ->
  run acts (handleScrubStart x s) = Some s' ->
  isScrubbing s' = true /\ currentTime s' = currentTime (handleScrubStart x s) /\
  video s' = video (handleScrubStart x s).
Proof.
  intros Hr Hv Hf Hrun.
  destruct (run_hold acts _ s' (handleScrubStart_hold x s r v Hr Hv) Hf Hrun)
    as ((Hs & _) & Ht & Hvid). auto.
Qed.

(** C6. A frame of normal playback whose position lies in an accepted cut
    seeks the element to the cut's end, keeps it playing, highlights the
    cut, and leaves the element outside that cut. *)
Theorem checkTime_skips (s : @ReviewState M) v c :
  isScrubbing s = false -> video s = Some v -> m_paused v = false ->
  previewEnd s = None -> media_wf v ->
  Skip.currentCut (cuts s) (m_currentTime v) = Some c -> end_ c <= m_duration v ->
  exists v', video (checkTime s) = Some v' /\ m_paused v' = false /\
    m_currentTime v' == end_ c /\ Skip.in_accepted_cut (m_currentTime v') c = false /\
    activeCutId (checkTime s) = Some (id c).
Proof.
  intros Hs Hv Hp He Hwf Hc Hle.
  destruct (Skip.currentCut_some _ _ _ Hc) as (_ & _ & Ht).
  rewrite (checkTime_playing s v Hs Hv Hp He), Hc. rsimpl.
  assert (Hseek : m_currentTime (m_seek (end_ c) v) == end_ c).
  { rewrite seek_time by (unfold media_wf in Hwf; lra). apply clamp_id.
    unfold media_wf in Hwf. lra. }
  eexists. split; [done|]. split; [by rewrite seek_paused|]. split; [exact Hseek|].
  split; [|done]. rewrite Hseek.
  destruct (Skip.in_accepted_cut (end_ c) c) eqn:E; [|done].
  apply Skip.in_accepted_cut_spec in E. lra.
Qed.

(** The frames of normal playback follow the abstract jump rule, with the
    element's invariants kept: the induction behind [frames_refine] and
    [frames_converge]. *)
Lemma frames_sim n (s : @ReviewState M) v :
  isScrubbing s = false -> video s = Some v -> m_paused v = false ->
  previewEnd s = None -> media_wf v ->
  (forall c, c ∈ cuts s -> status c = accepted -> end_ c <= m_duration v) ->
  exists v', video (frames n s) = Some v' /\ m_paused v' = false /\ media_wf v' /\
    m_duration v' = m_duration v /\
    m_currentTime v' == Skip.skip_chain (Skip.currentCut (cuts s)) n (m_currentTime v).
Proof.
  revert s v. induction n as [|n IH]; intros s v Hs Hv Hp He Hwf Hend.
  - exists v. cbn. split_and!; done.
  - cbn [frames Skip.skip_chain]. rewrite (checkTime_playing s v Hs Hv Hp He).
    destruct (Skip.currentCut (cuts s) (m_currentTime v)) as [c|] eqn:Hc.
    + destruct (Skip.currentCut_some _ _ _ Hc) as (Hin & Hst & Ht).
      pose proof (Hend c Hin Hst) as Hle. unfold media_wf in Hwf.
      assert (Hseek : m_currentTime (m_seek (end_ c) v) == end_ c)
        by (rewrite seek_time by lra; apply clamp_id; lra).
      edestruct (IH (set_video (Some (m_seek (end_ c) v))
                      (set_activeCutId (Some (id c)) (set_currentTime (m_currentTime v) s)))
                    (m_seek (end_ c) v)) as (v' & Hv' & Hp' & Hwf' & Hd' & Ht');
        [done | done | by rewrite seek_paused | done | | |].
      * unfold media_wf. rewrite Hseek, seek_duration. lra.
      * intros c' Hc' Hs'. rewrite seek_duration. apply Hend; done.
      * exists v'. rewrite seek_duration in Hd'. split_and!; try done.
        rewrite Ht'. apply skip_chain_proper. exact Hseek.
    + edestruct (IH (set_activeCutId (option_map id (Skip.upcomingCut (cuts s) (m_currentTime v)))
                      (set_currentTime (m_currentTime v) s)) v)
        as (v' & Hv' & Hp' & Hwf' & Hd' & Ht'); try done.
      exists v'. split_and!; try done. rewrite Ht'. cbn.
      by rewrite skip_chain_stop.
Qed.

(** C1. Refinement of the skip loop: [n] frames of the review screen with
    no playback in between move the element exactly as [n] steps of the
    abstract jump rule [Skip.skip_chain] with the code's first-match
    evaluator, provided the accepted cuts end within the media. *)
Theorem frames_refine n (s : @ReviewState M) v :
  isScrubbing s = false -> video s = Some v -> m_paused v = false ->
  previewEnd s = None -> media_wf v ->
  (forall c, c ∈ cuts s -> status c = accepted -> end_ c <= m_duration v) ->
  exists v', video (frames n s) = Some v' /\ m_paused v' = false /\ media_wf v' /\
    m_duration v' = m_duration v /\
    m_currentTime v' == Skip.skip_chain (Skip.currentCut (cuts s)) n (m_currentTime v).
Proof. exact (frames_sim n s v). Qed.

(** C2. The skip loop of the review screen terminates: after one frame per
    accepted cut the element's position lies in no accepted cut. *)
Corollary frames_converge (s : @ReviewState M) v :
  isScrubbing s = false -> video s = Some v -> m_paused v = false ->
  previewEnd s = None -> media_wf v ->
  (forall c, c ∈ cuts s -> status c = accepted -> end_ c <= m_duration v) ->
  exists v', video (frames (Skip.accepted_count (cuts s)) s) = Some v' /\
    m_paused v' = false /\ Skip.currentCut (cuts s) (m_currentTime v') = None.
Proof.
  intros Hs Hv Hp He Hwf Hend.
  destruct (frames_sim (Skip.accepted_count (cuts s)) s v Hs Hv Hp He Hwf Hend)
    as (v' & Hv' & Hp' & _ & _ & Ht).
  exists v'. split; [done|]. split; [done|]. rewrite Ht.
  apply Skip.currentCut_chain_done.
Qed.

(** C8. While a segment preview runs, a frame never moves the element:
    the skip policy is suppressed. *)
Theorem checkTime_preview_no_seek (s : @ReviewState M) b :
  previewEnd s = Some b ->
  option_map m_currentTime (video (checkTime s)) = option_map m_currentTime (video s).
Proof.
  intros He. unfold checkTime.
  destruct (isScrubbing s); [done|].
  destruct (video s) as [v|] eqn:Hv; [|by rewrite ?Hv].
  destruct (m_paused v); cbn.
  - destruct (isPlaying s); cbn; by rewrite ?Hv.
  - rewrite He. case_bool_decide; rsimpl; cbn; [by rewrite pause_time|].
    case_match; cbn; by rewrite ?Hv.
Qed.

(** C9. A segment preview ends: played forward by [dt > 0] per frame from
    before its bound [b], it stops, with the element paused at a position in
    [b, b + dt) and the bound cleared, once the frames have covered the
    distance to the bound, and it stays stopped. *)
Theorem preview_terminates n dt (s : @ReviewState M) v b :
  isScrubbing s = false -> video s = Some v -> m_paused v = false ->
  previewEnd s = Some b -> 0 < dt -> m_currentTime v < b -> b + dt < m_duration v ->
  b - m_currentTime v <= inject_Z (Z.of_nat n) * dt ->
  previewEnd (play_frames n dt s) = None /\
  exists v', video (play_frames n dt s) = Some v' /\ m_paused v' = true /\
    b <= m_currentTime v' < b + dt.
Proof.
  revert s v. induction n as [|n IH]; intros s v Hs Hv Hp He Hdt Hlt Hb Hn.
  - replace (inject_Z (Z.of_nat 0)) with 0 in Hn by reflexivity. lra.
  - cbn [play_frames].
    destruct (preview_frame dt s v b Hs Hv Hp He ltac:(lra) ltac:(lra))
      as (Hs' & v' & Hv' & Ht' & Hd' & Hcase).
    case_bool_decide as Hge; destruct Hcase as [He' Hp'].
    + destruct (play_frames_stopped n dt _ v' Hs' He' Hv' Hp') as [H1 H2].
      split; [done|]. exists v'. repeat split; [done | done | lra | lra].
    + apply Qnot_le_lt in Hge.
      apply (IH _ v'); try done; rewrite ?Hd'; try lra.
      rewrite inject_Z_succ in Hn. lra.
Qed.

(** C10. Every reachable state of the review screen satisfies the
    invariant: the element stays well formed, the duration and the
    play-head stay non-negative, and [wasPlayingRef] is set only while a
    scrub is in progress. *)
Theorem reachable_inv v0 r cs (s : @ReviewState M) :
  media_wf v0 -> 0 < Mapper.rwidth r -> reachable v0 r cs s -> review_inv s.
Proof.
  intros Hv Hr Hreach. induction Hreach as [|s s' _ IH Hstep].
  - unfold review_inv, initial. cbn. split_and!; intros; simplify_eq; auto; lra.
  - inversion Hstep; subst. by apply inv_step.
Qed.

(** C11. Releasing a scrub restores playback as it was: after a press, any
    drags and the release, the element is paused if it was paused before,
    and is asked to play from the scrubbed position if it was playing; the
    scrub flags are reset. *)
Theorem scrub_resume x xs (s : @ReviewState M) r v :
  timeline s = Some r -> video s = Some v ->
  let s1 := fold_left (fun st y => handleScrubMove y st) xs (handleScrubStart x s) in
  isScrubbing (handleScrubEnd s1) = false /\ wasPlaying (handleScrubEnd s1) = false /\
  exists v1, video s1 = Some v1 /\ m_paused v1 = true /\
    video (handleScrubEnd s1) = Some (if m_paused v then v1 else m_play v1).
Proof.
  intros Hr Hv s1.
  destruct (scrub_moves_hold xs _ (handleScrubStart_hold x s r v Hr Hv))
    as [(Hs & v1 & Hv1 & Hp1) Hw].
  rewrite (handleScrubStart_wasPlaying x s r v Hr Hv) in Hw.
  fold s1 in Hs, Hv1, Hw.
  unfold handleScrubEnd. rewrite Hs. cbn. rewrite Hw.
  destruct (m_paused v); cbn; [|unfold with_media; rsimpl; rewrite Hv1];
    rsimpl; (split; [done|]); (split; [done|]); exists v1; rewrite ?Hv1; done.
Qed.

End Properties.

(** ** A preview that reaches the end of the media *)

Section StuckPreview.

(** A one-minute video with an accepted cut at [2, 4) and an accepted cut
    ending within a second of the end. *)
Definition stuck_video : Video := mkVideo true 0 60 true.
Definition stuck_early : CutEvent := mkCut "cut-0" filler None 2 4 (9#10) accepted.
Definition stuck_late : CutEvent := mkCut "cut-1" filler None (117#2) (119#2) (9#10) accepted.
Definition stuck_state : @ReviewState Video :=
  initial stuck_video (Mapper.mkRect 0 600) [stuck_early; stuck_late].

(** Metadata, preview of the late cut (bound [min(60, 60.5) = 60]), one
    frame, playback to the end, a frame, the [pause] event, the play
    button, three seconds of playback and a frame. *)
Definition stuck_trace : list action :=
  [AMetadata; APreview stuck_late; AClock 1; AFrame; AClock 2; AFrame;
   APauseEvent; ATogglePlay; AClock 3; AFrame].

(** C12. A preview whose bound is the end of the media is never cleared:
    the element pauses at its end before a frame sees the bound, so
    [previewEndTimeRef] stays set; when the user plays again from the
    start, the skip policy stays suppressed and the accepted cut [2, 4) is
    played through. *)
Theorem preview_stuck_at_end :
  exists s', run stuck_trace stuck_state = Some s' /\
    previewEnd s' = Some 60 /\
    option_map v_time (video s') = Some 3 /\
    option_map v_paused (video s') = Some false /\
    Skip.currentCut (cuts s') 3 = Some stuck_early.
Proof. eexists. split; [vm_compute; reflexivity|]. vm_compute. auto. Qed.

End StuckPreview.

(** ** Concrete runs *)

Section Examples.

(** A one-minute video playing at 3 s, accepted cuts [2, 4) and
    [4, 4.5), a rejected cut [10, 12). *)
Definition ex_video : Video := mkVideo false 3 60 true.
Definition ex_cut_a : CutEvent := mkCut "cut-0" filler None 2 4 (9#10) accepted.
Definition ex_cut_b : CutEvent := mkCut "cut-1" stutter None 4 (9#2) (9#10) accepted.
Definition ex_cut_c : CutEvent := mkCut "cut-2" silence None 10 12 (9#10) rejected.
Definition ex_cuts : list CutEvent := [ex_cut_a; ex_cut_b; ex_cut_c].
Definition ex_state : @ReviewState Video :=
  mkReview (Some ex_video) (Some Mapper.ex_rect) true 3 60 None false None false None ex_cuts.

Lemma frames_refine_witness :
  exists v', video (frames 2 ex_state) = Some v' /\ m_paused v' = false /\ media_wf v' /\
    m_duration v' = m_duration ex_video /\
    m_currentTime v' == Skip.skip_chain (Skip.currentCut (cuts ex_state)) 2 (m_currentTime ex_video).
Proof.
  apply (frames_refine 2 ex_state ex_video);
    [reflexivity | reflexivity | reflexivity | reflexivity
    | unfold media_wf; decide_concrete | apply ends_within_check; vm_compute; reflexivity].
Defined.

Lemma frames_converge_witness :
  exists v', video (frames (Skip.accepted_count (cuts ex_state)) ex_state) = Some v' /\
    m_paused v' = false /\ Skip.currentCut (cuts ex_state) (m_currentTime v') = None.
Proof.
  apply (frames_converge ex_state ex_video);
    [reflexivity | reflexivity | reflexivity | reflexivity
    | unfold media_wf; decide_concrete | apply ends_within_check; vm_compute; reflexivity].
Defined.

Lemma checkTime_skips_witness :
  exists v', video (checkTime ex_state) = Some v' /\ m_paused v' = false /\
    m_currentTime v' == end_ ex_cut_a /\ Skip.in_accepted_cut (m_currentTime v') ex_cut_a = false /\
    activeCutId (checkTime ex_state) = Some (id ex_cut_a).
Proof.
  apply (checkTime_skips ex_state ex_video ex_cut_a);
    [reflexivity | reflexivity | reflexivity | reflexivity
    | unfold media_wf; decide_concrete | vm_compute; reflexivity | decide_concrete].
Defined.

Lemma scrub_precedence_witness :
  exists s', run [AFrame; AClock 1; AFrame] (handleScrubStart 300 ex_state) = Some s' /\
    isScrubbing s' = true /\ currentTime s' = currentTime (handleScrubStart 300 ex_state) /\
    video s' = video (handleScrubStart 300 ex_state).
Proof.
  eexists. split; [vm_compute; reflexivity|].
  apply (scrub_precedence 300 ex_state _ Mapper.ex_rect ex_video [AFrame; AClock 1; AFrame]);
    [reflexivity | reflexivity | repeat constructor | vm_compute; reflexivity].
Defined.

Lemma checkTime_preview_no_seek_witness :
  option_map m_currentTime (video (checkTime (set_previewEnd (Some 13) ex_state))) =
  option_map m_currentTime (video (set_previewEnd (Some 13) ex_state)).
Proof. apply (checkTime_preview_no_seek _ 13). reflexivity. Defined.

(** The spec's preview example: cut [10, 12) of a 100 s video. *)
Definition ex_spec_cut : CutEvent := mkCut "cut-0" filler None 10 12 (9#10) accepted.
Definition ex_preview : @ReviewState Video :=
  previewCut ex_spec_cut
    (onLoadedMetadata (initial (mkVideo true 0 100 true) Mapper.ex_rect [ex_spec_cut])).

Lemma preview_terminates_witness :
  previewEnd (play_frames 4 1 ex_preview) = None /\
  exists v', video (play_frames 4 1 ex_preview) = Some v' /\ m_paused v' = true /\
    13 <= m_currentTime v' < 13 + 1.
Proof.
  apply (preview_terminates 4 1 ex_preview (mkVideo false 9 100 true) 13);
    [reflexivity | vm_compute; reflexivity | reflexivity | vm_compute; reflexivity
    | decide_concrete | decide_concrete | decide_concrete | decide_concrete].
Defined.

Lemma reachable_inv_witness :
  review_inv (apply_action (AClock 1) (initial ex_video Mapper.ex_rect ex_cuts)).
Proof.
  apply (reachable_inv ex_video Mapper.ex_rect ex_cuts);
    [unfold media_wf; decide_concrete | decide_concrete
    | eapply reach_step; [apply reach_init | apply step_act; reflexivity]].
Defined.

Lemma scrub_resume_witness :
  isScrubbing (handleScrubEnd (fold_left (fun st y => handleScrubMove y st) [100; 200]
                                 (handleScrubStart 300 ex_state))) = false /\
  wasPlaying (handleScrubEnd (fold_left (fun st y => handleScrubMove y st) [100; 200]
                                 (handleScrubStart 300 ex_state))) = false /\
  exists v1, video (fold_left (fun st y => handleScrubMove y st) [100; 200]
                      (handleScrubStart 300 ex_state)) = Some v1 /\ m_paused v1 = true /\
    video (handleScrubEnd (fold_left (fun st y => handleScrubMove y st) [100; 200]
                             (handleScrubStart 300 ex_state))) =
    Some (if m_paused ex_video then v1 else m_play v1).
Proof. apply (scrub_resume 300 [100; 200] ex_state Mapper.ex_rect ex_video); reflexivity. Defined.

End Examples.

End Review.
