(* ===== verification/Metrics.v ===== *)
(** The metrics of an edit: [calculateMetrics] of the App component
    ([src/unnamed/part_000], lines 127-136), the [stats] memo of
    [ReviewPhase.tsx] (lines 252-256), and the figures the offline report of
    [generateEditingReport] computes ([geminiService.ts], lines 22-26 and
    42).  Sums are [reduce] from 0, i.e. [fold_left]. *)

From S2P Require Import Prelude Types SkipPolicy Mapper.

Module Metrics.

Definition cut_length (c : CutEvent) : Q := end_ c - start c.

(** [cuts.reduce((acc, c) => acc + (c.end - c.start), 0)] *)
Definition sum_lengths (cs : list CutEvent) : Q :=
  fold_left (fun acc c => acc + cut_length c) cs 0.

Definition accepted_cuts (cs : list CutEvent) : list CutEvent :=
  List.filter is_accepted cs.

(** [calculateMetrics] (App, lines 127-136). *)
Definition calculateMetrics (cs : list CutEvent) (originalDuration : Q) : ProcessingMetrics :=
  let acceptedCuts := accepted_cuts cs in
  let timeSaved := sum_lengths acceptedCuts in
  mkMetrics originalDuration (originalDuration - timeSaved) (length acceptedCuts) timeSaved.

(** [stats] of [ReviewPhase] (lines 252-256): [{ count, timeSaved }]. *)
Definition stats (cs : list CutEvent) : nat * Q :=
  let accepted := accepted_cuts cs in
  (length accepted, sum_lengths accepted).

(** [cuts.filter(c => c.type === t).length] (geminiService, lines 22-26). *)
Definition count_type (t : CutType) (cs : list CutEvent) : nat :=
  length (List.filter (fun c => bool_decide (type c = t)) cs).

(** The five counts of the report, in the order of lines 22-26. *)
Definition report_counts (cs : list CutEvent) : nat * nat * nat * nat * nat :=
  (count_type filler cs, count_type cliche cs, count_type silence cs,
   count_type repetition cs, count_type stutter cs).

(** The percentage of the offline report (line 42):
    [(cuts.reduce(... c.end - c.start ...) / duration) * 100]. *)
Definition report_percent (cs : list CutEvent) (duration : Q) : option Q :=
  Mapper.percent (sum_lengths cs) duration.

(** ** Lemmas *)

Lemma fold_sum_shift cs a :
  fold_left (fun acc c => acc + cut_length c) cs a ==
  a + fold_left (fun acc c => acc + cut_length c) cs 0.
Proof.
  revert a. induction cs as [|c cs IH]; intros a; cbn; [lra|].
  rewrite (IH (a + cut_length c)), (IH (0 + cut_length c)). lra.
Qed.

Lemma sum_lengths_cons c cs : sum_lengths (c :: cs) == cut_length c + sum_lengths cs.
Proof. unfold sum_lengths. cbn. rewrite fold_sum_shift. lra. Qed.

Lemma sum_lengths_nonneg cs : Forall cut_wf cs -> 0 <= sum_lengths cs.
Proof.
  induction 1 as [|c cs Hc _ IH]; [unfold sum_lengths; cbn; lra|].
  rewrite sum_lengths_cons. unfold cut_wf, cut_length in *. lra.
Qed.

Lemma toggle_cons cid st c cs :
  toggleCutStatus cid st (c :: cs) =
  (if String.eqb (id c) cid then set_status st c else c) :: toggleCutStatus cid st cs.
Proof. reflexivity. Qed.

(** Toggling an id that no cut carries changes nothing. *)
Lemma toggle_absent cid st cs :
  cid ∉ map id cs -> toggleCutStatus cid st cs = cs.
Proof.
  induction cs as [|c cs IH]; intros H; [done|]. rewrite toggle_cons.
  cbn in H. rewrite not_elem_of_cons in H. destruct H as [Hne Hn].
  destruct (String.eqb_spec (id c) cid); [congruence|]. by rewrite IH.
Qed.

(** The accepted cuts and their total length after accepting cut [c],
    whose id is unique. *)
Lemma accept_effect c cs :
  NoDup (map id cs) -> c ∈ cs -> status c = rejected ->
  length (accepted_cuts (toggleCutStatus (id c) accepted cs)) = S (length (accepted_cuts cs)) /\
  sum_lengths (accepted_cuts (toggleCutStatus (id c) accepted cs)) ==
    cut_length c + sum_lengths (accepted_cuts cs).
Proof.
  induction cs as [|x cs IH]; intros Hnd Hin Hst; [set_solver|].
  cbn in Hnd. apply NoDup_cons in Hnd as [Hx Hnd].
  rewrite toggle_cons.
  destruct (String.eqb_spec (id x) (id c)) as [Heq|Hne].
  - assert (x = c) as ->.
    { apply elem_of_cons in Hin as [->|Hin]; [done|].
      exfalso. apply Hx. rewrite Heq. by apply list_elem_of_fmap_2. }
    rewrite toggle_absent by done.
    assert (Ha : is_accepted c = false) by (unfold is_accepted; by rewrite Hst).
    unfold accepted_cuts. cbn [List.filter]. rewrite Ha.
    replace (is_accepted (set_status accepted c)) with true by done.
    split; [done|]. rewrite sum_lengths_cons. unfold cut_length. cbn. lra.
  - apply elem_of_cons in Hin as [->|Hin]; [done|].
    destruct (IH Hnd Hin Hst) as [H1 H2].
    unfold accepted_cuts in *. cbn [List.filter]. destruct (is_accepted x) eqn:Ha; cbn [length].
    + rewrite H1. split; [done|]. rewrite !sum_lengths_cons, H2. lra.
    + done.
Qed.

(** ** Properties *)

(** C18. Accepting a rejected cut whose id is unique raises the cut count by
    one and the time saved by the cut's length, and lowers the final
    duration by as much. *)
Theorem accept_updates_metrics c cs d :
  NoDup (map id cs) -> c ∈ cs -> status c = rejected ->
  let m := calculateMetrics cs d in
  let m' := calculateMetrics (toggleCutStatus (id c) accepted cs) d in
  cutsCount m' = S (cutsCount m) /\ timeSaved m' == timeSaved m + cut_length c /\
  finalDuration m' == finalDuration m - cut_length c.
Proof.
  intros Hnd Hin Hst. destruct (accept_effect c cs Hnd Hin Hst) as [H1 H2].
  cbn. rewrite H1, H2. split; [done|]. split; lra.
Qed.

(** The spec's example (section 8). *)
Definition spec_cuts : list CutEvent :=
  [mkCut "a" filler None 2 4 (9#10) accepted;
   mkCut "b" filler None 10 (21#2) (9#10) accepted;
   mkCut "c" filler None 20 21 (9#10) rejected].

(** On the spec's example the metrics are a time saved of 2.5 s, two
    cuts and a final duration of 57.5 s. *)
Theorem metrics_example :
  let m := calculateMetrics spec_cuts 60 in
  timeSaved m == 5#2 /\ cutsCount m = 2%nat /\ finalDuration m == 115#2.
Proof. vm_compute. split_and!; reflexivity. Qed.

Lemma accept_updates_metrics_witness :
  cutsCount (calculateMetrics (toggleCutStatus "c" accepted spec_cuts) 60) =
    S (cutsCount (calculateMetrics spec_cuts 60)) /\
  timeSaved (calculateMetrics (toggleCutStatus "c" accepted spec_cuts) 60) ==
    timeSaved (calculateMetrics spec_cuts 60) + cut_length (mkCut "c" filler None 20 21 (9#10) rejected) /\
  finalDuration (calculateMetrics (toggleCutStatus "c" accepted spec_cuts) 60) ==
    finalDuration (calculateMetrics spec_cuts 60) - cut_length (mkCut "c" filler None 20 21 (9#10) rejected).
Proof.
  apply (accept_updates_metrics (mkCut "c" filler None 20 21 (9#10) rejected) spec_cuts 60);
    [decide_concrete | decide_concrete | reflexivity].
Defined.

(** Two overlapping accepted cuts. *)
Definition overlapping : list CutEvent :=
  [mkCut "a" filler None 2 4 (9#10) accepted;
   mkCut "b" silence None 3 5 (9#10) accepted].

(** C19. Overlapping accepted cuts are counted twice: [2,4) and [3,5)
    report 4 s saved, while the playback skips from 2 straight to 5,
    removing 3 s. *)
Theorem overlap_double_counted :
  timeSaved (calculateMetrics overlapping 60) == 4 /\
  Skip.skip_chain (Skip.currentCut overlapping) (Skip.accepted_count overlapping) 2 == 5.
Proof. vm_compute. split; reflexivity. Qed.

(** A rejected filler: the user kept it. *)
Definition kept_filler : list CutEvent := [mkCut "a" filler None 2 4 (9#10) rejected].

(** The offline report counts every detected cut, rejected ones
    included: for one rejected filler it reports one filler removed and
    a duration 3.33% shorter, while the metrics count no cut. *)
Theorem report_counts_rejected :
  report_counts kept_filler = (1, 0, 0, 0, 0)%nat /\
  option_map Qred (report_percent kept_filler 60) = Some (10#3) /\
  cutsCount (calculateMetrics kept_filler 60) = 0%nat.
Proof. vm_compute. split_and!; reflexivity. Qed.

End Metrics.
