(* ===== verification/Report.v ===== *)
(** The editing report [generateEditingReport] of
    [src/services/geminiService.ts] (lines 7-56): the client [getAI]
    exists only with a non-empty [process.env.API_KEY]; the prompt and the
    offline text are built from the five counts of [Metrics.report_counts]
    and the share of the duration the cuts cover; with a client the text
    is the service's answer, [response.text || "Video optimization
    complete."], and a thrown error gives a fixed apology.

    The service is outside the program: it is a parameter [gen] from the
    model name and the prompt to an [outcome] (an answer with or without
    [text], or a rejected promise).  The [console] messages are not
    modelled. *)

From stdpp Require Import pretty.
From S2P Require Import Prelude Types Format Metrics.

Module Report.

Import Format.

(** The answer of [ai.models.generateContent]: a response whose [text]
    may be missing, or a rejected promise. *)
Inductive outcome := Responded (text : option string) | Threw.

(** [getAI()]: a client when [process.env.API_KEY] is set and not empty. *)
Definition getAI (api_key : option string) : option string :=
  match api_key with
  | Some k => if decide (k = "") then None else Some k
  | None => None
  end.

Definition nat_text (n : nat) : string := pretty n.

(** [((cuts.reduce((acc, c) => acc + (c.end - c.start), 0) / duration) * 100).toFixed(1)] *)
Definition percent_text (cuts : list CutEvent) (duration : Q) : option string :=
  toFixed 1 (mulq (div (Metrics.sum_lengths cuts) duration) 100).

(** The prompt (lines 28-39). *)
Definition prompt (cuts : list CutEvent) (duration : Q) : option string :=
  let '(fillers, cliches, silences, repetitions, stutters) := Metrics.report_counts cuts in
  d ← toFixed 0 (Fin duration);
  Some ("
    You are a professional video editor assistant. I have just processed a video of " +:+ d +:+ " seconds.
    I automatically removed the following:
    - " +:+ nat_text fillers +:+ " filler words (like 'um', 'uh')
    - " +:+ nat_text cliches +:+ " clichés (like 'at the end of the day', 'hallelujah')
    - " +:+ nat_text silences +:+ " awkward long silences
    - " +:+ nat_text repetitions +:+ " unintentional phrase repetitions (like 'I mean, I mean')
    - " +:+ nat_text stutters +:+ " stuttering words (like 'th-th-the')

    Please write a short, punchy, and encouraging summary (max 3 sentences) for the user about how much clearer and more professional their video sounds now. 
    Focus on the audience impact (engagement, retention) and flow. Do not use markdown.
  ").

(** The text without a client (line 42). *)
Definition fallback (cuts : list CutEvent) (duration : Q) : option string :=
  let '(fillers, cliches, _, repetitions, stutters) := Metrics.report_counts cuts in
  p ← percent_text cuts duration;
  Some ("Analysis complete! We removed " +:+ nat_text fillers +:+ " fillers, " +:+
        nat_text cliches +:+ " clichés, " +:+ nat_text repetitions +:+ " repetitions, and " +:+
        nat_text stutters +:+ " stutters to make your video " +:+ p +:+ "% more concise.").

Definition default_text : string := "Video optimization complete.".
Definition error_text : string :=
  "Video processed successfully. Your content is now more concise and engaging.".

(** [response.text || "Video optimization complete."]: a missing or empty
    text is falsy. *)
Definition answer_text (text : option string) : string :=
  match text with
  | Some t => if decide (t = "") then default_text else t
  | None => default_text
  end.

(** [generateEditingReport(cuts, duration)], resolved.  [None] only where
    a number printed is beyond what the model prints (10^21). *)
Definition generateEditingReport (api_key : option string) (gen : string -> string -> outcome)
    (cuts : list CutEvent) (duration : Q) : option string :=
  p ← prompt cuts duration;
  match getAI api_key with
  | None => fallback cuts duration
  | Some _ =>
      match gen "gemini-2.5-flash" p with
      | Responded text => Some (answer_text text)
      | Threw => Some error_text
      end
  end.

(** ** Lemmas *)

Lemma prompt_some cuts d : Qabs d < inject_Z (10 ^ 21) -> is_Some (prompt cuts d).
Proof.
  intros H. unfold prompt. destruct (Metrics.report_counts cuts) as [[[[? ?] ?] ?] ?].
  destruct (toFixed_fin_some 0 d H) as [t ->]. by eexists.
Qed.

Lemma answer_text_nonempty text : answer_text text <> "".
Proof. destruct text as [t|]; cbn; [case_decide; [done|] |]; done. Qed.

Lemma fallback_nonempty cuts d t : fallback cuts d = Some t -> t <> "".
Proof.
  unfold fallback. destruct (Metrics.report_counts cuts) as [[[[? ?] ?] ?] ?].
  destruct (percent_text cuts d); cbn; [|done]. intros [= <-]. done.
Qed.

Lemma percent_text_zero cuts :
  percent_text cuts 0 = Some (if decide (Metrics.sum_lengths cuts == 0) then "NaN"
                              else if Metrics.sum_lengths cuts <? 0 then "-Infinity" else "Infinity").
Proof.
  unfold percent_text, div. rewrite decide_True by reflexivity.
  case_decide; [done|]. case_bool_decide; cbn; rewrite decide_False by (vm_compute; discriminate);
    rewrite bool_decide_false by (vm_compute; discriminate); done.
Qed.

(** ** Properties *)

(** C21. The report shown on the processing screen is never empty:
    whatever the service does (an answer with an empty or missing text,
    or an exception), and without a key, [generateEditingReport]
    resolves to a non-empty text, wherever its numbers are printable. *)
Theorem report_never_empty key gen cuts d :
  Qabs d < inject_Z (10 ^ 21) -> is_Some (percent_text cuts d) ->
  exists t, generateEditingReport key gen cuts d = Some t /\ t <> "".
Proof.
  intros Hd Hp. unfold generateEditingReport.
  destruct (prompt_some cuts d Hd) as [p ->]. cbn [mbind option_bind].
  destruct (getAI key).
  - destruct (gen _ p); eexists; (split; [reflexivity|]);
      [apply answer_text_nonempty | unfold error_text; done].
  - destruct (fallback cuts d) as [t|] eqn:E.
    + exists t. split; [done|]. by apply (fallback_nonempty cuts d).
    + exfalso. unfold fallback in E. destruct (Metrics.report_counts cuts) as [[[[? ?] ?] ?] ?].
      destruct Hp as [q Hq]. rewrite Hq in E. discriminate.
Qed.

(** With a duration of 0 (before the video's metadata loads) the
    offline report divides by zero: its percentage prints as [NaN] when
    the cuts cover no time and as [Infinity] when they do. *)
Theorem fallback_zero_duration cuts :
  exists pct, fallback cuts 0 = Some ("Analysis complete! We removed " +:+
      nat_text (Metrics.count_type filler cuts) +:+ " fillers, " +:+
      nat_text (Metrics.count_type cliche cuts) +:+ " clichés, " +:+
      nat_text (Metrics.count_type repetition cuts) +:+ " repetitions, and " +:+
      nat_text (Metrics.count_type stutter cuts) +:+ " stutters to make your video " +:+ pct +:+ "% more concise.") /\
    pct ∈ ["NaN"; "Infinity"; "-Infinity"].
Proof.
  unfold fallback. cbn [Metrics.report_counts]. rewrite percent_text_zero.
  eexists. split; [reflexivity|]. repeat case_match; set_solver.
Qed.

(** ** Findings on concrete inputs *)

Definition one_silence : list CutEvent := [mkCut "s" silence None 0 6 (9#10) accepted].

(** The offline report names fillers, clichés, repetitions and
    stutters but not silences: a video whose only cut is a 6 s silence is
    reported as "0 fillers, 0 clichés, 0 repetitions, and 0 stutters" and
    yet 10.0% more concise. *)
Theorem fallback_omits_silences :
  generateEditingReport None (fun _ _ => Threw) one_silence 60 =
  Some "Analysis complete! We removed 0 fillers, 0 clichés, 0 repetitions, and 0 stutters to make your video 10.0% more concise.".
Proof. vm_compute. reflexivity. Qed.

(** C20. The offline report counts every detected cut, rejected ones
    included, while the metrics count only accepted cuts: for one
    rejected filler on a 60 s video it reports one filler removed and a
    video 3.3% more concise, and the metrics no cut at all. *)
Theorem report_text_counts_rejected :
  generateEditingReport None (fun _ _ => Threw) Metrics.kept_filler 60 =
  Some "Analysis complete! We removed 1 fillers, 0 clichés, 0 repetitions, and 0 stutters to make your video 3.3% more concise." /\
  cutsCount (Metrics.calculateMetrics Metrics.kept_filler 60) = 0%nat.
Proof. vm_compute. split; reflexivity. Qed.

(** ** Witnesses *)

Lemma report_never_empty_witness :
  exists t, generateEditingReport (Some "key") (fun _ _ => Responded (Some "")) one_silence 60 = Some t /\ t <> "".
Proof. apply report_never_empty; [decide_concrete | by eexists]. Defined.

End Report.
