(* ===== verification/Analysis.v ===== *)
(** The mock analysis service [analyzeVideoMock] of
    [src/services/geminiService.ts] (lines 62-120): it invents
    [max(5, floor(duration/10))] cuts from calls to [Math.random()], rounds
    their bounds with [toFixed(2)] and sorts them by start.  The random
    numbers are an explicit stream [rnd : nat -> Q] read through a small
    state monad ([Rand]) whose state is the index of the next draw, so
    every call of [Math.random()] in the source is one [random] here, in
    the same order.  The sort is a stable insertion sort on [start], as
    [Array.prototype.sort] is stable (stdpp's [merge_sort] puts later
    elements first on ties). *)

From stdpp Require Import sorting pretty.
From S2P Require Import Prelude Types Format.

Declare Scope rand_scope.
Delimit Scope rand_scope with rand.

Module Analysis.

(** ** The random-draw monad *)

Section Rand.
Context (rnd : nat -> Q).

Definition Rand (A : Type) : Type := nat -> A * nat.

Definition ret {A} (a : A) : Rand A := fun k => (a, k).

Definition bind {A B} (m : Rand A) (f : A -> Rand B) : Rand B :=
  fun k => let '(a, k') := m k in f a k'.

(** [Math.random()] *)
Definition random : Rand Q := fun k => (rnd k, S k).

End Rand.

Notation "x <- m ;; f" := (bind m (fun x => f))
  (at level 65, m at next level, right associativity) : rand_scope.
Open Scope rand_scope.

(** ** Rounding and indexing as JS does them *)

(** [parseFloat(x.toFixed(2))] for [x >= 0]: the integer [n] nearest to
    [100 x], the larger one on a tie, over 100. *)
Definition round2_nonneg (x : Q) : Q := inject_Z (Qfloor (x * 100 + (1#2))) / 100.

(** [toFixed] of a negative number is ["-"] followed by [toFixed] of its
    opposite. *)
Definition to_fixed2 (x : Q) : Q :=
  if x <? 0 then - round2_nonneg (- x) else round2_nonneg x.

(** [arr[i]]: [undefined] ([None]) outside the array. *)
Definition js_index {A} (arr : list A) (i : Z) : option A :=
  if (i <? 0)%Z then None else arr !! Z.to_nat i.

Section Gen.
Context (rnd : nat -> Q).

(** [arr[Math.floor(Math.random() * arr.length)]] *)
Definition pick (arr : list string) : Rand (option string) :=
  r <- random rnd ;; ret (js_index arr (Qfloor (r * inject_Z (Z.of_nat (length arr))))).

Definition fillers : list string := ["Um"; "Uh"; "Like"; "You know"; "Er"].
Definition cliches : list string :=
  ["At the end of the day"; "To be honest"; "Hallelujah"; "Literally"; "Basically"].
Definition reps : list string :=
  ["I mean, I mean"; "You know, you know"; "It's just, it's just"; "I was, I was";
   "Basically, basically"].
Definition stutters : list string :=
  ["Th-th-the"; "P-p-please"; "W-w-what"; "B-b-but"; "I-I"; "We-we"].

(** The [if/else if] chain on [typeRoll] (lines 78-106): the type, the word
    and the length of the cut. *)
Definition classify (typeRoll : Q) : Rand (CutType * option string * Q) :=
  if typeRoll <? 35#100 then w <- pick fillers ;; ret (filler, w, 2#5)
  else if typeRoll <? 55#100 then w <- pick cliches ;; ret (cliche, w, 6#5)
  else if typeRoll <? 70#100 then w <- pick reps ;; ret (repetition, w, 1)
  else if typeRoll <? 85#100 then w <- pick stutters ;; ret (stutter, w, 1#2)
  else ret (silence, Some "(Silence)", 2).

(** [`cut-${i}`] *)
Definition cut_name (i : nat) : string := "cut-" +:+ pretty i.

(** One iteration of the loop (lines 70-116). *)
Definition gen_cut (duration : Q) (i : nat) : Rand CutEvent :=
  r <- random rnd ;;
  let start := r * (duration - 5) in
  typeRoll <- random rnd ;;
  twl <- classify typeRoll ;;
  let '(type, word, length) := twl in
  rc <- random rnd ;;
  ret (mkCut (cut_name i) type word (to_fixed2 start) (to_fixed2 (start + length))
             ((4#5) + rc * (19#100)) accepted).

(** [for (let i = first; i < first + n; i++) cuts.push(...)] *)
Fixpoint gen_cuts (duration : Q) (i n : nat) : Rand (list CutEvent) :=
  match n with
  | O => ret []
  | S n' => c <- gen_cut duration i ;; cs <- gen_cuts duration (S i) n' ;; ret (c :: cs)
  end.

(** [Math.max(5, Math.floor(duration / 10))] *)
Definition numberOfCuts (duration : Q) : Z := Z.max 5 (Qfloor (duration / 10)).

(** [cuts.sort((a, b) => a.start - b.start)] (line 119).  The sort of JS
    is stable: an element goes after the elements of equal start that came
    before it.  Insertion from the back: [x] goes before the first element
    that does not start earlier. *)
Definition start_le (a b : CutEvent) : Prop := start a <= start b.

Fixpoint insert_by_start (x : CutEvent) (l : list CutEvent) : list CutEvent :=
  match l with
  | [] => [x]
  | y :: l' => if start x <=? start y then x :: y :: l' else y :: insert_by_start x l'
  end.

Fixpoint sort_by_start (l : list CutEvent) : list CutEvent :=
  match l with
  | [] => []
  | x :: l' => insert_by_start x (sort_by_start l')
  end.

(** [analyzeVideoMock] (lines 62-120), the network delay apart. *)
Definition analyzeVideoMock (duration : Q) : Rand (list CutEvent) :=
  cuts <- gen_cuts duration 0 (Z.to_nat (numberOfCuts duration)) ;;
  ret (sort_by_start cuts).

End Gen.

(** ** Lemmas *)

(** Division by the constant 100, which [lra] reads as a product. *)
Lemma div100 (x : Q) : x / 100 == x * (1#100).
Proof. reflexivity. Qed.

Lemma round2_nonneg_bounds x : x - (1#200) < round2_nonneg x <= x + (1#200).
Proof.
  unfold round2_nonneg. rewrite div100.
  pose proof (Qfloor_bounds (x * 100 + (1#2))). lra.
Qed.

Lemma round2_nonneg_nonneg x : 0 <= x -> 0 <= round2_nonneg x.
Proof.
  intros H. unfold round2_nonneg. rewrite div100.
  assert (0 <= inject_Z (Qfloor (x * 100 + (1#2)))).
  { change 0 with (inject_Z 0). rewrite <- Zle_Qle. apply Qfloor_nonneg. lra. }
  lra.
Qed.

(** Adding a whole number of hundredths commutes with the rounding. *)
Lemma round2_nonneg_shift x len (m : Z) :
  len * 100 == inject_Z m -> round2_nonneg (x + len) == round2_nonneg x + len.
Proof.
  intros Hm. unfold round2_nonneg.
  rewrite (Qfloor_comp ((x + len) * 100 + (1#2)) ((x * 100 + (1#2)) + inject_Z m))
    by (rewrite <- Hm; ring).
  rewrite Qfloor_shift, inject_Z_plus, <- Hm, !div100. ring.
Qed.

Lemma to_fixed2_nonneg x : 0 <= x -> to_fixed2 x = round2_nonneg x.
Proof. intros H. unfold to_fixed2. rewrite bool_decide_false; [done | lra]. Qed.

Lemma pick_some rnd arr k :
  draws_ok rnd -> arr <> [] -> exists w, fst (pick rnd arr k) = Some w.
Proof.
  intros Hr Ha. unfold pick, bind, random, ret, js_index. cbn [fst].
  set (n := inject_Z (Z.of_nat (length arr))).
  assert (Hn : 0 < n).
  { unfold n. change 0 with (inject_Z 0). rewrite <- Zlt_Qlt.
    destruct arr; [done | cbn; lia]. }
  destruct (Hr k) as [H0 H1].
  assert (Hlo : (0 <= Qfloor (rnd k * n))%Z) by (apply Qfloor_nonneg, Qmult_le_0_compat; lra).
  assert (Hhi : (Qfloor (rnd k * n) < Z.of_nat (length arr))%Z).
  { apply Qfloor_lt. fold n. rewrite <- (Qmult_1_l n) at 2.
    apply Qmult_lt_compat_r; lra. }
  rewrite (proj2 (Z.ltb_ge _ _)) by lia.
  apply lookup_lt_is_Some_2. lia.
Qed.

(** The five outcomes of the type roll. *)
Lemma classify_spec rnd r k :
  draws_ok rnd ->
  exists t w len k', classify rnd r k = ((t, Some w, len), k') /\
    (len = 2#5 \/ len = 6#5 \/ len = 1 \/ len = 1#2 \/ len = 2).
Proof.
  intros Hr. unfold classify.
  repeat match goal with
         | |- context [if bool_decide ?P then _ else _] => destruct (bool_decide P)
         end;
  try (eexists _, _, _, _; split; [reflexivity | tauto]);
  match goal with
  | |- context [pick rnd ?arr] =>
      destruct (pick_some rnd arr k Hr ltac:(discriminate)) as [w Hw];
      unfold bind; destruct (pick rnd arr k) as [o k'] eqn:E; cbn in Hw; subst o;
      eexists _, w, _, k'; split; [reflexivity | tauto]
  end.
Qed.

Lemma length_hundredths (len : Q) :
  len = 2#5 \/ len = 6#5 \/ len = 1 \/ len = 1#2 \/ len = 2 ->
  0 < len <= 2 /\ exists m : Z, len * 100 == inject_Z m.
Proof.
  intros H; repeat destruct H as [->|H]; subst; (split; [lra|]);
    [exists 40%Z | exists 120%Z | exists 100%Z | exists 50%Z | exists 200%Z]; reflexivity.
Qed.


Lemma gen_cut_id rnd d i k :
  id (fst (gen_cut rnd d i k)) = cut_name i /\ status (fst (gen_cut rnd d i k)) = accepted.
Proof.
  unfold gen_cut, bind, random. cbn -[classify].
  by destruct (classify rnd (rnd (S k)) (S (S k))) as [[[t w] len] k'].
Qed.

(** One generated cut: a word, a confidence in [0.8, 0.99), and, when the
    duration is at least 5 s, bounds with [0 <= start < end <= duration]. *)
Lemma gen_cut_spec rnd d i k :
  draws_ok rnd ->
  let c := fst (gen_cut rnd d i k) in
  word c <> None /\ 4#5 <= confidence c < 99#100 /\
  (5 <= d -> 0 <= start c /\ start c < end_ c /\ end_ c <= d).
Proof.
  intros Hr. unfold gen_cut, bind, random. cbn -[classify to_fixed2].
  destruct (classify_spec rnd (rnd (S k)) (S (S k)) Hr) as (t & w & len & k' & -> & Hlen).
  destruct (length_hundredths len Hlen) as [Hl [m Hm]].
  cbn -[to_fixed2]. destruct (Hr k) as [H0 H1]. destruct (Hr k') as [H2 H3].
  split; [discriminate|]. split; [lra|]. intros Hd.
  assert (Hs : 0 <= rnd k * (d - 5) <= d - 5).
  { split; [apply Qmult_le_0_compat; lra|].
    rewrite <- (Qmult_1_l (d - 5)) at 2. apply Qmult_le_compat_r; lra. }
  rewrite !to_fixed2_nonneg by lra.
  rewrite (round2_nonneg_shift _ len m Hm).
  pose proof (round2_nonneg_bounds (rnd k * (d - 5))).
  pose proof (round2_nonneg_nonneg (rnd k * (d - 5))). lra.
Qed.

Lemma gen_cuts_cons rnd d i n k :
  fst (gen_cuts rnd d i (S n) k) =
  fst (gen_cut rnd d i k) :: fst (gen_cuts rnd d (S i) n (snd (gen_cut rnd d i k))).
Proof.
  cbn [gen_cuts]. unfold bind at 1. destruct (gen_cut rnd d i k) as [c k1]. cbn.
  unfold bind. by destruct (gen_cuts rnd d (S i) n k1).
Qed.

Lemma gen_cuts_length rnd d i n k : length (fst (gen_cuts rnd d i n k)) = n.
Proof.
  revert i k. induction n as [|n IH]; intros i k; [done|].
  rewrite gen_cuts_cons. cbn [length]. by rewrite IH.
Qed.

Lemma gen_cuts_ids rnd d i n k :
  map id (fst (gen_cuts rnd d i n k)) = map cut_name (seq i n).
Proof.
  revert i k. induction n as [|n IH]; intros i k; [done|].
  rewrite gen_cuts_cons. cbn [map seq]. rewrite IH. f_equal. apply gen_cut_id.
Qed.

Lemma gen_cuts_Forall rnd d i n k (P : CutEvent -> Prop) :
  (forall j k', P (fst (gen_cut rnd d j k'))) -> Forall P (fst (gen_cuts rnd d i n k)).
Proof.
  intros HP. revert i k. induction n as [|n IH]; intros i k; [constructor|].
  rewrite gen_cuts_cons. constructor; [apply HP | apply IH].
Qed.

#[export] Instance cut_name_inj : Inj (=) (=) cut_name.
Proof. intros x y H. unfold cut_name in H. apply (inj (String.app "cut-")) in H. by apply (inj pretty). Qed.

(** ** The sort *)

Lemma insert_by_start_perm x l : insert_by_start x l ≡ₚ x :: l.
Proof.
  induction l as [|y l IH]; cbn; [done|]. case_bool_decide; [done|].
  rewrite IH. by constructor.
Qed.

Lemma sort_by_start_perm l : sort_by_start l ≡ₚ l.
Proof. induction l as [|x l IH]; cbn; [done|]. by rewrite insert_by_start_perm, IH. Qed.

Lemma HdRel_insert_by_start y x l :
  HdRel start_le y l -> start_le y x -> HdRel start_le y (insert_by_start x l).
Proof.
  destruct l as [|z l]; cbn; intros Hy Hyx; [by constructor|].
  case_bool_decide; constructor; [done|]. by inversion Hy.
Qed.

Lemma insert_by_start_sorted x l : Sorted start_le l -> Sorted start_le (insert_by_start x l).
Proof.
  induction 1 as [|y l Hl IH Hy]; cbn; [by repeat constructor|].
  case_bool_decide as Hxy; constructor; [by constructor | by constructor | done |].
  apply HdRel_insert_by_start; [done|]. unfold start_le. apply Qlt_le_weak, Qnot_le_lt, Hxy.
Qed.

Lemma sort_by_start_sorted l : Sorted start_le (sort_by_start l).
Proof. induction l as [|x l IH]; cbn; [constructor|]. by apply insert_by_start_sorted. Qed.

(** The cuts that start at a given time, in order. *)
Definition starting_at (t : Q) (l : list CutEvent) : list CutEvent :=
  List.filter (fun c => bool_decide (start c == t)) l.

Lemma insert_by_start_stable t x l :
  starting_at t (insert_by_start x l) = starting_at t (x :: l).
Proof.
  unfold starting_at. induction l as [|y l IH]; cbn; [done|].
  case_bool_decide as Hxy; [done|]. cbn. rewrite IH. cbn.
  apply Qnot_le_lt in Hxy.
  do 2 case_bool_decide; try done. lra.
Qed.


Lemma sort_by_start_stable t l : starting_at t (sort_by_start l) = starting_at t l.
Proof.
  induction l as [|x l IH]; cbn [sort_by_start]; [done|].
  rewrite insert_by_start_stable. unfold starting_at in *. cbn. by rewrite IH.
Qed.

Lemma analyze_unfold rnd d k :
  fst (analyzeVideoMock rnd d k) =
  sort_by_start (fst (gen_cuts rnd d 0 (Z.to_nat (numberOfCuts d)) k)).
Proof. unfold analyzeVideoMock, bind. by destruct (gen_cuts rnd d 0 _ k). Qed.

Lemma analyze_ids_nodup rnd d k : NoDup (map id (fst (analyzeVideoMock rnd d k))).
Proof.
  rewrite analyze_unfold.
  change (NoDup (id <$> sort_by_start (fst (gen_cuts rnd d 0 (Z.to_nat (numberOfCuts d)) k)))).
  rewrite sort_by_start_perm.
  change (NoDup (map id (fst (gen_cuts rnd d 0 (Z.to_nat (numberOfCuts d)) k)))).
  rewrite gen_cuts_ids. apply NoDup_fmap_2; [apply _ | apply NoDup_seq].
Qed.

(** ** Properties *)

(** C27. [analyzeVideoMock] returns the cuts its loop generated, sorted by
    start, stably: cuts with the same start keep the order of generation. *)
Theorem analyzeVideoMock_sorted rnd d k :
  let gen := fst (gen_cuts rnd d 0 (Z.to_nat (numberOfCuts d)) k) in
  let out := fst (analyzeVideoMock rnd d k) in
  Sorted start_le out /\ out ≡ₚ gen /\ (forall t, starting_at t out = starting_at t gen).
Proof.
  cbn zeta. rewrite analyze_unfold. split_and!.
  - apply sort_by_start_sorted.
  - apply sort_by_start_perm.
  - intros t. apply sort_by_start_stable.
Qed.

(** C28. The mock returns [max(5, floor(duration/10))] cuts, at least five,
    all accepted, with pairwise distinct ids [cut-0], [cut-1], ... *)
Theorem analyzeVideoMock_ids rnd d k :
  let out := fst (analyzeVideoMock rnd d k) in
  NoDup (map id out) /\ length out = Z.to_nat (numberOfCuts d) /\ (5 <= length out)%nat /\
  Forall (fun c => status c = accepted) out.
Proof.
  cbn zeta. rewrite analyze_unfold.
  pose proof (sort_by_start_perm (fst (gen_cuts rnd d 0 (Z.to_nat (numberOfCuts d)) k))) as Hp.
  split_and!.
  - rewrite <- analyze_unfold. apply analyze_ids_nodup.
  - by rewrite Hp, gen_cuts_length.
  - rewrite Hp, gen_cuts_length. unfold numberOfCuts. lia.
  - rewrite Hp. apply gen_cuts_Forall. intros j k'. apply gen_cut_id.
Qed.

(** C26. For a video of at least 5 s and draws in [0, 1), every mock cut is
    well formed ([0 <= start < end], confidence in [0, 1]), ends within the
    video, and carries a word. *)
Theorem analyzeVideoMock_wf rnd d k :
  draws_ok rnd -> 5 <= d ->
  Forall (fun c => cut_wf c /\ end_ c <= d /\ word c <> None) (fst (analyzeVideoMock rnd d k)).
Proof.
  intros Hr Hd. rewrite analyze_unfold, sort_by_start_perm.
  apply gen_cuts_Forall. intros j k'.
  destruct (gen_cut_spec rnd d j k' Hr) as (Hw & Hc & Hb).
  destruct (Hb Hd) as (H1 & H2 & H3). unfold cut_wf. split_and!; try done; lra.
Qed.

(** [parseFloat(x.toFixed(2))] is within half a hundredth of [x]. *)
Lemma to_fixed2_error x : Qabs (to_fixed2 x - x) <= 1#200.
Proof.
  apply Qabs_Qle_condition. unfold to_fixed2. case_bool_decide.
  - pose proof (round2_nonneg_bounds (- x)). lra.
  - pose proof (round2_nonneg_bounds x). lra.
Qed.

Lemma round2_scaled (a : Q) :
  0 <= a -> Format.scaled 2 (Format.fixed_n 2 a) == round2_nonneg a.
Proof.
  intros Ha. unfold Format.scaled, Format.fixed_n, round2_nonneg.
  change (inject_Z (10 ^ Z.of_nat 2)) with 100.
  rewrite Z2N.id; [reflexivity|]. apply Qfloor_nonneg. lra.
Qed.

(** For a video shorter than 5 s, [Math.random() * (duration - 5)] is
    negative: on a 3 s video with every draw 0.5, every mock cut starts
    before 0 and is not well formed. *)
Theorem analyzeVideoMock_short_video :
  Forall (fun c => start c < 0 /\ ~ cut_wf c) (fst (analyzeVideoMock (fun _ => 1#2) 3 O)).
Proof. decide_concrete. Qed.

Lemma analyzeVideoMock_wf_witness :
  Forall (fun c => cut_wf c /\ end_ c <= 60 /\ word c <> None)
         (fst (analyzeVideoMock (fun _ => 1#2) 60 O)).
Proof.
  apply analyzeVideoMock_wf; [intros _; decide_concrete | decide_concrete].
Defined.

End Analysis.
