(* ===== verification/ReviewView.v ===== *)
(** What the review screen shows: the render of [ReviewPhase.tsx] as
    functions of its state ([Review.ReviewState]).  The synthetic waveform
    (lines 37-52), the colour helpers [getCutColor] and
    [getCutBadgeStyles] (lines 230-249), the header with the [stats] memo
    (lines 262-267), the overlays over the player (lines 289-300), the
    cut markers' colours (lines 338-347), the bars' heights (lines
    319-328), the ghost play-head (lines 356-361), the time tooltip and
    the time display (lines 372-392), the legend (lines 444-452) and the rows of the
    cut list (lines 462-485).  Class names are the strings of the source;
    what only lays out or animates is left out. *)

From stdpp Require Import pretty.
From S2P Require Import Prelude Types Format Mapper Media SkipPolicy Review Metrics Analysis.

Module ReviewView.

Import Format.

(** ** The synthetic waveform (lines 37-52) *)

(** [Math.sin] is the browser's; the bars only need it as a function. *)
Section Waveform.
Import Analysis.
Local Open Scope rand_scope.
Variable sin : Q -> Q.
Variable rnd : nat -> Q.

(** One iteration: [if (Math.random() > 0.85) activity = Math.random();
    const noise = Math.random() * 0.3; ...]; the bar and the new activity. *)
Definition waveform_bar (i : nat) (activity : Q) : Analysis.Rand (Q * Q) :=
  r <- Analysis.random rnd ;;
  act <- (if 85#100 <? r then Analysis.random rnd else Analysis.ret activity) ;;
  n <- Analysis.random rnd ;;
  let noise := n * (3#10) in
  let baseHeight := (sin (inject_Z (Z.of_nat i) * (1#5)) + 1) / 2 in
  Analysis.ret (clamp (1#10) 1 (baseHeight * act + noise), act).

Fixpoint waveform_loop (i count : nat) (activity : Q) : Analysis.Rand (list Q) :=
  match count with
  | O => Analysis.ret []
  | S c =>
      ba <- waveform_bar i activity ;;
      bars <- waveform_loop (S i) c (snd ba) ;;
      Analysis.ret (fst ba :: bars)
  end.

(** [waveformBars]: 100 bars from an activity of 0.5. *)
Definition waveformBars : Analysis.Rand (list Q) := waveform_loop 0 100 (1#2).

End Waveform.

(** The bars' style (lines 321-327): [height: ${height * 60}%]. *)
Definition waveform_heights (bars : list Q) : list Q := map (fun h => h * 60) bars.


(** ** Colours (lines 230-249) *)

(** [getCutColor(type, isBg)]; [silence] takes the [default] branch. *)
Definition getCutColor (t : CutType) (isBg : bool) : string :=
  match t with
  | cliche => if isBg then "bg-pink-500" else "text-pink-400"
  | filler => if isBg then "bg-amber-500" else "text-amber-400"
  | repetition => if isBg then "bg-blue-500" else "text-blue-400"
  | stutter => if isBg then "bg-purple-500" else "text-purple-400"
  | silence => if isBg then "bg-slate-500" else "text-slate-400"
  end.

Definition getCutBadgeStyles (t : CutType) : string :=
  match t with
  | cliche => "bg-pink-500/20 text-pink-400"
  | filler => "bg-amber-500/20 text-amber-400"
  | repetition => "bg-blue-500/20 text-blue-400"
  | stutter => "bg-purple-500/20 text-purple-400"
  | silence => "bg-slate-500/20 text-slate-400"
  end.

(** The colour of a cut's marker on the timeline (lines 343-347). *)
Definition marker_color (c : CutEvent) : string :=
  if is_accepted c then getCutColor (type c) true else "bg-slate-700".

(** The legend (lines 446-451): its title and the colour of its dot. *)
Definition legend : list (string * string) :=
  [("Filler Words", "bg-amber-500"); ("Clichés", "bg-pink-500"); ("Stuttering", "bg-purple-500");
   ("Repetitions", "bg-blue-500"); ("Silences", "bg-slate-500")].

(** The legend entry a cut type belongs to, by its title. *)
Definition legend_title (t : CutType) : string :=
  match t with
  | filler => "Filler Words" | cliche => "Clichés" | stutter => "Stuttering"
  | repetition => "Repetitions" | silence => "Silences"
  end.

(** ** Texts and overlays *)

Section View.
Context {M : Type} `{ME : MediaElement M}.

(** The header (lines 265-266): [{stats.count} cuts selected •
    -{stats.timeSaved.toFixed(1)}s removed]. *)
Definition header_text (s : @Review.ReviewState M) : option string :=
  let '(count, timeSaved) := Metrics.stats (Review.cuts s) in
  t ← toFixed 1 (Fin timeSaved);
  Some (pretty (N.of_nat count) +:+ " cuts selected • -" +:+ t +:+ "s removed").

(** "Skipping Cut..." (lines 289-294). *)
Definition skipping_overlay (s : @Review.ReviewState M) : bool :=
  bool_decide (is_Some (Review.activeCutId s)) && negb (Review.isScrubbing s) &&
  bool_decide (Review.previewEnd s = None).

(** "Previewing Segment" (lines 295-300). *)
Definition preview_overlay (s : @Review.ReviewState M) : bool :=
  bool_decide (is_Some (Review.previewEnd s)).

(** The tooltip (lines 372-383): shown while scrubbing or hovering over a
    loaded video, with the exact time of the play-head or of the hover. *)
Definition tooltip (s : @Review.ReviewState M) : option (option string) :=
  if (Review.isScrubbing s || bool_decide (is_Some (Review.hoverTime s))) && (0 <? Review.duration s)
  then Some (formatTimeExact (if Review.isScrubbing s then Review.currentTime s
                              else default 0 (Review.hoverTime s)))
  else None.

(** The ghost play-head (lines 356-361): drawn while hovering and not
    scrubbing, at [left: (hoverTime / duration) * 100 %]; [Some None] when
    that percentage is NaN or infinite. *)
Definition ghost_playhead (s : @Review.ReviewState M) : option (option Q) :=
  if Review.isScrubbing s then None else
  match Review.hoverTime s with
  | Some h => Some (Mapper.percent h (Review.duration s))
  | None => None
  end.

(** The time display (line 391): [formatTime(currentTime) / formatTime(duration)]. *)
Definition time_display (s : @Review.ReviewState M) : option string :=
  a ← formatTime (Review.currentTime s); b ← formatTime (Review.duration s);
  Some (a +:+ " / " +:+ b).

End View.

(** A row of the cut list (lines 470-485): badge style, type, quoted
    word and exact start. *)
Record Row := mkRow { row_badge : string; row_type : CutType; row_word : option string;
                      row_start : option string }.

Definition cut_row (c : CutEvent) : Row :=
  mkRow (getCutBadgeStyles (type c)) (type c) (word c) (formatTimeExact (start c)).

(** The cut list (lines 462-488): a message when there is no cut. *)
Definition cut_list (cs : list CutEvent) : string + list Row :=
  match cs with
  | [] => inl "No cuts detected. You speak perfectly!"
  | _ => inr (map cut_row cs)
  end.

(** ** Lemmas *)

Section WaveformLemmas.
Variable sin : Q -> Q.
Variable rnd : nat -> Q.

Lemma waveform_bar_bounds i activity k : 1#10 <= fst (fst (waveform_bar sin rnd i activity k)) <= 1.
Proof.
  unfold waveform_bar, Analysis.bind, Analysis.random, Analysis.ret.
  destruct (bool_decide _); cbn; apply clamp_bounds; lra.
Qed.

Lemma waveform_loop_spec i count activity k :
  length (fst (waveform_loop sin rnd i count activity k)) = count /\
  Forall (fun h => 1#10 <= h <= 1) (fst (waveform_loop sin rnd i count activity k)).
Proof.
  revert i activity k. induction count as [|c IH]; intros i activity k; [done|].
  pose proof (waveform_bar_bounds i activity k) as Hb.
  cbn [waveform_loop]. unfold Analysis.bind, Analysis.ret.
  destruct (waveform_bar sin rnd i activity k) as [[h a'] k1]. cbn [fst snd] in Hb |- *.
  destruct (IH (S i) a' k1) as [Hl Hf].
  destruct (waveform_loop sin rnd (S i) c a' k1) as [bars k2]. cbn in *.
  split; [by rewrite Hl | by constructor].
Qed.

End WaveformLemmas.

Lemma legend_marker_in (t : CutType) : (legend_title t, getCutColor t true) ∈ legend.
Proof. unfold legend. destruct t; cbn; set_solver. Qed.

Lemma rejected_color_not_in : "bg-slate-700" ∉ map snd legend.
Proof. unfold legend. cbn. set_solver. Qed.


(** ** Properties *)

(** Whatever [Math.sin] and [Math.random] return, the waveform
    has 100 bars, each of a height in [0.1, 1], drawn at 6% to 60% of
    the track. *)
Theorem waveform_bounds sin rnd k :
  length (fst (waveformBars sin rnd k)) = 100%nat /\
  Forall (fun h => 1#10 <= h <= 1) (fst (waveformBars sin rnd k)) /\
  Forall (fun p => 6 <= p <= 60) (waveform_heights (fst (waveformBars sin rnd k))).
Proof.
  destruct (waveform_loop_spec sin rnd 0 100 (1#2) k) as [Hl Hf].
  split_and!; [exact Hl | exact Hf |]. unfold waveform_heights.
  apply Forall_fmap. eapply Forall_impl; [exact Hf|]. cbn. intros h Hh. lra.
Qed.

(** The timeline agrees with its legend: the marker of an accepted
    cut has the colour of the legend entry of its type, and a rejected
    cut's marker has a colour the legend does not use. *)
Theorem legend_matches_markers (c : CutEvent) :
  (status c = accepted -> (legend_title (type c), marker_color c) ∈ legend) /\
  (status c = rejected -> marker_color c ∉ map snd legend).
Proof.
  unfold marker_color, is_accepted. split; intros ->; cbn.
  - apply legend_marker_in.
  - apply rejected_color_not_in.
Qed.

Section Hover.
Context {M : Type} `{ME : MediaElement M}.

(** C16. Hovering over the timeline of a loaded video draws the ghost
    play-head exactly under the pointer, and the tooltip prints the time
    of that point. *)
Theorem hover_ghost_under_pointer (s : @Review.ReviewState M) r x :
  Review.isScrubbing s = false -> Review.timeline s = Some r -> 0 < Mapper.rwidth r ->
  0 < Review.duration s ->
  exists p, ghost_playhead (Review.onTimelineHover x s) = Some (Some p) /\
    Mapper.offset_of_percent r p == x /\
    tooltip (Review.onTimelineHover x s) =
      Some (formatTimeExact (Mapper.hover_time r (Review.duration s) x)).
Proof.
  intros Hsc Htl Hw Hd. unfold Review.onTimelineHover.
  rewrite Hsc, Htl, (bool_decide_true (0 < Review.duration s)) by done.
  unfold ghost_playhead, tooltip; cbn. rewrite Hsc, (bool_decide_true (0 < Review.duration s)) by done.
  eexists. split_and!; [rewrite Mapper.percent_some by lra; reflexivity | | reflexivity].
  unfold Mapper.offset_of_percent, Mapper.hover_time. field. lra.
Qed.

End Hover.

Section Reach.
Context {M : Type} {ME : MediaElement M} {ML : MediaLaws M}.

Lemma run_reachable v0 r cs acts (s s' : @Review.ReviewState M) :
  Review.reachable v0 r cs s -> Review.run acts s = Some s' -> Review.reachable v0 r cs s'.
Proof.
  revert s. induction acts as [|a acts IH]; intros s Hs Hrun; cbn in Hrun; [by simplify_eq|].
  destruct (Review.enabled a s) eqn:E; [|done].
  apply (IH _ (Review.reach_step _ _ _ _ _ Hs (Review.step_act a s E)) Hrun).
Qed.

(** C15. While the user scrubs a loaded video, the tooltip shows the
    play-head's time as [m:ss:mmm], which reads back as that time
    truncated to the millisecond: in every reachable state of the review
    screen, for play-heads below 2^53 s. *)
Theorem tooltip_scrub_exact v0 r cs (s : @Review.ReviewState M) :
  media_wf v0 -> 0 < Mapper.rwidth r -> Review.reachable v0 r cs s ->
  Review.isScrubbing s = true -> 0 < Review.duration s -> Review.currentTime s < inject_Z (2 ^ 53) ->
  exists str m sec ms, tooltip s = Some (Some str) /\ parse_time_exact str = Some (m, sec, ms) /\
    inject_Z (Z.of_N (60 * m + sec)) + inject_Z (Z.of_N ms) / 1000 <= Review.currentTime s <
    inject_Z (Z.of_N (60 * m + sec)) + inject_Z (Z.of_N ms + 1) / 1000.
Proof.
  intros Hv Hr Hreach Hsc Hd Hb.
  destruct (Review.reachable_inv v0 r cs s Hv Hr Hreach) as (_ & _ & _ & Ht & _).
  destruct (formatTimeExact_roundtrip (Review.currentTime s) (conj Ht Hb))
    as (str & m & sec & ms & Hf & Hp & _ & _ & Hlo).
  exists str, m, sec, ms. unfold tooltip. rewrite Hsc, (bool_decide_true (0 < Review.duration s)) by done. cbn.
  rewrite Hf. done.
Qed.

End Reach.

(** A video shorter than 5 s lists its mock cuts at negative
    times: on a 3 s video with every draw 0.5, each of the five rows of
    the cut list shows its start as [-1:-1:000]. *)
Theorem short_video_rows_negative :
  option_map (map row_start) (match cut_list (fst (Analysis.analyzeVideoMock (fun _ => 1#2) 3 O)) with
                              | inr rows => Some rows | inl _ => None end) =
  Some (repeat (Some "-1:-1:000") 5).
Proof. vm_compute. reflexivity. Qed.

(** ** Witnesses *)

Lemma tooltip_scrub_exact_witness :
  exists str m sec ms,
    tooltip (Review.handleScrubStart 300 (Review.onLoadedMetadata
               (Review.initial Review.ex_video Mapper.ex_rect Review.ex_cuts))) = Some (Some str) /\
    parse_time_exact str = Some (m, sec, ms) /\
    inject_Z (Z.of_N (60 * m + sec)) + inject_Z (Z.of_N ms) / 1000 <=
      Review.currentTime (Review.handleScrubStart 300 (Review.onLoadedMetadata
               (Review.initial Review.ex_video Mapper.ex_rect Review.ex_cuts))) <
    inject_Z (Z.of_N (60 * m + sec)) + inject_Z (Z.of_N ms + 1) / 1000.
Proof.
  apply (tooltip_scrub_exact Review.ex_video Mapper.ex_rect Review.ex_cuts);
    [unfold media_wf; decide_concrete | decide_concrete
    | apply (run_reachable _ _ _ [Review.AMetadata; Review.AScrubStart 300] _ _ (Review.reach_init _ _ _));
      vm_compute; reflexivity
    | vm_compute; reflexivity | decide_concrete | decide_concrete].
Defined.

Lemma hover_ghost_under_pointer_witness :
  exists p, ghost_playhead (Review.onTimelineHover 150 (Review.onLoadedMetadata
               (Review.initial Review.ex_video Mapper.ex_rect Review.ex_cuts))) = Some (Some p) /\
    Mapper.offset_of_percent Mapper.ex_rect p == 150 /\
    tooltip (Review.onTimelineHover 150 (Review.onLoadedMetadata
               (Review.initial Review.ex_video Mapper.ex_rect Review.ex_cuts))) =
      Some (formatTimeExact (Mapper.hover_time Mapper.ex_rect
        (Review.duration (Review.onLoadedMetadata (Review.initial Review.ex_video Mapper.ex_rect Review.ex_cuts))) 150)).
Proof. apply hover_ghost_under_pointer; [reflexivity | reflexivity | decide_concrete | decide_concrete]. Defined.

Lemma legend_matches_markers_witness :
  (legend_title (type Review.ex_cut_a), marker_color Review.ex_cut_a) ∈ legend /\
  marker_color Review.ex_cut_c ∉ map snd legend.
Proof.
  split; [apply (proj1 (legend_matches_markers Review.ex_cut_a))
         | apply (proj2 (legend_matches_markers Review.ex_cut_c))]; reflexivity.
Defined.

End ReviewView.
