(* ===== verification/Upload.v ===== *)
(** The upload and configuration screen, [src/components/UploadPhase.tsx]:
    file validation, the detection toggles, the silence slider, the list
    of custom phrases (at most 10), saved phrase lists and the export
    selects.  The component's own state is [UploadState]; what it reads and
    changes of its parent ([config], [setConfig], [savedLists] and the
    callbacks) is the interface [UploadProps], with the laws [App] meets in
    [UploadPropsLaws].  The handlers and their theorems are stated against
    the interface; [App.v] gives the instance.

    [String.prototype.trim] removes the ASCII white space (tab, line feed,
    vertical tab, form feed, carriage return, space), stdpp's
    [Ascii.is_space]; the Unicode spaces JS also removes are not
    characters of Rocq's [string]. *)

From S2P Require Import Prelude Types.

Module Upload.

(** The fields of a DOM [File] the code reads. *)
Record File := mkFile { fname : string; ftype : string; fsize : Z }.

(** [2 * 1024 * 1024 * 1024] bytes. *)
Definition max_size : Z := 2 * 1024 * 1024 * 1024.

(** The two tests of [validateAndSetFile] (lines 44-52): not larger than
    2 GiB, a MIME type starting with [video/]. *)
Definition file_ok (f : File) : bool :=
  negb (fsize f >? max_size)%Z && String.prefix "video/" (ftype f).

(** ** [trim] *)

Fixpoint drop_space (l : list Ascii.ascii) : list Ascii.ascii :=
  match l with
  | [] => []
  | a :: l' => if Ascii.is_space a then drop_space l' else l
  end.

(** [s.trim()]: white space removed at both ends. *)
Definition trim (s : string) : string :=
  Stdlib.Strings.String.string_of_list_ascii
    (rev (drop_space (rev (drop_space (Stdlib.Strings.String.list_ascii_of_string s))))).

(** ** State and interface *)

(** The hooks of [UploadPhase] (lines 25-32). *)
Record UploadState := mkUpload {
  dragActive : bool;
  selectedFile : option File;
  newPhrase : string;
  selectedListId : string;
  isNamingList : bool;
  newListName : string
}.

Definition upload_initial : UploadState := mkUpload false None "" "" false "".

(** The props of [UploadPhase] (lines 6-14) over the parent's state [P]. *)
Class UploadProps (P : Type) := {
  config : P -> VideoConfig;
  setConfig : (VideoConfig -> VideoConfig) -> P -> P;
  savedLists : P -> list PhraseList;
  onFileSelect : File -> P -> P;
  onStartAnalysis : P -> P;
  onSaveList : string -> list string -> P -> P;
  onDeleteList : string -> P -> P
}.

(** What the screen relies on: [setConfig] applies its updater, the
    callbacks do not touch the configuration, [onSaveList] appends one list
    with the given name and phrases, [onDeleteList] removes the lists with
    the id. *)
Class UploadPropsLaws (P : Type) `{UploadProps P} : Prop := {
  config_setConfig f p : config (setConfig f p) = f (config p);
  savedLists_setConfig f p : savedLists (setConfig f p) = savedLists p;
  config_onFileSelect f p : config (onFileSelect f p) = config p;
  savedLists_onFileSelect f p : savedLists (onFileSelect f p) = savedLists p;
  config_onSaveList n ps p : config (onSaveList n ps p) = config p;
  savedLists_onSaveList n ps p :
    exists i, savedLists (onSaveList n ps p) = savedLists p ++ [mkPhraseList i n ps];
  config_onStartAnalysis p : config (onStartAnalysis p) = config p;
  savedLists_onStartAnalysis p : savedLists (onStartAnalysis p) = savedLists p;
  config_onDeleteList i p : config (onDeleteList i p) = config p;
  savedLists_onDeleteList i p :
    savedLists (onDeleteList i p) =
    List.filter (fun l => negb (String.eqb (pl_id l) i)) (savedLists p)
}.

(** ** Configuration updates ([{ ...prev, key: value }]) *)

Definition with_phrases (ps : list string) (c : VideoConfig) : VideoConfig :=
  mkConfig (removeCliches c) (removeFillers c) (removeSilence c) (removeRepetition c)
    (removeStuttering c) (silenceThreshold c) ps (outputFormat c) (outputQuality c).

Definition with_threshold (t : Q) (c : VideoConfig) : VideoConfig :=
  mkConfig (removeCliches c) (removeFillers c) (removeSilence c) (removeRepetition c)
    (removeStuttering c) t (customPhrases c) (outputFormat c) (outputQuality c).

Definition with_format (f : OutputFormat) (c : VideoConfig) : VideoConfig :=
  mkConfig (removeCliches c) (removeFillers c) (removeSilence c) (removeRepetition c)
    (removeStuttering c) (silenceThreshold c) (customPhrases c) f (outputQuality c).

Definition with_quality (q : OutputQuality) (c : VideoConfig) : VideoConfig :=
  mkConfig (removeCliches c) (removeFillers c) (removeSilence c) (removeRepetition c)
    (removeStuttering c) (silenceThreshold c) (customPhrases c) (outputFormat c) q.

(** The keys the toggle grid passes to [toggleSetting] (lines 191-197). *)
Inductive ToggleKey := KCliches | KFillers | KRepetition | KStuttering | KSilence.

(** [toggleSetting] (lines 73-76): [{ ...prev, [key]: !prev[key] }]. *)
Definition toggleSetting (k : ToggleKey) (c : VideoConfig) : VideoConfig :=
  let '(mkConfig cl fi si re st th ps fo qu) := c in
  match k with
  | KCliches => mkConfig (negb cl) fi si re st th ps fo qu
  | KFillers => mkConfig cl (negb fi) si re st th ps fo qu
  | KSilence => mkConfig cl fi (negb si) re st th ps fo qu
  | KRepetition => mkConfig cl fi si (negb re) st th ps fo qu
  | KStuttering => mkConfig cl fi si re (negb st) th ps fo qu
  end.

(** [prev.customPhrases.filter((_, i) => i !== index)] *)
Fixpoint remove_index (index : nat) (l : list string) : list string :=
  match l, index with
  | [], _ => []
  | _ :: l', O => l'
  | x :: l', S i => x :: remove_index i l'
  end.

(** ** The handlers *)

Section Handlers.
Context {P : Type} `{UP : UploadProps P}.

Definition set_dragActive b u :=
  mkUpload b (selectedFile u) (newPhrase u) (selectedListId u) (isNamingList u) (newListName u).
Definition set_selectedFile f u :=
  mkUpload (dragActive u) f (newPhrase u) (selectedListId u) (isNamingList u) (newListName u).
Definition set_newPhrase s u :=
  mkUpload (dragActive u) (selectedFile u) s (selectedListId u) (isNamingList u) (newListName u).
Definition set_selectedListId s u :=
  mkUpload (dragActive u) (selectedFile u) (newPhrase u) s (isNamingList u) (newListName u).
Definition set_isNamingList b u :=
  mkUpload (dragActive u) (selectedFile u) (newPhrase u) (selectedListId u) b (newListName u).
Definition set_newListName s u :=
  mkUpload (dragActive u) (selectedFile u) (newPhrase u) (selectedListId u) (isNamingList u) s.

Inductive DragKind := dragenter | dragover | dragleave | drop_other.

(** [handleDrag] (lines 34-42). *)
Definition handleDrag (k : DragKind) (u : UploadState) : UploadState :=
  match k with
  | dragenter | dragover => set_dragActive true u
  | dragleave => set_dragActive false u
  | drop_other => u
  end.

(** [validateAndSetFile] (lines 44-55): an [alert] and no change when a
    test fails. *)
Definition validateAndSetFile (f : File) (up : UploadState * P) : UploadState * P :=
  let '(u, p) := up in
  if (fsize f >? max_size)%Z then (u, p)
  else if negb (String.prefix "video/" (ftype f)) then (u, p)
  else (set_selectedFile (Some f) u, onFileSelect f p).

(** [handleDrop] (lines 57-64) and [handleChange] (lines 66-71): the first
    file of the list, if any. *)
Definition handleDrop (files : list File) (up : UploadState * P) : UploadState * P :=
  let up1 := (set_dragActive false up.1, up.2) in
  match files with
  | f :: _ => validateAndSetFile f up1
  | [] => up1
  end.

Definition handleChange (files : list File) (up : UploadState * P) : UploadState * P :=
  match files with
  | f :: _ => validateAndSetFile f up
  | [] => up
  end.

(** [addCustomPhrase] (lines 78-86). *)
Definition addCustomPhrase (up : UploadState * P) : UploadState * P :=
  let '(u, p) := up in
  let t := trim (newPhrase u) in
  if negb (String.eqb t "") && (length (customPhrases (config p)) <? 10)%nat
  then (set_newPhrase "" u,
        setConfig (fun c => with_phrases (customPhrases c ++ [t]) c) p)
  else (u, p).

(** [removeCustomPhrase] (lines 88-93). *)
Definition removeCustomPhrase (index : nat) (p : P) : P :=
  setConfig (fun c => with_phrases (remove_index index (customPhrases c)) c) p.

(** [handleLoadList] (lines 95-101). *)
Definition handleLoadList (listId : string) (up : UploadState * P) : UploadState * P :=
  let '(u, p) := up in
  let u1 := set_selectedListId listId u in
  match find (fun l => String.eqb (pl_id l) listId) (savedLists p) with
  | Some l => (u1, setConfig (with_phrases (phrases l)) p)
  | None => (u1, p)
  end.

(** [saveCurrentList] (lines 103-109). *)
Definition saveCurrentList (up : UploadState * P) : UploadState * P :=
  let '(u, p) := up in
  let name := trim (newListName u) in
  if negb (String.eqb name "") && (0 <? length (customPhrases (config p)))%nat
  then (set_newListName "" (set_isNamingList false u),
        onSaveList name (customPhrases (config p)) p)
  else (u, p).

(** The delete button (lines 263-276), shown when a list is selected;
    [confirmed] is the answer to [window.confirm]. *)
Definition deleteSelectedList (confirmed : bool) (up : UploadState * P) : UploadState * P :=
  let '(u, p) := up in
  if String.eqb (selectedListId u) "" then (u, p)
  else if confirmed then (set_selectedListId "" u, onDeleteList (selectedListId u) p)
  else (u, p).

(** The "Analyze Video" button (lines 410-416), disabled without a file. *)
Definition analyze (up : UploadState * P) : UploadState * P :=
  let '(u, p) := up in
  match selectedFile u with
  | Some _ => (u, onStartAnalysis p)
  | None => (u, p)
  end.

End Handlers.


(** ** The screen as a step function *)

Inductive upload_action :=
  | UDrag (k : DragKind)
  | UDrop (files : list File)
  | UChange (files : list File)
  | UToggle (k : ToggleKey)
  | UThreshold (v : Q)                (** the silence slider *)
  | UTypePhrase (s : string)          (** [setNewPhrase] *)
  | UAddPhrase
  | URemovePhrase (index : nat)
  | ULoadList (listId : string)
  | UStartNaming                      (** [setIsNamingList(true)] *)
  | UTypeListName (s : string)        (** [setNewListName] *)
  | USaveList
  | UCancelNaming
  | UDeleteList (confirmed : bool)
  | UFormat (f : OutputFormat)
  | UQuality (q : OutputQuality)
  | URemoveFile                       (** "Remove file" (line 163) *)
  | UAnalyze.

Section Step.
Context {P : Type} `{UP : UploadProps P}.

(** One user action on the screen, with the handler the JSX wires to it
    (lines 140-150, 205, 233, 253, 265-269, 291-298, 315, 329, 342-356,
    376, 391, 163, 411). *)
Definition upload_step (a : upload_action) (up : UploadState * P) : UploadState * P :=
  let '(u, p) := up in
  match a with
  | UDrag k => (handleDrag k u, p)
  | UDrop files => handleDrop files (u, p)
  | UChange files => handleChange files (u, p)
  | UToggle k => (u, setConfig (toggleSetting k) p)
  | UThreshold v => (u, setConfig (with_threshold v) p)
  | UTypePhrase s => (set_newPhrase s u, p)
  | UAddPhrase => addCustomPhrase (u, p)
  | URemovePhrase i => (u, removeCustomPhrase i p)
  | ULoadList i => handleLoadList i (u, p)
  | UStartNaming => (set_isNamingList true u, p)
  | UTypeListName s => (set_newListName s u, p)
  | USaveList => saveCurrentList (u, p)
  | UCancelNaming => (set_newListName "" (set_isNamingList false u), p)
  | UDeleteList b => deleteSelectedList b (u, p)
  | UFormat f => (u, setConfig (with_format f) p)
  | UQuality q => (u, setConfig (with_quality q) p)
  | URemoveFile => (set_selectedFile None u, p)
  | UAnalyze => analyze (u, p)
  end.

End Step.

(** ** Lemmas on [trim] *)

Lemma drop_space_split l : exists t, l = t ++ drop_space l /\ Forall (fun a => Ascii.is_space a = true) t.
Proof.
  induction l as [|a l IH]; cbn; [by exists []|].
  destruct (Ascii.is_space a) eqn:E; [|by exists []].
  destruct IH as (t & Ht & Hs). exists (a :: t). split; [cbn; by f_equal | by constructor].
Qed.

Lemma drop_space_head l :
  drop_space l = [] \/ exists a l', drop_space l = a :: l' /\ Ascii.is_space a = false.
Proof.
  induction l as [|a l IH]; cbn; [by left|].
  destruct (Ascii.is_space a) eqn:E; [done | right; by exists a, l].
Qed.

Lemma drop_space_idem l : drop_space (drop_space l) = drop_space l.
Proof.
  destruct (drop_space_head l) as [->|(a & l' & -> & Ha)]; [done|]. cbn. by rewrite Ha.
Qed.

Definition trim_list (l : list Ascii.ascii) : list Ascii.ascii :=
  rev (drop_space (rev (drop_space l))).

Lemma trim_list_idem l : trim_list (trim_list l) = trim_list l.
Proof.
  unfold trim_list. set (a := drop_space l).
  destruct (drop_space_split (rev a)) as (t & Ht & _).
  assert (Ha : a = rev (drop_space (rev a)) ++ rev t).
  { rewrite <- rev_app_distr, <- Ht. by rewrite rev_involutive. }
  assert (Hm : drop_space (rev (drop_space (rev a))) = rev (drop_space (rev a))).
  { destruct (rev (drop_space (rev a))) as [|x m] eqn:E; [done|].
    destruct (drop_space_head l) as [Hl|(y & l' & Hl & Hy)].
    - fold a in Hl. rewrite Hl in Ha. cbn in Ha. done.
    - fold a in Hl. rewrite Hl in Ha. cbn in Ha. injection Ha as -> _. cbn. by rewrite Hy. }
  rewrite Hm, rev_involutive, drop_space_idem. done.
Qed.

Lemma trim_eq s :
  trim s = Stdlib.Strings.String.string_of_list_ascii
             (trim_list (Stdlib.Strings.String.list_ascii_of_string s)).
Proof. reflexivity. Qed.


Lemma trim_trim s : trim (trim s) = trim s.
Proof.
  rewrite !trim_eq, Stdlib.Strings.String.list_ascii_of_string_of_list_ascii.
  by rewrite trim_list_idem.
Qed.

Lemma list_of_trim s :
  Stdlib.Strings.String.list_ascii_of_string (trim s) =
  trim_list (Stdlib.Strings.String.list_ascii_of_string s).
Proof. by rewrite trim_eq, Stdlib.Strings.String.list_ascii_of_string_of_list_ascii. Qed.

Lemma last_rev {A} (l : list A) : last (rev l) = head l.
Proof. destruct l as [|x l]; [done|]. cbn. apply last_snoc. Qed.

(** The list view of [trim]: what it removes is white space at both ends,
    and what it keeps neither starts nor ends with white space. *)
Lemma trim_list_spec l :
  exists pre post, l = pre ++ trim_list l ++ post /\
    Forall (fun a => Ascii.is_space a = true) pre /\
    Forall (fun a => Ascii.is_space a = true) post /\
    (forall a, head (trim_list l) = Some a -> Ascii.is_space a = false) /\
    (forall a, last (trim_list l) = Some a -> Ascii.is_space a = false).
Proof.
  unfold trim_list.
  destruct (drop_space_split l) as (t1 & H1 & S1).
  destruct (drop_space_split (rev (drop_space l))) as (t2 & H2 & S2).
  assert (Ha : drop_space l = rev (drop_space (rev (drop_space l))) ++ rev t2).
  { rewrite <- rev_app_distr, <- H2. by rewrite rev_involutive. }
  exists t1, (rev t2). split_and!.
  - rewrite <- Ha. exact H1.
  - exact S1.
  - by apply Forall_rev.
  - intros a Hh. destruct (rev (drop_space (rev (drop_space l)))) as [|x m] eqn:E; [done|].
    cbn in Hh. injection Hh as ->.
    destruct (drop_space_head l) as [Hl|(y & l' & Hl & Hy)]; rewrite Hl in Ha; [done|].
    cbn in Ha. by injection Ha as -> _.
  - intros a Hl. rewrite last_rev in Hl.
    destruct (drop_space_head (rev (drop_space l))) as [E|(y & l' & E & Hy)];
      rewrite E in Hl; [done|]. cbn in Hl. by injection Hl as <-.
Qed.

(** [filter((_, i) => i !== index)] keeps the elements before and after
    position [index]. *)
Lemma remove_index_take_drop i l : remove_index i l = take i l ++ drop (S i) l.
Proof.
  revert i. induction l as [|x l IH]; intros [|i]; cbn; try done. by rewrite IH.
Qed.

(** ** The invariant of the phrase lists *)

(** A stored phrase is trimmed and not empty. *)
Definition phrase_ok (s : string) : Prop := trim s = s /\ s <> "".

#[export] Instance phrase_ok_dec s : Decision (phrase_ok s).
Proof. unfold phrase_ok. apply _. Defined.

(** A list of phrases: at most 10, each stored as typed and trimmed. *)
Definition phrases_ok (ps : list string) : Prop := (length ps <= 10)%nat /\ Forall phrase_ok ps.

#[export] Instance phrases_ok_dec ps : Decision (phrases_ok ps).
Proof. unfold phrases_ok. apply _. Defined.

Section Inv.
Context {P : Type} `{UP : UploadProps P} `{UL : !UploadPropsLaws P}.

Definition upload_inv (p : P) : Prop :=
  phrases_ok (customPhrases (config p)) /\ Forall (fun l => phrases_ok (phrases l)) (savedLists p).

Lemma inv_setConfig f p :
  phrases_ok (customPhrases (f (config p))) -> upload_inv p -> upload_inv (setConfig f p).
Proof. intros Hf [_ Hs]. unfold upload_inv. by rewrite config_setConfig, savedLists_setConfig. Qed.

Lemma inv_setConfig_keep f p :
  customPhrases (f (config p)) = customPhrases (config p) -> upload_inv p ->
  upload_inv (setConfig f p).
Proof. intros Hf Hi. apply inv_setConfig; [rewrite Hf; apply Hi | exact Hi]. Qed.

Lemma validate_inv f u p : upload_inv p -> upload_inv (validateAndSetFile f (u, p)).2.
Proof.
  intros Hi. unfold validateAndSetFile. do 2 (case_match; [done|]); cbn.
  unfold upload_inv. by rewrite config_onFileSelect, savedLists_onFileSelect.
Qed.

Lemma remove_index_ok i ps : phrases_ok ps -> phrases_ok (remove_index i ps).
Proof.
  intros [Hl Hf]. rewrite remove_index_take_drop. split.
  - rewrite length_app, length_take, length_drop. lia.
  - apply Forall_app. split; [by apply Forall_take | by apply Forall_drop].
Qed.

Lemma add_inv u p : upload_inv p -> upload_inv (addCustomPhrase (u, p)).2.
Proof.
  intros Hi. unfold addCustomPhrase. case_match eqn:E; [|done].
  apply andb_true_iff in E as [E1 E2]. apply Nat.ltb_lt in E2.
  apply negb_true_iff, String.eqb_neq in E1.
  apply inv_setConfig; [|done]. cbn. destruct Hi as [[Hl Hf] _]. split.
  - rewrite length_app. cbn. lia.
  - apply Forall_app. split; [done|]. repeat constructor; [apply trim_trim | done].
Qed.

Lemma load_inv i u p : upload_inv p -> upload_inv (handleLoadList i (u, p)).2.
Proof.
  intros Hi. unfold handleLoadList. case_match eqn:E; [|done].
  apply find_some_in in E as [Hin _]. apply inv_setConfig; [|done].
  cbn. destruct Hi as [_ Hs]. rewrite Forall_forall in Hs. by apply Hs.
Qed.

Lemma save_inv u p : upload_inv p -> upload_inv (saveCurrentList (u, p)).2.
Proof.
  intros [Hc Hs]. unfold saveCurrentList. case_match; [|done]. cbn [fst snd].
  unfold upload_inv.
  destruct (savedLists_onSaveList (trim (newListName u)) (customPhrases (config p)) p) as [i ->].
  rewrite config_onSaveList. split; [done|].
  apply Forall_app. split; [done|]. by constructor.
Qed.

Lemma delete_inv b u p : upload_inv p -> upload_inv (deleteSelectedList b (u, p)).2.
Proof.
  intros Hi. unfold deleteSelectedList.
  destruct (String.eqb _ _); [exact Hi|]. destruct b; [|exact Hi]. cbn [fst snd].
  destruct Hi as [Hc Hs]. unfold upload_inv. rewrite config_onDeleteList, savedLists_onDeleteList.
  split; [done|]. by apply Forall_list_filter.
Qed.

Lemma analyze_inv u p : upload_inv p -> upload_inv (analyze (u, p)).2.
Proof.
  intros Hi. unfold analyze. case_match; [|done]. cbn.
  unfold upload_inv. by rewrite config_onStartAnalysis, savedLists_onStartAnalysis.
Qed.

End Inv.


(** ** Properties *)

Section Props.
Context {P : Type} `{UP : UploadProps P} `{UL : !UploadPropsLaws P}.

(** Whatever the user does on the upload screen, the custom phrases and
    every saved list hold at most 10 phrases, each trimmed and not empty,
    for any parent that meets [UploadPropsLaws]. *)
Lemma upload_step_inv a u p : upload_inv p -> upload_inv (upload_step a (u, p)).2.
Proof.
  intros Hi. destruct a; cbn [upload_step fst snd];
  first [ done | apply add_inv, Hi | apply load_inv, Hi | apply save_inv, Hi
        | apply delete_inv, Hi | apply analyze_inv, Hi
        | apply inv_setConfig; [apply remove_index_ok, Hi | exact Hi]
        | apply inv_setConfig_keep; [by destruct (config p); try destruct k | exact Hi]
        | unfold handleDrop, handleChange; destruct files; [exact Hi | apply validate_inv, Hi] ].
Qed.

(** The remove button of phrase [i] deletes exactly the [i]-th phrase:
    the list loses one element when [i] is in range and is unchanged
    otherwise. *)
Theorem removeCustomPhrase_effect i p :
  let ps := customPhrases (config p) in
  let ps' := customPhrases (config (removeCustomPhrase i p)) in
  ps' = take i ps ++ drop (S i) ps /\
  ((i < length ps)%nat -> length ps' = (length ps - 1)%nat) /\
  ((length ps <= i)%nat -> ps' = ps).
Proof.
  cbn zeta. unfold removeCustomPhrase. rewrite config_setConfig. cbn [customPhrases with_phrases].
  rewrite remove_index_take_drop. split_and!; [done | |].
  - intros Hi. rewrite length_app, length_take, length_drop. lia.
  - intros Hi. rewrite take_ge, drop_ge by lia. by rewrite app_nil_r.
Qed.

End Props.

End Upload.
