(* ===== verification/App.v ===== *)
(** The App component ([src/unnamed/part_000], the [App.tsx] of the
    repository): the phase machine upload -> analyzing -> review ->
    processing, the analysis request and the client-side filter of the
    generated cuts by the configuration (lines 67-101), the saved phrase
    lists (lines 114-125) and the props it hands to [UploadPhase] (the
    [UploadProps] instance).  [handleStartAnalysis] is asynchronous: its
    first half records the request with the configuration and duration it
    captured ([pending]); its second half runs when [analyzeVideoMock]
    resolves, with the draws of [Math.random()] as the step's label.
    [UploadPhase] is mounted only in the upload phase: its state is reset
    whenever the App returns there. *)

From stdpp Require Import pretty.
From S2P Require Import Prelude Types Analysis Upload.

Module App.

Record AppState := mkApp {
  phase : Phase;
  file : option Upload.File;
  fileUrl : string;
  config : VideoConfig;
  savedLists : list PhraseList;
  cuts : list CutEvent;
  originalDuration : Q;
  pending : option (Q * VideoConfig);   (** an analysis in flight *)
  uploadUi : Upload.UploadState;        (** [UploadPhase]'s hooks *)
  now : N                                (** [Date.now()] *)
}.

Definition set_phase x s := mkApp x (file s) (fileUrl s) (config s) (savedLists s) (cuts s)
  (originalDuration s) (pending s) (uploadUi s) (now s).
Definition set_file x s := mkApp (phase s) x (fileUrl s) (config s) (savedLists s) (cuts s)
  (originalDuration s) (pending s) (uploadUi s) (now s).
Definition set_fileUrl x s := mkApp (phase s) (file s) x (config s) (savedLists s) (cuts s)
  (originalDuration s) (pending s) (uploadUi s) (now s).
Definition set_config x s := mkApp (phase s) (file s) (fileUrl s) x (savedLists s) (cuts s)
  (originalDuration s) (pending s) (uploadUi s) (now s).
Definition set_savedLists x s := mkApp (phase s) (file s) (fileUrl s) (config s) x (cuts s)
  (originalDuration s) (pending s) (uploadUi s) (now s).
Definition set_cuts x s := mkApp (phase s) (file s) (fileUrl s) (config s) (savedLists s) x
  (originalDuration s) (pending s) (uploadUi s) (now s).
Definition set_originalDuration x s := mkApp (phase s) (file s) (fileUrl s) (config s)
  (savedLists s) (cuts s) x (pending s) (uploadUi s) (now s).
Definition set_pending x s := mkApp (phase s) (file s) (fileUrl s) (config s) (savedLists s)
  (cuts s) (originalDuration s) x (uploadUi s) (now s).
Definition set_uploadUi x s := mkApp (phase s) (file s) (fileUrl s) (config s) (savedLists s)
  (cuts s) (originalDuration s) (pending s) x (now s).
Definition set_now x s := mkApp (phase s) (file s) (fileUrl s) (config s) (savedLists s)
  (cuts s) (originalDuration s) (pending s) (uploadUi s) x.

(** The configuration's initial value (lines 14-24). *)
Definition default_config : VideoConfig :=
  mkConfig true true true true true 1 [] mp4 q1080p.

(** The three built-in phrase lists (lines 27-43). *)
Definition default_lists : list PhraseList :=
  [mkPhraseList "default-1" "Church Service"
     ["Hallelujah"; "Amen"; "Praise God"; "Blessing"; "Scripture"];
   mkPhraseList "default-2" "Corporate Meeting"
     ["Touch base"; "Circle back"; "Synergy"; "Deep dive"; "Offline"];
   mkPhraseList "default-3" "Gen Z Slang"
     ["Literally"; "No cap"; "Vibe"; "Bet"; "Lowkey"]].

(** The first render (lines 10-46), at time [t0]. *)
Definition app_initial (t0 : N) : AppState :=
  mkApp upload None "" default_config default_lists [] 0 None Upload.upload_initial t0.

(** The filter of [handleStartAnalysis] (lines 79-92), test by test. *)
Definition keep_cut (cfg : VideoConfig) (c : CutEvent) : bool :=
  if bool_decide (type c = cliche) && negb (removeCliches cfg) then false
  else if bool_decide (type c = filler) && negb (removeFillers cfg) then false
  else if bool_decide (type c = silence) &&
          (negb (removeSilence cfg) || (end_ c - start c <? silenceThreshold cfg)) then false
  else if bool_decide (type c = repetition) && negb (removeRepetition cfg) then false
  else if bool_decide (type c = stutter) && negb (removeStuttering cfg) then false
  else true.

(** [originalDuration || 60]: 0 is falsy. *)
Definition mockDuration (d : Q) : Q := if decide (d == 0) then 60 else d.

(** [handleStartAnalysis] up to its [await] (lines 67-76). *)
Definition handleStartAnalysis (s : AppState) : AppState :=
  match file s with
  | None => s
  | Some _ => set_pending (Some (mockDuration (originalDuration s), config s))
                (set_phase analyzing s)
  end.

(** The rest of [handleStartAnalysis] (lines 78-95), with the cuts the
    mock generated and the configuration captured at the call. *)
Definition analysisDone (generatedCuts : list CutEvent) (s : AppState) : AppState :=
  match pending s with
  | Some (_, cfg) =>
      set_phase review (set_cuts (List.filter (keep_cut cfg) generatedCuts) (set_pending None s))
  | None => s
  end.

Definition handleConfirmCuts (s : AppState) : AppState := set_phase processing s.

(** [handleReset] (lines 107-112). *)
Definition handleReset (s : AppState) : AppState :=
  set_cuts [] (set_fileUrl "" (set_file None (set_phase upload s))).

(** [handleSaveList] (lines 114-121): the id is [Date.now().toString()]. *)
Definition handleSaveList (name : string) (ps : list string) (s : AppState) : AppState :=
  set_savedLists (savedLists s ++ [mkPhraseList (pretty (now s)) name ps]) s.

(** [handleDeleteList] (lines 123-125). *)
Definition handleDeleteList (i : string) (s : AppState) : AppState :=
  set_savedLists (List.filter (fun l => negb (String.eqb (pl_id l) i)) (savedLists s)) s.

(** The props of [UploadPhase] (lines 163-171). *)
#[export] Instance App_upload_props : Upload.UploadProps AppState := {
  Upload.config := config;
  Upload.setConfig f s := set_config (f (config s)) s;
  Upload.savedLists := savedLists;
  Upload.onFileSelect f s := set_file (Some f) s;
  Upload.onStartAnalysis := handleStartAnalysis;
  Upload.onSaveList := handleSaveList;
  Upload.onDeleteList := handleDeleteList
}.

(** An action on [UploadPhase], its state kept in the App's. *)
Definition uploadAction (a : Upload.upload_action) (s : AppState) : AppState :=
  let '(u, s') := Upload.upload_step a (uploadUi s, s) in set_uploadUi u s'.

(** [onCancel] of [ReviewPhase] (line 195); [UploadPhase] mounts afresh. *)
Definition onCancel (s : AppState) : AppState :=
  set_uploadUi Upload.upload_initial (set_phase upload s).

(** ** Steps *)

Inductive app_step : AppState -> AppState -> Prop :=
  (** the upload screen, shown in phase [upload] (line 162) *)
  | st_upload a s : phase s = upload -> app_step s (uploadAction a s)
  (** the effect on [file] (lines 49-65): the object URL, later the
      duration read from the metadata *)
  | st_file_url url s : file s <> None -> app_step s (set_fileUrl url s)
  | st_metadata d s : file s <> None -> 0 <= d -> app_step s (set_originalDuration d s)
  (** [analyzeVideoMock] resolves with the draws [rnd] *)
  | st_analysis_done rnd md cfg s : pending s = Some (md, cfg) -> draws_ok rnd ->
      app_step s (analysisDone (fst (Analysis.analyzeVideoMock rnd md O)) s)
  (** the review screen (lines 189-197): [setCuts] of [toggleCutStatus],
      [onConfirm], [onCancel] *)
  | st_toggle cid st s : phase s = review -> app_step s (set_cuts (toggleCutStatus cid st (cuts s)) s)
  | st_confirm s : phase s = review -> app_step s (handleConfirmCuts s)
  | st_cancel s : phase s = review -> app_step s (onCancel s)
  (** "Process Another" of the processing screen (lines 199-205) *)
  | st_reset s : phase s = processing \/ phase s = completed -> app_step s (set_uploadUi Upload.upload_initial (handleReset s))
  (** the clock *)
  | st_tick s : app_step s (set_now (now s + 1)%N s).

Inductive app_reachable (t0 : N) : AppState -> Prop :=
  | ar_init : app_reachable t0 (app_initial t0)
  | ar_step s s' : app_reachable t0 s -> app_step s s' -> app_reachable t0 s'.


(** ** Lemmas *)

#[export] Instance App_upload_laws : Upload.UploadPropsLaws AppState.
Proof.
  split; try done.
  - intros n ps p. by exists (pretty (now p)).
  - intros p. unfold Upload.config, Upload.onStartAnalysis; cbn. unfold handleStartAnalysis. by case_match.
  - intros p. unfold Upload.savedLists, Upload.onStartAnalysis; cbn. unfold handleStartAnalysis. by case_match.
Qed.

(** What an action on the upload screen may change of the App: its phase,
    pending analysis and cuts stay, and a file it sets passed validation;
    or it is the start of an analysis. *)
Definition upload_frame (s s' : AppState) : Prop :=
  phase s' = phase s /\ pending s' = pending s /\ cuts s' = cuts s /\
  (file s' = file s \/ exists f, file s' = Some f /\ Upload.file_ok f = true).

Lemma validate_effect f up :
  upload_frame up.2 (Upload.validateAndSetFile f up).2.
Proof.
  destruct up as [u s]. unfold Upload.validateAndSetFile, upload_frame.
  destruct (Upload.fsize f >? Upload.max_size)%Z eqn:E1; [cbn; split_and!; auto|].
  destruct (String.prefix "video/" (Upload.ftype f)) eqn:E2; cbn; split_and!; auto.
  right. exists f. split; [done|]. unfold Upload.file_ok. by rewrite E1, E2.
Qed.

Lemma uploadAction_effect a s :
  upload_frame s (uploadAction a s) \/
  exists u, uploadAction a s = set_uploadUi u (handleStartAnalysis s).
Proof.
  unfold uploadAction.
  destruct a; cbn [Upload.upload_step];
  unfold Upload.handleDrop, Upload.handleChange, Upload.addCustomPhrase, Upload.handleLoadList,
    Upload.saveCurrentList, Upload.deleteSelectedList, Upload.analyze;
  try destruct files as [|f files]; cbn [fst snd];
  try match goal with
      | |- context [Upload.validateAndSetFile ?f ?x] =>
          left; pose proof (validate_effect f x) as Hv;
          destruct (Upload.validateAndSetFile f x) as [u' s'] eqn:E; rewrite ?E in Hv; exact Hv
      end;
  repeat match goal with
         | |- context [if ?b then _ else _] => destruct b
         | |- context [match find ?g ?l with _ => _ end] => destruct (find g l)
         | |- context [match Upload.selectedFile ?u with _ => _ end] => destruct (Upload.selectedFile u)
         end;
  cbn; try (right; eexists; reflexivity); left; split_and!; auto.
Qed.


Lemma uploadAction_inv a s : Upload.upload_inv s -> Upload.upload_inv (uploadAction a s).
Proof.
  intros H. unfold uploadAction.
  pose proof (Upload.upload_step_inv a (uploadUi s) s H) as Hs.
  destruct (Upload.upload_step a (uploadUi s, s)) as [u s']. exact Hs.
Qed.

Lemma toggle_ids cid st cs : map id (toggleCutStatus cid st cs) = map id cs.
Proof.
  unfold toggleCutStatus. rewrite map_map. apply map_ext. intros c. by case_match.
Qed.

Lemma toggle_keep cfg cid st cs :
  Forall (fun c => keep_cut cfg c = true) cs ->
  Forall (fun c => keep_cut cfg c = true) (toggleCutStatus cid st cs).
Proof. induction 1; cbn; constructor; [case_match|]; done. Qed.

(** ** The invariant of the App *)

Definition app_inv (s : AppState) : Prop :=
  phase s <> completed /\
  (forall f, file s = Some f -> Upload.file_ok f = true) /\
  Upload.upload_inv s /\
  (phase s = analyzing <-> is_Some (pending s)) /\
  (forall md cfg, pending s = Some (md, cfg) -> cfg = config s) /\
  ((phase s = review \/ phase s = processing) ->
     NoDup (map id (cuts s)) /\ Forall (fun c => keep_cut (config s) c = true) (cuts s)).

Lemma app_inv_initial t0 : app_inv (app_initial t0).
Proof.
  split_and!; try done.
  - unfold Upload.upload_inv. decide_concrete.
  - split; [done|]. by intros [? ?].
  - intros [H|H]; discriminate.
Qed.

Lemma pending_none s : app_inv s -> phase s <> analyzing -> pending s = None.
Proof.
  intros (_ & _ & _ & Ha & _) Hph. destruct (pending s) eqn:E; [|done].
  destruct Hph. apply Ha. by eexists.
Qed.

(** A state of the upload phase with no analysis in flight, a valid file
    and bounded phrase lists satisfies the invariant. *)
Lemma app_inv_upload s :
  phase s = upload -> pending s = None ->
  (forall f, file s = Some f -> Upload.file_ok f = true) -> Upload.upload_inv s -> app_inv s.
Proof.
  intros Hph Hpe Hf Hu. unfold app_inv. rewrite Hph, Hpe.
  split_and!; try done; [intros [H|H]; discriminate].
Qed.

Lemma app_step_inv s s' : app_inv s -> app_step s s' -> app_inv s'.
Proof.
  intros Hi Hst. destruct Hst as [a s Hph|url s _|d s _ _|rnd md cfg s Hpen Hrnd
                                 |cid st s Hph|s Hph|s Hph|s Hph|s]; try exact Hi.
  - (* the upload screen *)
    destruct (uploadAction_effect a s) as [(H1 & H2 & H3 & H4)|(u & Hu)].
    + apply app_inv_upload; [by rewrite H1 | | | apply uploadAction_inv, Hi].
      * rewrite H2. apply pending_none; [done | by rewrite Hph].
      * intros f Hf. destruct H4 as [H4|(g & H4 & Hg)]; rewrite H4 in Hf;
          [by apply Hi | by injection Hf as <-].
    + rewrite Hu. unfold handleStartAnalysis. destruct (file s) eqn:Ef; [|exact Hi].
      destruct Hi as (Hc & Hf & Hu' & Ha & Hp & Hr).
      split_and!; try done; cbn.
      * by intros md cfg [= _ <-].
      * intros [H|H]; discriminate.
  - (* the analysis resolves *)
    destruct Hi as (Hc & Hf & Hu & Ha & Hp & Hr). unfold analysisDone. rewrite Hpen.
    pose proof (Hp md cfg Hpen) as ->.
    split_and!; try done; cbn.
    + split; [discriminate | by intros [? ?]].
    + intros _. split.
      * apply NoDup_map_filter, Analysis.analyze_ids_nodup.
      * apply Forall_list_filter_true.
  - (* accept or reject a cut *)
    destruct Hi as (Hc & Hf & Hu & Ha & Hp & Hr). split_and!; try done; cbn.
    intros Hph'. destruct (Hr Hph') as [H1 H2]. rewrite toggle_ids. split; [done|].
    by apply toggle_keep.
  - (* confirm the cuts *)
    pose proof (pending_none s Hi ltac:(by rewrite Hph)) as Hn.
    destruct Hi as (Hc & Hf & Hu & Ha & Hp & Hr). split_and!; try done; cbn.
    + rewrite Hn. split; [discriminate | by intros [? ?]].
    + intros _. apply Hr. by left.
  - (* back to the upload screen *)
    apply app_inv_upload; try done; cbn; [| apply Hi | apply Hi].
    apply pending_none; [done | by rewrite Hph].
  - (* process another video *)
    apply app_inv_upload; try done; cbn; [| apply Hi].
    apply pending_none; [done | destruct Hph as [-> | ->]; discriminate].
Qed.

Lemma app_reachable_inv t0 s : app_reachable t0 s -> app_inv s.
Proof.
  induction 1 as [|s s' _ IH Hst]; [apply app_inv_initial | exact (app_step_inv s s' IH Hst)].
Qed.


(** The tests of the filter, one per kind. *)
Lemma keep_cut_match cfg c :
  keep_cut cfg c =
  match type c with
  | cliche => removeCliches cfg
  | filler => removeFillers cfg
  | silence => removeSilence cfg && negb (end_ c - start c <? silenceThreshold cfg)
  | repetition => removeRepetition cfg
  | stutter => removeStuttering cfg
  end.
Proof.
  unfold keep_cut. destruct (type c);
    destruct (removeCliches cfg), (removeFillers cfg), (removeSilence cfg),
      (removeRepetition cfg), (removeStuttering cfg),
      (bool_decide (end_ c - start c < silenceThreshold cfg)); reflexivity.
Qed.

(** ** Properties *)

(** The phase ['completed'] of [types.ts] is never reached: no
    handler of the App sets it, so the branch of the render that shows
    [ProcessPhase] for it (line 199) is dead. *)
Theorem phase_never_completed t0 s : app_reachable t0 s -> phase s <> completed.
Proof. intros H. by destruct (app_reachable_inv t0 s H) as [Hc _]. Qed.

(** C23. The App only ever holds a file that passed [validateAndSetFile]:
    at most 2 GiB and of a [video/] type. *)
Theorem app_file_valid t0 s f :
  app_reachable t0 s -> file s = Some f -> Upload.file_ok f = true.
Proof. intros H Hf. destruct (app_reachable_inv t0 s H) as (_ & Hv & _). by apply Hv. Qed.

(** C24. In every reachable state the custom phrases, and the phrases of
    every saved list, number at most 10, each trimmed and not empty. *)
Theorem app_phrases_bounded t0 s :
  app_reachable t0 s ->
  (length (customPhrases (config s)) <= 10)%nat /\ Forall Upload.phrase_ok (customPhrases (config s)) /\
  Forall (fun l => Upload.phrases_ok (phrases l)) (savedLists s).
Proof.
  intros H. destruct (app_reachable_inv t0 s H) as (_ & _ & [[H1 H2] H3] & _). done.
Qed.

(** C22. On the review and processing screens the cuts have pairwise
    distinct ids and each passed the configuration's filter; accepting or
    rejecting a cut keeps both. *)
Theorem review_cuts_filtered t0 s :
  app_reachable t0 s -> phase s = review \/ phase s = processing ->
  NoDup (map id (cuts s)) /\ Forall (fun c => keep_cut (config s) c = true) (cuts s).
Proof. intros H Hph. destruct (app_reachable_inv t0 s H) as (_ & _ & _ & _ & _ & Hr). auto. Qed.

(** C25. The comment of the filter (line 85) says a silence must last more
    than the threshold; the code drops it only when it is shorter, so a
    silence of exactly the threshold (2 s, the length the mock gives every
    silence, with the slider at 2.0) is kept. *)
Theorem silence_at_threshold_kept :
  keep_cut (Upload.with_threshold 2 default_config)
           (mkCut "cut-0" silence (Some "(Silence)") 10 12 (9#10) accepted) = true.
Proof. vm_compute. reflexivity. Qed.

(** ** Concrete runs *)

Definition demo_file : Upload.File := Upload.mkFile "talk.mp4" "video/mp4" 1048576.
Definition demo_selected : AppState := uploadAction (Upload.UChange [demo_file]) (app_initial 0).
Definition demo_analyzing : AppState := uploadAction Upload.UAnalyze demo_selected.
Definition demo_review : AppState :=
  analysisDone (fst (Analysis.analyzeVideoMock (fun _ => 1#2) 60 O)) demo_analyzing.

(** The run select a file, analyze, the mock resolves. *)
Ltac reach_demo :=
  apply (ar_step 0 demo_analyzing demo_review);
  [ apply (ar_step 0 demo_selected demo_analyzing);
    [ apply (ar_step 0 (app_initial 0) demo_selected);
      [ apply ar_init | apply st_upload; reflexivity ]
    | apply st_upload; vm_compute; reflexivity ]
  | apply (st_analysis_done (fun _ => 1#2) 60 default_config);
    [ vm_compute; reflexivity | intros _; decide_concrete ] ].

Lemma phase_never_completed_witness : phase demo_review <> completed.
Proof. apply (phase_never_completed 0 demo_review). reach_demo. Defined.

Lemma app_file_valid_witness : Upload.file_ok demo_file = true.
Proof. apply (app_file_valid 0 demo_review demo_file); [reach_demo | vm_compute; reflexivity]. Defined.

Lemma app_phrases_bounded_witness :
  (length (customPhrases (config demo_review)) <= 10)%nat /\
  Forall Upload.phrase_ok (customPhrases (config demo_review)) /\
  Forall (fun l => Upload.phrases_ok (phrases l)) (savedLists demo_review).
Proof. apply (app_phrases_bounded 0 demo_review). reach_demo. Defined.

Lemma review_cuts_filtered_witness :
  NoDup (map id (cuts demo_review)) /\
  Forall (fun c => keep_cut (config demo_review) c = true) (cuts demo_review).
Proof. apply (review_cuts_filtered 0 demo_review); [reach_demo | left; vm_compute; reflexivity]. Defined.

Definition demo_phrases : AppState :=
  set_config (Upload.with_phrases ["sort of"; "kind of"] default_config) (app_initial 0).

Lemma removeCustomPhrase_effect_witness :
  let ps := customPhrases (Upload.config demo_phrases) in
  let ps' := customPhrases (Upload.config (Upload.removeCustomPhrase 0 demo_phrases)) in
  ps' = take 0 ps ++ drop 1 ps /\
  ((0 < length ps)%nat -> length ps' = (length ps - 1)%nat) /\
  ((length ps <= 0)%nat -> ps' = ps).
Proof. apply Upload.removeCustomPhrase_effect. Defined.

End App.
