(* ===== verification/Process.v ===== *)
(** The processing screen, [src/components/ProcessPhase.tsx] (its last
    revision, lines 418-742): the simulated render progress (an effect that
    re-arms a timeout, lines 453-475), the stage shown for a progress value
    ([getStageInfo], lines 441-448), the report request once complete
    (lines 477-487), the final preview player that skips accepted cuts with
    a 0.1 s tolerance and a 0.05 s overshoot (lines 489-518), the preview
    button and the download (lines 520-554).  The random increments are
    the draws of [Math.random()] given to each timer step. *)

From S2P Require Import Prelude Types SkipPolicy Media Upload.

Module Process.

(** ** Progress *)

(** [getStageInfo] (lines 442-448): the label and the data its detail text
    shows. *)
Inductive Stage :=
  | Initializing
  | AnalyzingAudio
  | Trimming (acceptedCount : nat)
  | Stitching (format : OutputFormat)
  | Finalizing.

Definition getStageInfo (cuts : list CutEvent) (config : VideoConfig) (p : Z) : Stage :=
  if (p <? 20)%Z then Initializing
  else if (p <? 45)%Z then AnalyzingAudio
  else if (p <? 70)%Z then Trimming (length (List.filter is_accepted cuts))
  else if (p <? 90)%Z then Stitching (outputFormat config)
  else Finalizing.

(** [increment] of the effect (lines 462-468) for the draw [r]. *)
Definition increment (progress : Z) (r : Q) : Z :=
  if (60 <? progress)%Z && (progress <? 80)%Z
  then Z.max 1 (Qfloor (r * 3))
  else Z.max 1 (Qfloor (r * 5)).

(** [delay] of the effect, in milliseconds. *)
Definition delay (progress : Z) : Z :=
  if (60 <? progress)%Z && (progress <? 80)%Z then 500 else 300.

(** The progress effect is the same in the three revisions of the file
    but for the increment it draws; [rule] is that increment. *)
Section ProgressRule.
Variable rule : Z -> Q -> Z.

(** The timeout's update [prev => Math.min(100, prev + increment)]. *)
Definition timer_step_by (progress : Z) (r : Q) : Z := Z.min 100 (progress + rule progress r).

(** Successive runs of the effect with the draws [rnd k], [rnd (k+1)], ...:
    the progress after at most [n] timeouts; the effect arms no timeout
    once the progress is 100. *)
Fixpoint run_progress_by (rnd : nat -> Q) (k n : nat) (progress : Z) : Z :=
  match n with
  | O => progress
  | S n' => if (100 <=? progress)%Z then progress
            else run_progress_by rnd (S k) n' (timer_step_by progress (rnd k))
  end.

End ProgressRule.

Definition timer_step : Z -> Q -> Z := timer_step_by increment.
Definition run_progress : (nat -> Q) -> nat -> nat -> Z -> Z := run_progress_by increment.

(** ** The final preview player *)

(** [c.status === 'accepted' && time >= c.start && time < (c.end - 0.1)] *)
Definition in_active_cut (time : Q) (c : CutEvent) : bool :=
  is_accepted c && (start c <=? time) && (time <? end_ c - (1#10)).

Definition activeCut (cuts : list CutEvent) (time : Q) : option CutEvent :=
  find (in_active_cut time) cuts.

(** The jump target [activeCut.end + 0.05]. *)
Definition jump_target (c : CutEvent) : Q := end_ c + (1#20).

(** The play-head after at most [fuel] frames with no playback between. *)
Fixpoint preview_chain (cuts : list CutEvent) (fuel : nat) (t : Q) : Q :=
  match fuel with
  | O => t
  | S f => match activeCut cuts t with
           | Some c => preview_chain cuts f (jump_target c)
           | None => t
           end
  end.

(** ** Download *)

(** [config.outputFormat] as text. *)
Definition format_ext (f : OutputFormat) : string :=
  match f with mp4 => "mp4" | mov => "mov" | avi => "avi" | mkv => "mkv" end.

(** The link [handleDownload] clicks: an object URL of the [File], or the
    [fileUrl] prop. *)
Inductive Href := FileObjectUrl (f : Upload.File) | ExistingUrl (url : string).

(** [handleDownload] (lines 529-554), given the [file] and [fileUrl] props
    ([None] for a prop the parent does not pass, i.e. [undefined]): the
    link clicked, if any, and its [download] name. *)
Definition handleDownload (file : option Upload.File) (fileUrl : option string)
    (config : VideoConfig) : option (Href * string) :=
  let name := "clarity_cut_optimized." +:+ format_ext (outputFormat config) in
  match file with
  | Some f => Some (FileObjectUrl f, name)
  | None =>
      match fileUrl with
      | None => None
      | Some u => if String.eqb u "" then None else Some (ExistingUrl u, name)
      end
  end.

(** ** The screen as a state machine *)

Section Screen.
Context {M : Type} `{ME : MediaElement M}.
Variable rule : Z -> Q -> Z.

(** The hooks of [ProcessPhase] (lines 433-439) and its props. *)
Record ProcessState := mkProcess {
  progress : Z;
  isComplete : bool;
  aiReport : string;
  loadingReport : bool;
  isPlaying : bool;
  video : option M;
  cuts : list CutEvent;
  config : VideoConfig
}.

Definition process_initial (v : option M) (cs : list CutEvent) (cfg : VideoConfig) : ProcessState :=
  mkProcess 0 false "" false false v cs cfg.

Definition set_progress x s := mkProcess x (isComplete s) (aiReport s) (loadingReport s)
  (isPlaying s) (video s) (cuts s) (config s).
Definition set_isComplete x s := mkProcess (progress s) x (aiReport s) (loadingReport s)
  (isPlaying s) (video s) (cuts s) (config s).
Definition set_aiReport x s := mkProcess (progress s) (isComplete s) x (loadingReport s)
  (isPlaying s) (video s) (cuts s) (config s).
Definition set_loadingReport x s := mkProcess (progress s) (isComplete s) (aiReport s) x
  (isPlaying s) (video s) (cuts s) (config s).
Definition set_isPlaying x s := mkProcess (progress s) (isComplete s) (aiReport s)
  (loadingReport s) x (video s) (cuts s) (config s).
Definition set_video x s := mkProcess (progress s) (isComplete s) (aiReport s)
  (loadingReport s) (isPlaying s) x (cuts s) (config s).

(** The progress effect (lines 454-475) run to its end: when the progress
    is 100 it marks the render complete; otherwise its timeout fires with
    the draw [r]. *)
Definition progressEffect (r : Q) (s : ProcessState) : ProcessState :=
  if (100 <=? progress s)%Z then (if isComplete s then s else set_isComplete true s)
  else set_progress (timer_step_by rule (progress s) r) s.

(** The report effect (lines 478-487): the request, then its answer. *)
Definition reportStart (s : ProcessState) : ProcessState :=
  if isComplete s then set_loadingReport true s else s.

Definition reportDone (report : string) (s : ProcessState) : ProcessState :=
  set_loadingReport false (set_aiReport report s).

(** [checkTime] of the final preview (lines 493-511); the loop runs only
    once the render is complete (line 513). *)
Definition checkTime (s : ProcessState) : ProcessState :=
  if negb (isComplete s) then s else
  match video s with
  | Some v =>
      if negb (m_paused v) then
        match activeCut (cuts s) (m_currentTime v) with
        | Some c => set_video (Some (m_seek (jump_target c) v)) s
        | None => s
        end
      else s
  | None => s
  end.

(** [handlePlayPreview] (lines 520-527). *)
Definition handlePlayPreview (s : ProcessState) : ProcessState :=
  match video s with
  | Some v => if m_paused v then set_video (Some (m_play v)) s else s
  | None => s
  end.

Inductive process_action :=
  | PProgress (r : Q)          (** the progress effect and its timeout *)
  | PReportStart
  | PReportDone (report : string)
  | PFrame                     (** a frame of the preview loop *)
  | PClock (dt : Q)            (** playback by the element *)
  | PPlayPreview
  | PPlayEvent | PPauseEvent.  (** [onPlay], [onPause] (lines 650-651) *)

Definition process_step (a : process_action) (s : ProcessState) : ProcessState :=
  match a with
  | PProgress r => progressEffect r s
  | PReportStart => reportStart s
  | PReportDone t => reportDone t s
  | PFrame => checkTime s
  | PClock dt => match video s with
                 | Some v => set_video (Some (m_advance dt v)) s
                 | None => s
                 end
  | PPlayPreview => handlePlayPreview s
  | PPlayEvent => set_isPlaying true s
  | PPauseEvent => set_isPlaying false s
  end.

(** A report answer arrives only for a request in flight. *)
Definition process_enabled (a : process_action) (s : ProcessState) : bool :=
  match a with
  | PReportDone _ => loadingReport s
  | PClock dt => 0 <=? dt
  | _ => true
  end.

Inductive process_reachable (v : option M) (cs : list CutEvent) (cfg : VideoConfig)
    : ProcessState -> Prop :=
  | pr_init : process_reachable v cs cfg (process_initial v cs cfg)
  | pr_step a s : process_reachable v cs cfg s -> process_enabled a s = true ->
      process_reachable v cs cfg (process_step a s).

End Screen.


(** ** Lemmas *)

Lemma increment_pos p r : (1 <= increment p r)%Z.
Proof. unfold increment. case_match; lia. Qed.

(** A draw in [0, 1) adds at most 4. *)
Lemma increment_le p r : 0 <= r < 1 -> (increment p r <= 4)%Z.
Proof.
  intros Hr. unfold increment.
  assert (Qfloor (r * 3) < 3)%Z by (apply Qfloor_lt; change (inject_Z 3) with 3; lra).
  assert (Qfloor (r * 5) < 5)%Z by (apply Qfloor_lt; change (inject_Z 5) with 5; lra).
  case_match; lia.
Qed.

Section RuleLemmas.
Variable rule : Z -> Q -> Z.
Hypothesis rule_pos : forall p r, (1 <= rule p r)%Z.

Lemma timer_step_by_bounds p r : (p < 100)%Z -> (p < timer_step_by rule p r <= 100)%Z.
Proof. intros H. unfold timer_step_by. pose proof (rule_pos p r). lia. Qed.

(** Whatever the draws, an increment of at least 1 brings the progress
    to 100 within [100 - p] timeouts. *)
Lemma run_progress_by_completes rnd k n p :
  (p <= 100)%Z -> (100 - p <= Z.of_nat n)%Z -> run_progress_by rule rnd k n p = 100%Z.
Proof.
  revert k p. induction n as [|n IH]; intros k p Hp Hn; cbn; [lia|].
  destruct (100 <=? p)%Z eqn:E; [apply Z.leb_le in E; lia|].
  apply Z.leb_gt in E. pose proof (timer_step_by_bounds p (rnd k) E).
  apply IH; lia.
Qed.

(** With draws in [0, 1) and increments of at most [b], the progress never
    goes back and gains at most [b] per timeout. *)
Lemma run_progress_by_rate (b : Z) rnd k n p :
  (forall p r, 0 <= r < 1 -> (rule p r <= b)%Z) -> draws_ok rnd -> (p <= 100)%Z ->
  (p <= run_progress_by rule rnd k n p <= Z.min 100 (p + b * Z.of_nat n))%Z.
Proof.
  intros Hb Hr. assert (Hb1 : (1 <= b)%Z) by (pose proof (Hb 0%Z 0 ltac:(lra)); pose proof (rule_pos 0%Z 0); lia).
  revert k p. induction n as [|n IH]; intros k p Hp; cbn; [lia|].
  destruct (100 <=? p)%Z eqn:E; [apply Z.leb_le in E; nia|].
  apply Z.leb_gt in E. pose proof (timer_step_by_bounds p (rnd k) E).
  pose proof (Hb p (rnd k) (Hr k)). unfold timer_step_by in *.
  destruct (IH (S k) (Z.min 100 (p + rule p (rnd k)))) as [H1 H2]; [lia|]. lia.
Qed.

End RuleLemmas.

Lemma timer_step_bounds p r : (p < 100)%Z -> (p < timer_step p r <= 100)%Z.
Proof. apply timer_step_by_bounds, increment_pos. Qed.

(** The final-preview jump leaves the cut and clears one of the accepted
    cuts whose skippable part is still ahead. *)
Definition pending_active (cuts : list CutEvent) (t : Q) : nat :=
  length (List.filter (fun c => is_accepted c && (t <? end_ c - (1#10))) cuts).

Lemma in_active_cut_spec t c :
  in_active_cut t c = true <-> status c = accepted /\ start c <= t /\ t < end_ c - (1#10).
Proof.
  unfold in_active_cut, is_accepted. rewrite !andb_true_iff, !bool_decide_eq_true. tauto.
Qed.

Lemma active_jump cuts t c :
  activeCut cuts t = Some c ->
  t < jump_target c /\ (pending_active cuts (jump_target c) < pending_active cuts t)%nat.
Proof.
  intros Hc. apply find_some_in in Hc as [Hin Hc].
  apply in_active_cut_spec in Hc as (Hst & H1 & H2). unfold jump_target.
  split; [lra|]. apply (Skip.filter_length_lt _ _ _ c); [| exact Hin | |].
  - intros x _ Hx. apply andb_true_iff in Hx as [Ha Hx]. apply andb_true_iff. split; [done|].
    qsolve.
  - apply andb_true_iff. split; [unfold is_accepted; by rewrite Hst | qsolve].
  - apply andb_false_iff. right. qsolve.
Qed.

Lemma pending_active_le cuts t : (pending_active cuts t <= Skip.accepted_count cuts)%nat.
Proof. apply Skip.filter_length_le. intros c _ H. apply andb_true_iff in H. tauto. Qed.

Lemma preview_chain_done cuts n t :
  (pending_active cuts t <= n)%nat -> activeCut cuts (preview_chain cuts n t) = None.
Proof.
  revert t. induction n as [|n IH]; intros t Hn; cbn.
  - destruct (activeCut cuts t) as [c|] eqn:E; [|done].
    apply active_jump in E. lia.
  - destruct (activeCut cuts t) as [c|] eqn:E; [|done].
    apply IH. pose proof (active_jump cuts t c E). lia.
Qed.

(** ** The invariant of the screen *)

Section ScreenInv.
Context {M : Type} `{ME : MediaElement M}.
Variable rule : Z -> Q -> Z.
Hypothesis rule_pos : forall p r, (1 <= rule p r)%Z.

Definition process_inv (s : @ProcessState M) : Prop :=
  (0 <= progress s <= 100)%Z /\ (isComplete s = true -> progress s = 100%Z) /\
  (loadingReport s = true -> isComplete s = true).

Lemma process_step_inv a (s : @ProcessState M) :
  process_inv s -> process_inv (process_step rule a s).
Proof.
  intros Hi. pose proof Hi as (H1 & H2 & H3). destruct a; cbn.
  - unfold progressEffect. destruct (100 <=? progress s)%Z eqn:E.
    + apply Z.leb_le in E. destruct (isComplete s); [exact Hi|].
      unfold process_inv; cbn. split; [lia | split; [intros _; lia | done]].
    + apply Z.leb_gt in E. pose proof (timer_step_by_bounds rule rule_pos (progress s) r E).
      unfold process_inv; cbn. split; [lia | split; [intros Hc; specialize (H2 Hc); lia | done]].
  - unfold reportStart. destruct (isComplete s) eqn:E; [|exact Hi].
    unfold process_inv; cbn. auto.
  - unfold process_inv; cbn. split; [exact H1 | split; [exact H2 | discriminate]].
  - unfold checkTime. repeat case_match; exact Hi.
  - case_match; exact Hi.
  - unfold handlePlayPreview. repeat case_match; exact Hi.
  - exact Hi.
  - exact Hi.
Qed.

End ScreenInv.


(** ** Properties *)

(** C29. The simulated render ends: whatever [Math.random()] returns, the
    progress reaches 100 after at most [100 - progress] timeouts. *)
Theorem progress_completes rnd k n p :
  (p <= 100)%Z -> (100 - p <= Z.of_nat n)%Z -> run_progress rnd k n p = 100%Z.
Proof. apply run_progress_by_completes, increment_pos. Qed.

(** The progress never goes back and gains at most 4 per timeout, so
    a render from 0 shows at least 25 steps. *)
Theorem progress_rate rnd k n p :
  draws_ok rnd -> (p <= 100)%Z ->
  (p <= run_progress rnd k n p <= Z.min 100 (p + 4 * Z.of_nat n))%Z.
Proof. apply run_progress_by_rate; [apply increment_pos | apply increment_le]. Qed.

(** C33. The final preview's skipping terminates: after one jump per
    accepted cut the play-head is in no accepted cut's skippable part
    [start, end - 0.1), and it only moved forward. *)
Theorem preview_chain_converges cuts t :
  activeCut cuts (preview_chain cuts (Skip.accepted_count cuts) t) = None /\
  t <= preview_chain cuts (Skip.accepted_count cuts) t.
Proof.
  split; [apply preview_chain_done, pending_active_le|].
  generalize (Skip.accepted_count cuts). intros n. revert t.
  induction n as [|n IH]; intros t; cbn; [lra|].
  destruct (activeCut cuts t) as [c|] eqn:E; [|lra].
  pose proof (active_jump cuts t c E) as [H _]. specialize (IH (jump_target c)). lra.
Qed.

(** C34. The final preview differs from the review screen's skipping: a
    cut of 0.05 s is never skipped, the last 0.1 s of a cut is played, and
    a jump lands 0.05 s past the cut, skipping kept content. *)
Theorem final_preview_vs_review :
  let short := mkCut "cut-0" filler None 2 (41#20) (9#10) accepted in
  let c := mkCut "cut-1" cliche None 2 4 (9#10) accepted in
  Skip.currentCut [short] 2 = Some short /\ activeCut [short] 2 = None /\
  Skip.currentCut [c] (79#20) = Some c /\ activeCut [c] (79#20) = None /\
  Skip.skip_chain (Skip.currentCut [c]) 1 3 == 4 /\ preview_chain [c] 1 3 == 81#20.
Proof. vm_compute. split_and!; reflexivity. Qed.

(** [ProcessPhase] downloads nothing without its [file] and [fileUrl]
    props, which [App] does not pass (lines 200-205 of the App); with a
    file it names the download after the output format. *)
Theorem download_props f cfg :
  handleDownload None None cfg = None /\
  handleDownload (Some f) None cfg =
    Some (FileObjectUrl f, "clarity_cut_optimized." +:+ format_ext (outputFormat cfg)).
Proof. done. Qed.

Section ScreenProps.
Context {M : Type} `{ME : MediaElement M} `{ML : !MediaLaws M}.

(** C30. Every reachable state of the processing screen has its progress
    in [0, 100], is complete only at 100, and loads a report only once
    complete. *)
Theorem process_reachable_inv rule v cs cfg (s : @ProcessState M) :
  (forall p r, (1 <= rule p r)%Z) -> process_reachable rule v cs cfg s -> process_inv s.
Proof.
  intros Hrule. induction 1 as [|a s _ IH _]; [|by apply process_step_inv].
  unfold process_inv; cbn. split; [lia | split; discriminate].
Qed.

(** A frame of the final preview inside the skippable part of an
    accepted cut that ends within the video seeks the element past it:
    to [end + 0.05], clamped to the duration, out of the cut. *)
Theorem preview_frame_leaves_cut (s : @ProcessState M) v c :
  isComplete s = true -> video s = Some v -> m_paused v = false -> media_wf v ->
  activeCut (cuts s) (m_currentTime v) = Some c -> end_ c <= m_duration v ->
  exists v', video (checkTime s) = Some v' /\ m_paused v' = false /\
    m_currentTime v' == clamp 0 (m_duration v) (jump_target c) /\
    in_active_cut (m_currentTime v') c = false.
Proof.
  intros Hc Hv Hp Hwf Ha He. unfold checkTime. rewrite Hc, Hv, Hp, Ha. cbn.
  exists (m_seek (jump_target c) v). split_and!; [done | by rewrite seek_paused | |].
  - apply seek_time. unfold media_wf in Hwf. lra.
  - unfold media_wf in Hwf. assert (Hd : 0 <= m_duration v) by lra.
    pose proof (seek_time (jump_target c) v Hd) as Hs.
    assert (Hge : end_ c <= clamp 0 (m_duration v) (jump_target c)).
    { unfold clamp, jump_target. eapply Qle_trans; [|apply Q.le_max_r].
      apply Q.min_glb; lra. }
    apply not_true_iff_false. intros Hin. apply in_active_cut_spec in Hin as (_ & _ & H2). lra.
Qed.

End ScreenProps.

(** ** Concrete runs *)

Lemma progress_completes_witness : run_progress (fun _ => 0) O 100 0 = 100%Z.
Proof. apply progress_completes; vm_compute; discriminate. Defined.

Lemma progress_rate_witness :
  (0 <= run_progress (fun _ => 1#2) O 10 0 <= Z.min 100 (0 + 4 * Z.of_nat 10))%Z.
Proof. apply progress_rate; [intros _; decide_concrete | vm_compute; discriminate]. Defined.

Definition ex_video : Video := mkVideo false 3 60 true.
Definition ex_cut : CutEvent := mkCut "cut-0" filler None 2 4 (9#10) accepted.
Definition ex_config : VideoConfig := mkConfig true true true true true 1 [] mp4 q1080p.
Definition ex_done : @ProcessState Video :=
  mkProcess 100 true "" false true (Some ex_video) [ex_cut] ex_config.

Lemma process_reachable_inv_witness :
  process_inv (process_step increment (PProgress (1#2)) (process_initial (Some ex_video) [ex_cut] ex_config)).
Proof.
  apply (process_reachable_inv increment (Some ex_video) [ex_cut] ex_config); [apply increment_pos|].
  apply pr_step; [apply pr_init | reflexivity].
Defined.

Lemma preview_frame_leaves_cut_witness :
  exists v', video (checkTime ex_done) = Some v' /\ m_paused v' = false /\
    m_currentTime v' == clamp 0 (m_duration ex_video) (jump_target ex_cut) /\
    in_active_cut (m_currentTime v') ex_cut = false.
Proof.
  apply (preview_frame_leaves_cut ex_done ex_video ex_cut);
    [reflexivity | reflexivity | reflexivity | unfold media_wf; decide_concrete
    | vm_compute; reflexivity | decide_concrete].
Defined.

End Process.
