(* ===== verification/ProcessView.v ===== *)
(** What the processing screen shows: the render of the last revision of
    [ProcessPhase.tsx] as functions of [Process.ProcessState] and its
    props.  While rendering (lines 555-639): the stage's label and detail
    ([getStageInfo], lines 442-448), the percentage and the export format
    and quality; once complete (lines 641-736): the playing indicator, the
    four metric cards, the report card and the download button's label. *)

From stdpp Require Import pretty.
From Stdlib Require Import Ascii.
From S2P Require Import Prelude Types Format Media SkipPolicy Review Metrics ReviewView Upload Process.

Module ProcessView.

Import Format.

(** [s.toUpperCase()] on ASCII letters. *)
Definition ascii_upper (c : ascii) : ascii :=
  let n := N_of_ascii c in
  if decide (97 <= n <= 122)%N then ascii_of_N (n - 32) else c.

Fixpoint to_upper (s : string) : string :=
  match s with
  | EmptyString => EmptyString
  | String c s' => String (ascii_upper c) (to_upper s')
  end.

(** [config.outputQuality] as text (types.ts line 6). *)
Definition quality_text (q : OutputQuality) : string :=
  match q with
  | original => "original" | q4k => "4k" | q1080p => "1080p" | q720p => "720p" | q480p => "480p"
  end.

(** The label and detail of a stage (lines 443-447). *)
Definition stage_label (st : Process.Stage) : string :=
  match st with
  | Process.Initializing => "Initializing Engine"
  | Process.AnalyzingAudio => "Analyzing Audio"
  | Process.Trimming _ => "Trimming Segments"
  | Process.Stitching _ => "Stitching & Encoding"
  | Process.Finalizing => "Finalizing"
  end.

Definition stage_detail (st : Process.Stage) : string :=
  match st with
  | Process.Initializing => "Loading video into processing buffer..."
  | Process.AnalyzingAudio => "Identifying filler words and silences..."
  | Process.Trimming n => "Removing " +:+ pretty n +:+ " detected events..."
  | Process.Stitching f => "Reassembling as " +:+ to_upper (Process.format_ext f) +:+ "..."
  | Process.Finalizing => "Preparing download..."
  end.

(** The order in which the stages follow each other. *)
Definition stage_rank (st : Process.Stage) : nat :=
  match st with
  | Process.Initializing => 0 | Process.AnalyzingAudio => 1 | Process.Trimming _ => 2
  | Process.Stitching _ => 3 | Process.Finalizing => 4
  end.

(** The four cards of the metrics grid (lines 684-689): label and value. *)
Definition stat_cards (metrics : ProcessingMetrics) (config : VideoConfig) : option (list (string * string)) :=
  saved ← toFixed 1 (Fin (timeSaved metrics));
  dur ← toFixed 1 (div (finalDuration metrics) 60);
  Some [("Time Saved", saved +:+ "s");
        ("Cuts Made", pretty (N.of_nat (cutsCount metrics)));
        ("New Duration", dur +:+ "m");
        ("Format", to_upper (Process.format_ext (outputFormat config)))].

(** The download button (lines 725-728): [Download .{FORMAT}]. *)
Definition download_label (config : VideoConfig) : string :=
  "Download ." +:+ to_upper (Process.format_ext (outputFormat config)).

(** The report card (lines 697-718): the skeleton while the report
    loads ([None]), then the report's text. *)
Definition report_card (loadingReport : bool) (aiReport : string) : option string :=
  if loadingReport then None else Some aiReport.

(** What the screen shows. *)
Inductive Screen :=
  | Rendering (label detail percent format quality : string)
  | Complete (playing : bool) (cards : option (list (string * string)))
             (report : option string) (download : string).

Section View.
Context {M : Type} `{ME : MediaElement M}.

(** The render (lines 555-736); [report] is [None] while the skeleton of a
    loading report is shown. *)
Definition view (metrics : ProcessingMetrics) (s : @Process.ProcessState M) : Screen :=
  let st := Process.getStageInfo (Process.cuts s) (Process.config s) (Process.progress s) in
  if negb (Process.isComplete s) then
    Rendering (stage_label st) (stage_detail st) (pretty (Process.progress s) +:+ "%")
              (Process.format_ext (outputFormat (Process.config s)))
              (quality_text (outputQuality (Process.config s)))
  else
    Complete (Process.isPlaying s) (stat_cards metrics (Process.config s))
             (report_card (Process.loadingReport s) (Process.aiReport s))
             (download_label (Process.config s)).

End View.


(** ** Lemmas *)

Lemma stage_rank_bounds cs cfg p :
  stage_rank (Process.getStageInfo cs cfg p) =
  (if (p <? 20)%Z then 0 else if (p <? 45)%Z then 1 else if (p <? 70)%Z then 2
   else if (p <? 90)%Z then 3 else 4)%nat.
Proof. unfold Process.getStageInfo. repeat case_match; done. Qed.

(** The stage only depends on the progress, and grows with it. *)
Lemma stage_rank_mono cs cfg p q :
  (p <= q)%Z -> (stage_rank (Process.getStageInfo cs cfg p) <= stage_rank (Process.getStageInfo cs cfg q))%nat.
Proof.
  intros H. rewrite !stage_rank_bounds.
  repeat match goal with |- context [(?a <? ?b)%Z] => destruct (Z.ltb_spec a b) end; lia.
Qed.

(** Ten points of progress move the stage on by at most one. *)
Lemma stage_rank_step cs cfg p q :
  (p <= q <= p + 9)%Z ->
  (stage_rank (Process.getStageInfo cs cfg q) <= S (stage_rank (Process.getStageInfo cs cfg p)))%nat.
Proof.
  intros H. rewrite !stage_rank_bounds.
  repeat match goal with |- context [(?a <? ?b)%Z] => destruct (Z.ltb_spec a b) end; lia.
Qed.

Lemma upper_ext f : to_upper (Process.format_ext f) =
  match f with mp4 => "MP4" | mov => "MOV" | avi => "AVI" | mkv => "MKV" end.
Proof. by destruct f. Qed.

(** ** Properties *)

(** C37. The rendering screen shows the stages in their order and skips none:
    with draws in [0, 1), a timeout moves the stage on by at most one and
    never back. *)
Theorem stages_in_order cs cfg p r :
  0 <= r < 1 -> (p < 100)%Z ->
  (stage_rank (Process.getStageInfo cs cfg p) <=
   stage_rank (Process.getStageInfo cs cfg (Process.timer_step p r)) <=
   S (stage_rank (Process.getStageInfo cs cfg p)))%nat.
Proof.
  intros Hr Hp. pose proof (Process.timer_step_bounds p r Hp).
  pose proof (Process.increment_le p r Hr). unfold Process.timer_step, Process.timer_step_by in *.
  split; [apply stage_rank_mono | apply stage_rank_step]; lia.
Qed.

Section Agree.
Context {M : Type} `{ME : MediaElement M}.

(** C38. The review screen's header and the processing screen's cards show the
    same figures: the number of accepted cuts and the time saved printed
    with [toFixed(1)], when the App hands the edited cuts to
    [calculateMetrics]. *)
Theorem screens_agree (s : @Review.ReviewState M) d cfg :
  Qabs (Metrics.sum_lengths (Metrics.accepted_cuts (Review.cuts s))) < inject_Z (10 ^ 21) ->
  Qabs (finalDuration (Metrics.calculateMetrics (Review.cuts s) d) / 60) < inject_Z (10 ^ 21) ->
  exists (n : N) t cards,
    ReviewView.header_text s = Some (pretty n +:+ " cuts selected • -" +:+ t +:+ "s removed") /\
    stat_cards (Metrics.calculateMetrics (Review.cuts s) d) cfg = Some cards /\
    ("Time Saved", t +:+ "s") ∈ cards /\ ("Cuts Made", pretty n) ∈ cards.
Proof.
  intros Hs Hf. unfold ReviewView.header_text, stat_cards, Metrics.stats. cbn [timeSaved finalDuration cutsCount Metrics.calculateMetrics].
  destruct (toFixed_fin_some 1 _ Hs) as [t Ht]. rewrite Ht.
  unfold div. rewrite decide_False by (vm_compute; discriminate).
  destruct (toFixed_fin_some 1 _ Hf) as [u Hu]. cbn [finalDuration Metrics.calculateMetrics] in Hu. rewrite Hu.
  eexists _, t, _. split_and!; [reflexivity | reflexivity | set_solver | set_solver].
Qed.

End Agree.

(** ** Witnesses *)

Lemma stages_in_order_witness :
  (stage_rank (Process.getStageInfo [] Process.ex_config 18) <=
   stage_rank (Process.getStageInfo [] Process.ex_config (Process.timer_step 18 (9#10))) <=
   S (stage_rank (Process.getStageInfo [] Process.ex_config 18)))%nat.
Proof. apply stages_in_order; [decide_concrete | lia]. Defined.

Lemma screens_agree_witness :
  exists (n : N) t cards,
    ReviewView.header_text Review.ex_state = Some (pretty n +:+ " cuts selected • -" +:+ t +:+ "s removed") /\
    stat_cards (Metrics.calculateMetrics (Review.cuts Review.ex_state) 60) Process.ex_config = Some cards /\
    ("Time Saved", t +:+ "s") ∈ cards /\ ("Cuts Made", pretty n) ∈ cards.
Proof. apply screens_agree; decide_concrete. Defined.

End ProcessView.
