(* ===== verification/ProcessRevisions.v ===== *)
(** The two earlier revisions of [src/components/ProcessPhase.tsx], kept in
    the file before the last one: revision 1 (lines 1-151) shows the
    simulated render and, once complete, the metrics and the report;
    revision 2 (lines 151-417) adds the preview player that skips accepted
    cuts and the download.  Both draw the increment of the progress as
    [Math.max(1, Math.floor(Math.random() * 10))] (lines 30 and 185), where
    the last revision draws it smaller and by stage.  Revision 2 is the
    state machine of [Process] with that increment; revision 1 is its own
    machine ([Rev1]) on the four hooks it has, and is simulated by
    revision 2. *)

From stdpp Require Import pretty.
From S2P Require Import Prelude Types Format Media Upload Process ProcessView.

Module ProcessRevisions.

(** The increment of revisions 1 and 2 for the draw [r]; it does not depend
    on the progress. *)
Definition increment_rev (progress : Z) (r : Q) : Z := Z.max 1 (Qfloor (r * 10)).

(** ** Revision 1 *)

Module Rev1.

(** The hooks of revision 1 (lines 16-19) and the props its effects read. *)
Record State := mkState {
  progress : Z;
  isComplete : bool;
  aiReport : string;
  loadingReport : bool;
  cuts : list CutEvent;
  config : VideoConfig
}.

Definition initial (cs : list CutEvent) (cfg : VideoConfig) : State :=
  mkState 0 false "" false cs cfg.

(** The progress effect (lines 22-35): at 100 it sets [isComplete], with no
    guard on its old value; otherwise its timeout fires with the draw [r]. *)
Definition progressEffect (r : Q) (s : State) : State :=
  if (100 <=? progress s)%Z
  then mkState (progress s) true (aiReport s) (loadingReport s) (cuts s) (config s)
  else mkState (Process.timer_step_by increment_rev (progress s) r) (isComplete s)
         (aiReport s) (loadingReport s) (cuts s) (config s).

(** The report effect (lines 38-47): the request, then its answer. *)
Definition reportStart (s : State) : State :=
  if isComplete s
  then mkState (progress s) (isComplete s) (aiReport s) true (cuts s) (config s)
  else s.

Definition reportDone (report : string) (s : State) : State :=
  mkState (progress s) (isComplete s) report false (cuts s) (config s).

Inductive action :=
  | Progress (r : Q)
  | ReportStart
  | ReportDone (report : string).

Definition step (a : action) (s : State) : State :=
  match a with
  | Progress r => progressEffect r s
  | ReportStart => reportStart s
  | ReportDone t => reportDone t s
  end.

(** A report answer arrives only for a request in flight. *)
Definition enabled (a : action) (s : State) : bool :=
  match a with
  | ReportDone _ => loadingReport s
  | _ => true
  end.

Inductive reachable (cs : list CutEvent) (cfg : VideoConfig) : State -> Prop :=
  | r1_init : reachable cs cfg (initial cs cfg)
  | r1_step a s : reachable cs cfg s -> enabled a s = true -> reachable cs cfg (step a s).

(** What revision 1 shows (lines 49-146): while rendering, the percentage
    and the export format and quality; once complete, the banner's
    sentence, the four metric cards, the report (or its skeleton while it
    loads) and the labels of the action buttons.  The download button has
    no [onClick] (line 131). *)
Inductive Screen :=
  | Rendering (percent format quality : string)
  | Complete (banner : string) (cards : option (list (string * string)))
             (report : option string) (buttons : list string).

Definition view (metrics : ProcessingMetrics) (s : State) : Screen :=
  if negb (isComplete s) then
    Rendering (pretty (progress s) +:+ "%") (Process.format_ext (outputFormat (config s)))
              (ProcessView.quality_text (outputQuality (config s)))
  else
    Complete "Your concise, polished video is ready for download."
             (ProcessView.stat_cards metrics (config s))
             (ProcessView.report_card (loadingReport s) (aiReport s))
             [ProcessView.download_label (config s); "Process Another Video"].

Definition inv (s : State) : Prop :=
  (0 <= progress s <= 100)%Z /\ (isComplete s = true -> progress s = 100%Z) /\
  (loadingReport s = true -> isComplete s = true).

End Rev1.

(** ** Revision 2 *)

Section Rev2.
Context {M : Type} `{ME : MediaElement M}.

(** Revision 2 (lines 167-269) has the hooks, effects and handlers of the
    last revision but for the increment it draws and the stage display. *)
Definition rev2_step : Process.process_action -> @Process.ProcessState M -> @Process.ProcessState M :=
  Process.process_step increment_rev.

(** What revision 2 shows (lines 271-417): the rendering screen of
    revision 1; once complete, the banner's sentence, the preview player
    with its playing indicator ([isPlaying], line 331) or its play overlay
    ([!isPlaying], line 338), the metric cards, the report and the labels
    of the action buttons. *)
Inductive Screen2 :=
  | Rendering2 (percent format quality : string)
  | Complete2 (banner : string) (playing overlay : bool)
              (cards : option (list (string * string))) (report : option string)
              (buttons : list string).

Definition view2 (metrics : ProcessingMetrics) (s : @Process.ProcessState M) : Screen2 :=
  if negb (Process.isComplete s) then
    Rendering2 (pretty (Process.progress s) +:+ "%")
               (Process.format_ext (outputFormat (Process.config s)))
               (ProcessView.quality_text (outputQuality (Process.config s)))
  else
    Complete2 "Your concise, polished video is ready."
              (Process.isPlaying s) (negb (Process.isPlaying s))
              (ProcessView.stat_cards metrics (Process.config s))
              (ProcessView.report_card (Process.loadingReport s) (Process.aiReport s))
              ["Watch Preview"; ProcessView.download_label (Process.config s); "Process Another"].

(** The hooks revision 1 has of a state of revision 2, and its actions
    as actions of revision 2. *)
Definition forget (s : @Process.ProcessState M) : Rev1.State :=
  Rev1.mkState (Process.progress s) (Process.isComplete s) (Process.aiReport s)
               (Process.loadingReport s) (Process.cuts s) (Process.config s).

Definition lift (a : Rev1.action) : Process.process_action :=
  match a with
  | Rev1.Progress r => Process.PProgress r
  | Rev1.ReportStart => Process.PReportStart
  | Rev1.ReportDone t => Process.PReportDone t
  end.

End Rev2.

(** ** Lemmas *)

Lemma increment_rev_pos p r : (1 <= increment_rev p r)%Z.
Proof. unfold increment_rev. lia. Qed.

(** A draw in [0, 1) adds at most 9. *)
Lemma increment_rev_le p r : 0 <= r < 1 -> (increment_rev p r <= 9)%Z.
Proof.
  intros Hr. unfold increment_rev.
  assert (Qfloor (r * 10) < 10)%Z by (apply Qfloor_lt; change (inject_Z 10) with 10; lra). lia.
Qed.

Section Sim.
Context {M : Type} `{ME : MediaElement M}.

(** Revision 2 run on an action of revision 1 does what revision 1 does
    to the hooks they share; the unguarded [setIsComplete(true)] of
    revision 1 changes nothing on a complete state. *)
Lemma forget_step a (s : @Process.ProcessState M) :
  forget (rev2_step (lift a) s) = Rev1.step a (forget s).
Proof.
  destruct a as [r| |t]; cbn.
  - unfold Process.progressEffect, Rev1.progressEffect; cbn.
    destruct (100 <=? Process.progress s)%Z; [|reflexivity].
    destruct (Process.isComplete s) eqn:E; [unfold forget; by rewrite E | reflexivity].
  - unfold Process.reportStart, Rev1.reportStart, forget; cbn.
    destruct (Process.isComplete s) eqn:E; cbn; by rewrite ?E.
  - reflexivity.
Qed.

Lemma forget_enabled a (s : @Process.ProcessState M) :
  Process.process_enabled (lift a) s = Rev1.enabled a (forget s).
Proof. by destruct a. Qed.

(** What the two revisions show of the same hooks: the same rendering
    screen; once complete, the same cards and report and both a download
    button, under a different banner sentence and different buttons. *)
Lemma view_compare m (s : @Process.ProcessState M) :
  match Rev1.view m (forget s), view2 m s with
  | Rev1.Rendering p f q, Rendering2 p' f' q' => p = p' /\ f = f' /\ q = q'
  | Rev1.Complete b cs r bs, Complete2 b' _ _ cs' r' bs' =>
      cs = cs' /\ r = r' /\ b <> b' /\ bs <> bs' /\
      ProcessView.download_label (Process.config s) ∈ bs /\
      ProcessView.download_label (Process.config s) ∈ bs'
  | _, _ => False
  end.
Proof.
  unfold view2, Rev1.view, forget; cbn. destruct (Process.isComplete s); cbn; [|done].
  split_and!; [done | done | discriminate | discriminate | set_solver | set_solver].
Qed.

(** Every run of revision 1 is a run of revision 2, whatever preview
    element revision 2 is given. *)
Lemma rev1_simulation v cs cfg s1 :
  Rev1.reachable cs cfg s1 ->
  exists s : @Process.ProcessState M, Process.process_reachable increment_rev v cs cfg s /\ forget s = s1.
Proof.
  induction 1 as [|a s1 _ (s & Hs & <-) He].
  - exists (Process.process_initial v cs cfg). split; [constructor | reflexivity].
  - exists (rev2_step (lift a) s). split; [|apply forget_step].
    apply Process.pr_step; [exact Hs | by rewrite forget_enabled].
Qed.

End Sim.

(** ** Properties *)

(** C31. Revision 2 refines revision 1: every reachable state of revision 1
    is what revision 1 keeps of a reachable state of revision 2, for any
    preview element.  On those states the two revisions show the same
    rendering screen, and once complete the same metric cards and report
    and a download button, while the banner's sentence and the action
    buttons differ. *)
Theorem rev1_refines {M : Type} `{ME : MediaElement M} (v : option M) cs cfg m s1 :
  Rev1.reachable cs cfg s1 ->
  exists s : @Process.ProcessState M,
    Process.process_reachable increment_rev v cs cfg s /\ forget s = s1 /\
    match Rev1.view m s1, view2 m s with
    | Rev1.Rendering p f q, Rendering2 p' f' q' => p = p' /\ f = f' /\ q = q'
    | Rev1.Complete b cs r bs, Complete2 b' _ _ cs' r' bs' =>
        cs = cs' /\ r = r' /\ b <> b' /\ bs <> bs' /\
        ProcessView.download_label (Rev1.config s1) ∈ bs /\
        ProcessView.download_label (Rev1.config s1) ∈ bs'
    | _, _ => False
    end.
Proof.
  intros H. destruct (rev1_simulation v cs cfg s1 H) as (s & Hs & Hf).
  exists s. split_and!; [exact Hs | exact Hf |]. rewrite <- Hf. apply view_compare.
Qed.

(** Every reachable state of revision 1 has its progress in [0, 100], is
    complete only at 100, and loads a report only once complete. *)
Theorem rev1_reachable_inv cs cfg s1 : Rev1.reachable cs cfg s1 -> Rev1.inv s1.
Proof.
  intros H. destruct (rev1_simulation (M := Video) None cs cfg s1 H) as (s & Hs & <-).
  change (Process.process_inv s). clear H. induction Hs as [|a s _ IH _].
  - unfold Process.process_inv; cbn. split; [lia | split; discriminate].
  - by apply (Process.process_step_inv increment_rev increment_rev_pos).
Qed.

(** C32. The render of revisions 1 and 2 ends within [100 - progress]
    timeouts whatever the draws, never goes back, and with draws in [0, 1)
    gains at most 9 per timeout: a render from 0 shows at least 12 steps,
    where the last revision's shows at least 25. *)
Theorem rev_progress_rate rnd k n p :
  draws_ok rnd -> (p <= 100)%Z ->
  (p <= Process.run_progress_by increment_rev rnd k n p <= Z.min 100 (p + 9 * Z.of_nat n))%Z /\
  ((100 - p <= Z.of_nat n)%Z -> Process.run_progress_by increment_rev rnd k n p = 100%Z).
Proof.
  intros Hr Hp. split.
  - apply Process.run_progress_by_rate; [apply increment_rev_pos | apply increment_rev_le | done | done].
  - apply Process.run_progress_by_completes; [apply increment_rev_pos | done].
Qed.

(** The earlier revisions render faster: with every draw 0.95 revision 1
    completes after 12 timeouts, when the last revision is at 48. *)
Remark earlier_revisions_faster :
  Process.run_progress_by increment_rev (fun _ => 19#20) O 12 0 = 100%Z /\
  Process.run_progress (fun _ => 19#20) O 12 0 = 48%Z.
Proof. vm_compute. split; reflexivity. Qed.

(** ** Witnesses *)

Definition ex_metrics : ProcessingMetrics := mkMetrics 60 58 1 2.

Lemma rev1_refines_witness :
  exists s : @Process.ProcessState Video,
    Process.process_reachable increment_rev (Some Process.ex_video) [Process.ex_cut] Process.ex_config s /\
    forget s = Rev1.step (Rev1.Progress (1#2)) (Rev1.initial [Process.ex_cut] Process.ex_config) /\
    match Rev1.view ex_metrics (Rev1.step (Rev1.Progress (1#2)) (Rev1.initial [Process.ex_cut] Process.ex_config)),
          view2 ex_metrics s with
    | Rev1.Rendering p f q, Rendering2 p' f' q' => p = p' /\ f = f' /\ q = q'
    | Rev1.Complete b cs r bs, Complete2 b' _ _ cs' r' bs' =>
        cs = cs' /\ r = r' /\ b <> b' /\ bs <> bs' /\
        ProcessView.download_label (Rev1.config (Rev1.step (Rev1.Progress (1#2)) (Rev1.initial [Process.ex_cut] Process.ex_config))) ∈ bs /\
        ProcessView.download_label (Rev1.config (Rev1.step (Rev1.Progress (1#2)) (Rev1.initial [Process.ex_cut] Process.ex_config))) ∈ bs'
    | _, _ => False
    end.
Proof.
  apply rev1_refines. apply Rev1.r1_step; [apply Rev1.r1_init | reflexivity].
Defined.

Lemma rev_progress_rate_witness :
  (0 <= Process.run_progress_by increment_rev (fun _ => 1#2) O 20 0 <= Z.min 100 (0 + 9 * Z.of_nat 20))%Z /\
  ((100 - 0 <= Z.of_nat 20)%Z -> Process.run_progress_by increment_rev (fun _ => 1#2) O 20 0 = 100%Z).
Proof. apply rev_progress_rate; [intros _; decide_concrete | vm_compute; discriminate]. Defined.

End ProcessRevisions.
