(* ===== verification/AppView.v ===== *)
(** What the App renders ([src/unnamed/part_000], lines 138-210): the
    navigation badge of the phase (lines 150-155) and the one screen the
    phase selects, with the props the App gives it (lines 162-206).  The
    theorems compose the App's state machine ([App.app_reachable]) with
    the screens it renders. *)

From S2P Require Import Prelude Types Metrics Analysis Upload App Process ProcessView.

Module AppView.

(** The screen of a phase and its props; [None] for a prop the App does
    not pass. *)
Inductive Screen :=
  | UploadScreen
  | AnalyzingScreen
  | ReviewScreen (fileUrl : string) (cuts : list CutEvent)
  | ProcessScreen (metrics : ProcessingMetrics) (cuts : list CutEvent) (config : VideoConfig)
                  (fileUrl : option string) (file : option Upload.File).

(** The badge of the navigation bar (lines 150-155). *)
Definition phase_badge (p : Phase) : option string :=
  match p with
  | upload => None
  | analyzing => Some "Analyzing..."
  | review => Some "Review Mode"
  | processing => Some "Rendering..."
  | completed => Some "Complete"
  end.

(** The main content (lines 162-206): [ProcessPhase] gets
    [calculateMetrics()], the cuts, the configuration and [onReset], and
    neither [fileUrl] nor [file]. *)
Definition app_screen (s : App.AppState) : Screen :=
  match App.phase s with
  | upload => UploadScreen
  | analyzing => AnalyzingScreen
  | review => ReviewScreen (App.fileUrl s) (App.cuts s)
  | processing | completed =>
      ProcessScreen (Metrics.calculateMetrics (App.cuts s) (App.originalDuration s))
                    (App.cuts s) (App.config s) None None
  end.

(** ** Lemmas *)

(** Past the upload screen the App holds the file it analysed. *)
Lemma file_kept t0 s : App.app_reachable t0 s -> App.phase s <> upload -> is_Some (App.file s).
Proof.
  induction 1 as [|s s' Hreach IH Hst]; [done|]. intros Hph.
  pose proof (App.app_reachable_inv t0 s Hreach) as Hi.
  destruct Hst as [a s Hup|url s _|d s _ _|rnd md cfg s Hpen Hrnd
                  |cid st s Hr|s Hr|s Hr|s Hr|s]; cbn in *; try (apply IH; congruence).
  - destruct (App.uploadAction_effect a s) as [(H1 & _)|(u & Hu)]; [congruence|].
    rewrite Hu in Hph |- *. cbn in *. unfold App.handleStartAnalysis in *.
    destruct (App.file s) eqn:Ef; [by eexists | cbn in Hph; congruence].
  - unfold App.analysisDone. rewrite Hpen. cbn. apply IH.
    destruct Hi as (_ & _ & _ & [_ Ha] & _). rewrite (Ha ltac:(by eexists)). discriminate.
  - exfalso. apply Hph. reflexivity.
Qed.

(** ** Properties *)

(** C35. The processing screen cannot download the result: in every reachable
    App state that shows it, the App holds the uploaded file but passes
    neither the file nor its URL, so [handleDownload] clicks no link. *)
Theorem app_download_inert t0 s :
  App.app_reachable t0 s -> App.phase s = processing ->
  is_Some (App.file s) /\
  exists m cs cfg, app_screen s = ProcessScreen m cs cfg None None /\
    Process.handleDownload None None cfg = None.
Proof.
  intros Hr Hph. split; [apply (file_kept t0 s Hr); by rewrite Hph|].
  unfold app_screen. rewrite Hph. by eexists _, _, _.
Qed.

(** C36. On a short video the processing screen shows a negative new
    duration.  A run of the App: select a file, read a duration of 6 s from
    its metadata, analyse with every draw 0.9 (five silences of 2 s, all
    kept by the default threshold of 1 s), confirm.  The cards then say
    10.0 s saved and a new duration of -0.1 min, while the five cuts all
    span [0.9, 2.9), so playback skips 2 s. *)
Theorem short_video_negative_duration :
  exists s, App.app_reachable 0 s /\ App.phase s = processing /\ App.originalDuration s = 6 /\
    exists m cs cfg, app_screen s = ProcessScreen m cs cfg None None /\
      ProcessView.stat_cards m cfg =
        Some [("Time Saved", "10.0s"); ("Cuts Made", "5"); ("New Duration", "-0.1m"); ("Format", "MP4")] /\
      length cs = 5%nat /\ Forall (fun c => start c == 9#10 /\ end_ c == 29#10) cs.
Proof.
  set (s_meta := App.set_originalDuration 6 App.demo_selected).
  set (s_an := App.uploadAction Upload.UAnalyze s_meta).
  set (s_rev := App.analysisDone (fst (Analysis.analyzeVideoMock (fun _ => 9#10) 6 O)) s_an).
  exists (App.handleConfirmCuts s_rev). split_and!.
  - apply (App.ar_step 0 s_rev); [|apply App.st_confirm; reflexivity].
    apply (App.ar_step 0 s_an);
      [|apply (App.st_analysis_done _ 6 App.default_config); [vm_compute; reflexivity | intros _; decide_concrete]].
    apply (App.ar_step 0 s_meta); [|apply App.st_upload; vm_compute; reflexivity].
    apply (App.ar_step 0 App.demo_selected); [|apply App.st_metadata; [discriminate | decide_concrete]].
    apply (App.ar_step 0 (App.app_initial 0)); [apply App.ar_init | apply App.st_upload; reflexivity].
  - reflexivity.
  - reflexivity.
  - eexists _, _, _. split; [reflexivity|]. vm_compute.
    split_and!; [reflexivity | reflexivity | repeat constructor; reflexivity].
Qed.

(** ** Witnesses *)

Lemma app_download_inert_witness :
  is_Some (App.file (App.handleConfirmCuts App.demo_review)) /\
  exists m cs cfg, app_screen (App.handleConfirmCuts App.demo_review) = ProcessScreen m cs cfg None None /\
    Process.handleDownload None None cfg = None.
Proof.
  apply (app_download_inert 0); [|reflexivity].
  eapply App.ar_step; [|apply App.st_confirm; reflexivity].
  App.reach_demo.
Defined.

End AppView.
